(** * ndppd: the link-layer packet engine of [src/iface.c]

    A shallow embedding of the receive path ([ndL_handle_msg], [ndL_handle_ns],
    [ndL_handle_na]), of the ICMPv6 checksum ([ndL_calculate_checksum],
    [ndL_calculate_icmp6_checksum]), of the transmit path ([ndL_send_icmp6],
    [nd_iface_send_na], [nd_iface_send_ns], [ndL_get_local_addr]) and of the
    interface flag bookkeeping ([nd_iface_set_allmulti], [nd_iface_set_promisc],
    [nd_iface_close]).

    The C code overlays packed structs on raw buffers.  The embedding keeps
    that view: a pointer is the list of bytes found from that address on, a
    field is read and written at its byte offset, and integers are [Z] with
    the C wrap-around written out. *)

From Stdlib Require Import String.
From Stdlib Require Import ZArith List Lia Bool.
From coqutil Require Import Byte.
Import ListNotations.
Local Open Scope Z_scope.

(** ** Memory seen through a pointer *)

(** The bytes stored from some address on, in address order. *)
Definition mem := list byte.

(** [p + n] for a byte pointer [p]. *)
Definition ptr_add (p : mem) (n : nat) : mem := skipn n p.

(** The [n] bytes at [p]. *)
Definition load (p : mem) (n : nat) : list byte := firstn n p.

(** The byte at [p + off], as an unsigned number. *)
Definition load8 (p : mem) (off : nat) : Z := byte.unsigned (nth off p Byte.x00).

(** Overwrite the bytes at [p + off] with [bs]. *)
Definition store (p : mem) (off : nat) (bs : list byte) : mem :=
  firstn off p ++ bs ++ skipn (off + length bs) p.

(** [memcpy(dst + off, src, n)]. *)
Definition memcpy (dst : mem) (off : nat) (src : mem) (n : nat) : mem :=
  store dst off (load src n).

(** A [uint16_t] or [uint32_t] that holds a value in network byte order is
    represented by the number its bytes spell on the wire (big-endian), so
    that [htons], [ntohs] and [htonl] are the identity on the model and the
    byte order of the host never shows. *)
Definition be16 (v : Z) : list byte :=
  [byte.of_Z (Z.shiftr v 8); byte.of_Z v].

Definition be32 (v : Z) : list byte :=
  [byte.of_Z (Z.shiftr v 24); byte.of_Z (Z.shiftr v 16);
   byte.of_Z (Z.shiftr v 8); byte.of_Z v].

Definition load16 (p : mem) (off : nat) : Z :=
  256 * load8 p off + load8 p (off + 1).

Definition load32 (p : mem) (off : nat) : Z :=
  16777216 * load8 p off + 65536 * load8 p (off + 1)
  + 256 * load8 p (off + 2) + load8 p (off + 3).

Definition store8 (p : mem) (off : nat) (v : Z) : mem := store p off [byte.of_Z v].
Definition store16 (p : mem) (off : nat) (v : Z) : mem := store p off (be16 v).
Definition store32 (p : mem) (off : nat) (v : Z) : mem := store p off (be32 v).

(** ** Layout of the system headers

    [struct ether_header], [struct ip6_hdr], [struct ip6_hbh],
    [struct icmp6_hdr], [struct nd_neighbor_solicit],
    [struct nd_neighbor_advert] and [struct nd_opt_hdr] come from the
    platform's [<net/ethernet.h>], [<netinet/ip6.h>] and [<netinet/icmp6.h>];
    their sizes, field offsets and constants are those of RFC 8200 and
    RFC 4861. *)

Definition ETHER_ADDR_LEN : nat := 6.
Definition ETHERTYPE_IPV6 : Z := 0x86dd.
Definition IPPROTO_HOPOPTS : Z := 0.
Definition IPPROTO_ICMPV6 : Z := 58.
Definition ND_NEIGHBOR_SOLICIT : Z := 135.
Definition ND_NEIGHBOR_ADVERT : Z := 136.
Definition ND_OPT_SOURCE_LINKADDR : Z := 1.
Definition ND_OPT_TARGET_LINKADDR : Z := 2.

(** The NA flags live in the first byte of the 32-bit [nd_na_flags_reserved]
    field: R = 0x80, S = 0x40, O = 0x20 on the wire. *)
Definition ND_NA_FLAG_ROUTER : Z := 0x80000000.
Definition ND_NA_FLAG_SOLICITED : Z := 0x40000000.
Definition ND_NA_FLAG_OVERRIDE : Z := 0x20000000.

Definition sizeof_ether_header : nat := 14.
Definition sizeof_ip6_hdr : nat := 40.
Definition sizeof_icmp6_hdr : nat := 8.
Definition sizeof_nd_neighbor_solicit : nat := 24.
Definition sizeof_nd_neighbor_advert : nat := 24.
Definition sizeof_nd_opt_hdr : nat := 2.
Definition sizeof_in6_addr : nat := 16.

(** [ndL_ip6_msg_t] is the packed pair of an Ethernet and an IPv6 header. *)
Definition sizeof_ndL_ip6_msg_t : nat := sizeof_ether_header + sizeof_ip6_hdr.

(** Offsets inside [struct ether_header]. *)
Definition off_ether_dhost : nat := 0.
Definition off_ether_shost : nat := 6.
Definition off_ether_type : nat := 12.

(** Offsets inside [struct ip6_hdr]. *)
Definition off_ip6_flow : nat := 0.
Definition off_ip6_plen : nat := 4.
Definition off_ip6_nxt : nat := 6.
Definition off_ip6_hops : nat := 7.
Definition off_ip6_src : nat := 8.
Definition off_ip6_dst : nat := 24.

(** Offsets inside [struct ip6_hbh]. *)
Definition off_ip6h_nxt : nat := 0.
Definition off_ip6h_len : nat := 1.

(** Offsets inside [struct icmp6_hdr] and the two ND messages built on it. *)
Definition off_icmp6_type : nat := 0.
Definition off_icmp6_code : nat := 1.
Definition off_icmp6_cksum : nat := 2.
Definition off_nd_na_flags_reserved : nat := 4.
Definition off_nd_ns_target : nat := 8.
Definition off_nd_na_target : nat := 8.

(** Offsets inside [struct nd_opt_hdr]. *)
Definition off_nd_opt_type : nat := 0.
Definition off_nd_opt_len : nat := 1.

(** ** Addresses, sessions, interfaces *)

(** [nd_addr_t] is [struct in6_addr]: sixteen bytes. *)
Definition nd_addr_t := list byte.

(** Modelled from the spec: [nd_addr_is_unspecified] lives in [addr.c], a
    different translation unit.  The unspecified address is [::], all sixteen
    bytes zero. *)
Definition nd_addr_is_unspecified (a : nd_addr_t) : bool :=
  forallb (fun b => byte.unsigned b =? 0) (load a sizeof_in6_addr).

(** Modelled from the spec: [nd_addr_is_multicast] lives in [addr.c].  A
    multicast address is one of [ff00::/8]: its first byte is [0xff]. *)
Definition nd_addr_is_multicast (a : nd_addr_t) : bool :=
  load8 a 0 =? 0xff.

(** Modelled from the spec: [nd_addr_eq] lives in [addr.c]; equality of the
    sixteen bytes. *)
Definition nd_addr_eq (a b : nd_addr_t) : bool :=
  if list_eq_dec Byte.byte_eq_dec (load a sizeof_in6_addr) (load b sizeof_in6_addr)
  then true else false.

(** A proxy is only ever passed on, never inspected, by [iface.c]. *)
Definition nd_proxy_t := nat.

(** Of a session, [iface.c] reads [real_tgt] and walks [next_in_iface]. *)
Record nd_session_t := {
  session_id : nat;
  real_tgt : nd_addr_t
}.

(** [nd_iface_t], with the fields [iface.c] touches.  The intrusive list
    [sessions] / [next_in_iface] is a list of sessions. *)
Record nd_iface_t := {
  index : Z;
  name : String.string;
  lladdr : list byte;
  refcount : Z;
  old_allmulti : Z;
  old_promisc : Z;
  proxy : option nd_proxy_t;
  sessions : list nd_session_t
}.

(** Modelled from the spec: [ND_LL_SEARCH] is a macro of [ndppd.h]; it leaves
    in its cursor the first element of the list that satisfies the condition,
    or [NULL]. *)
Definition ND_LL_SEARCH {A : Type} (l : list A) (cond : A -> bool) : option A :=
  find cond l.

(** ** Calls that leave [iface.c]

    [nd_proxy_handle_ns] ([proxy.c]) and [nd_session_handle_na] ([session.c])
    are the only ways the receive path acts on sessions, interfaces or the
    wire.  The receive path is modelled by the list of such calls it makes,
    in order, with their arguments.  The callees get pointers into the frame;
    the model passes what they point at: sixteen bytes for an address and,
    for [src_ll], the six bytes of a link-layer address, or [None] for
    [NULL]. *)
Inductive call :=
| nd_proxy_handle_ns (p : nd_proxy_t) (src dst tgt : nd_addr_t) (src_ll : option (list byte))
| nd_session_handle_na (s : nd_session_t).

(** ** The checksum *)

(** One round of the loop body of [ndL_calculate_checksum]: add a 16-bit word
    (or the odd last byte) to the [uint32_t] accumulator and fold the carry
    back by subtracting [0xffff]. *)
Definition ndL_checksum_add (sum v : Z) : Z :=
  let sum := (sum + v) mod 2 ^ 32 in
  if sum >? 0xffff then (sum - 0xffff) mod 2 ^ 32 else sum.

(** The loop [for (i = 0; i < length; i += 2)] over the bytes at [data]:
    two bytes at a time, read in network order, and a last single byte when
    the length is odd. *)
Fixpoint ndL_checksum_loop (sum : Z) (data : list byte) : Z :=
  match data with
  | [] => sum
  | [b] => ndL_checksum_add sum (byte.unsigned b)
  | hi :: lo :: rest =>
      ndL_checksum_loop
        (ndL_checksum_add sum (256 * byte.unsigned hi + byte.unsigned lo)) rest
  end.

(** [static uint16_t ndL_calculate_checksum(uint32_t sum, const void *data,
    size_t length)]; the result is cut to sixteen bits on return. *)
Definition ndL_calculate_checksum (sum : Z) (data : mem) (length : Z) : Z :=
  ndL_checksum_loop (sum mod 2 ^ 32) (load data (Z.to_nat length)) mod 2 ^ 16.

(** [ndL_calculate_icmp6_checksum(ip6_hdr, icmp6_hdr, size)].  The local
    [hdr] is the 48-byte packed pseudo-header: source, destination,
    [htonl(size)], three zero bytes, the protocol number, and a copy of the
    ICMPv6 header whose checksum field is cleared.  The second pass runs over
    the [size - sizeof(struct icmp6_hdr)] bytes that follow the ICMPv6 header
    ([size_t] arithmetic).  The result is [htons(~sum)]. *)
Definition ndL_calculate_icmp6_checksum (ip6_hdr icmp6_hdr : mem) (size : Z) : Z :=
  let hdr :=
    load (ptr_add ip6_hdr off_ip6_src) sizeof_in6_addr
    ++ load (ptr_add ip6_hdr off_ip6_dst) sizeof_in6_addr
    ++ be32 (size mod 2 ^ 32)
    ++ [Byte.x00; Byte.x00; Byte.x00]
    ++ [byte.of_Z IPPROTO_ICMPV6]
    ++ store16 (load icmp6_hdr sizeof_icmp6_hdr) off_icmp6_cksum 0 in
  let sum := ndL_calculate_checksum 0xffff hdr 48 in
  let sum := ndL_calculate_checksum sum (ptr_add icmp6_hdr sizeof_icmp6_hdr)
               ((size - Z.of_nat sizeof_icmp6_hdr) mod 2 ^ 64) in
  Z.lnot sum mod 2 ^ 16.

(** ** The receive path *)

(** [ndL_handle_ns(iface, ip6h, ih, len)]. *)
Definition ndL_handle_ns (iface : nd_iface_t) (ip6h ih : mem) (len : Z) : list call :=
  match proxy iface with
  | None => []
  | Some pr =>
      if len <? Z.of_nat sizeof_nd_neighbor_solicit then [] else
      let ns := ih in
      let src := load (ptr_add ip6h off_ip6_src) sizeof_in6_addr in
      let dst := load (ptr_add ip6h off_ip6_dst) sizeof_in6_addr in
      let tgt := load (ptr_add ns off_nd_ns_target) sizeof_in6_addr in
      if negb (nd_addr_is_unspecified src) then
        if (len - Z.of_nat sizeof_nd_neighbor_solicit) mod 2 ^ 64 <? 8 then [] else
        let opt := ptr_add ns sizeof_nd_neighbor_solicit in
        if negb (load8 opt off_nd_opt_len =? 1)
           || negb (load8 opt off_nd_opt_type =? ND_OPT_SOURCE_LINKADDR)
        then []
        else [nd_proxy_handle_ns pr src dst tgt (Some (load (ptr_add opt 2) ETHER_ADDR_LEN))]
      else [nd_proxy_handle_ns pr src dst tgt None]
  end.

(** [ndL_handle_na(iface, ih, len)]. *)
Definition ndL_handle_na (iface : nd_iface_t) (ih : mem) (len : Z) : list call :=
  if len <? Z.of_nat sizeof_nd_neighbor_advert then [] else
  let na := ih in
  let tgt := load (ptr_add na off_nd_na_target) sizeof_in6_addr in
  match ND_LL_SEARCH (sessions iface) (fun session => nd_addr_eq (real_tgt session) tgt) with
  | None => []
  | Some session => [nd_session_handle_na session]
  end.

(** How the [for (;;)] loop over the Hop-by-Hop headers ends. *)
Inductive hopopts_exit :=
| hbh_return           (* [return]: the frame is dropped *)
| hbh_break (i : Z).   (* [break]: [i] bytes of options were skipped *)

(** The loop of [ndL_handle_msg] that skips Hop-by-Hop headers; [payload] is
    [(void * )(msg + 1)], the memory after the IPv6 header, and [hbh] is read
    at [payload + i].  Every round moves [i] forward by at least eight, so
    [fuel] rounds are enough when [plen < 8 * fuel]
    (see [ndL_skip_hopopts_fuel]); [None] means the fuel ran out. *)
Fixpoint ndL_skip_hopopts (fuel : nat) (payload : mem) (plen i : Z) : option hopopts_exit :=
  match fuel with
  | O => None
  | S fuel =>
      let hbh := ptr_add payload (Z.to_nat i) in
      if ((plen - i) mod 2 ^ 64 <? 8)
         || ((plen - i) mod 2 ^ 64 <? (8 + load8 hbh off_ip6h_len * 8) mod 2 ^ 32)
      then Some hbh_return
      else
        let i' := (i + (8 + 8 * load8 hbh off_ip6h_len)) mod 2 ^ 64 in
        if load8 hbh off_ip6h_nxt =? IPPROTO_ICMPV6 then Some (hbh_break i')
        else if negb (load8 hbh off_ip6h_nxt =? IPPROTO_HOPOPTS) then Some hbh_return
        else ndL_skip_hopopts fuel payload plen i'
  end.

(** The comparison [ndL_calculate_icmp6_checksum(&msg->ip6h, ih, ilen) !=
    ih->icmp6_cksum], as its negation: the recomputed checksum equals the
    one the header carries. *)
Definition icmp6_cksum_matches (ip6h ih : mem) (ilen : Z) : bool :=
  ndL_calculate_icmp6_checksum ip6h ih ilen =? load16 ih off_icmp6_cksum.

(** The last statement of [ndL_handle_msg]: dispatch on [icmp6_type]. *)
Definition ndL_dispatch (iface : nd_iface_t) (ip6h ih : mem) (ilen : Z) : list call :=
  if load8 ih off_icmp6_type =? ND_NEIGHBOR_SOLICIT then ndL_handle_ns iface ip6h ih ilen
  else if load8 ih off_icmp6_type =? ND_NEIGHBOR_ADVERT then ndL_handle_na iface ih ilen
  else [].

(** Checksum comparison and dispatch for the ICMPv6 header at [ih]. *)
Definition ndL_validate (iface : nd_iface_t) (ip6h ih : mem) (ilen : Z) : list call :=
  if negb (icmp6_cksum_matches ip6h ih ilen) then []
  else ndL_dispatch iface ip6h ih ilen.

(** [ih] is [(struct icmp6_hdr * )(msg + 1) + i]: the cast binds
    tighter than the sum, so [i] counts [struct icmp6_hdr] elements and the
    header is read [sizeof(struct icmp6_hdr) * i] bytes after the IPv6
    header. *)
Definition ndL_icmp6_hdr (msg : mem) (i : Z) : mem :=
  ptr_add (ptr_add msg sizeof_ndL_ip6_msg_t) (sizeof_icmp6_hdr * Z.to_nat i).

(** The first statement of [ndL_handle_msg]: where the ICMPv6 header is
    looked for.  [None] stands for the [return]s, [Some i] for reaching the
    length check with that [i]. *)
Definition ndL_skip_headers (msg : mem) : option Z :=
  let ip6h := ptr_add msg sizeof_ether_header in
  let plen := load16 ip6h off_ip6_plen in
  if load8 ip6h off_ip6_nxt =? IPPROTO_HOPOPTS then
    match ndL_skip_hopopts (S (Z.to_nat plen)) (ptr_add msg sizeof_ndL_ip6_msg_t) plen 0 with
    | Some (hbh_break i) => Some i
    | Some hbh_return => None
    | None => None
    end
  else if negb (load8 ip6h off_ip6_nxt =? IPPROTO_ICMPV6) then None
  else Some 0.

(** The statements of [ndL_handle_msg] up to the checksum comparison: the
    ICMPv6 header [ih] and the [uint16_t ilen] it goes on with, or [None]
    when it returns before. *)
Definition ndL_locate_icmp6 (msg : mem) : option (mem * Z) :=
  let plen := load16 (ptr_add msg sizeof_ether_header) off_ip6_plen in
  match ndL_skip_headers msg with
  | None => None
  | Some i =>
      if (plen - i) mod 2 ^ 64 <? Z.of_nat sizeof_icmp6_hdr then None
      else Some (ndL_icmp6_hdr msg i, ((plen - i) mod 2 ^ 64) mod 2 ^ 16)
  end.

(** [ndL_handle_msg(iface, msg)]; [msg] points at the receive buffer, which
    starts with the Ethernet header of the frame. *)
Definition ndL_handle_msg (iface : nd_iface_t) (msg : mem) : list call :=
  match ndL_locate_icmp6 msg with
  | None => []
  | Some (ih, ilen) => ndL_validate iface (ptr_add msg sizeof_ether_header) ih ilen
  end.

(** What the receive path does to the rest of the daemon, for any
    implementation of the two callees over any state [world] (sessions,
    interfaces, frames put on the wire). *)
Section Effects.
Variable world : Type.
Variable do_handle_ns :
  nd_proxy_t -> nd_addr_t -> nd_addr_t -> nd_addr_t -> option (list byte) -> world -> world.
Variable do_handle_na : nd_session_t -> world -> world.

Definition perform (w : world) (c : call) : world :=
  match c with
  | nd_proxy_handle_ns p src dst tgt src_ll => do_handle_ns p src dst tgt src_ll w
  | nd_session_handle_na s => do_handle_na s w
  end.

Definition perform_all (cs : list call) (w : world) : world :=
  fold_left perform cs w.
End Effects.

(** ** The transmit path *)

(** What [ndL_send_icmp6] hands to [nd_io_send] (or [nd_io_write]): the
    interface the frame leaves on and the [size] bytes at [msg]. *)
Record sent := {
  sll_ifindex : Z;
  frame : list byte
}.

(** [ndL_send_icmp6(iface, msg, size, hwaddr)].  [size - sizeof(ndL_ip6_msg_t)]
    is [size_t] arithmetic, cut to sixteen bits by [htons] and by the
    [uint16_t icmp6_len]. *)
Definition ndL_send_icmp6 (iface : nd_iface_t) (msg : mem) (size : Z) (hwaddr : mem) : sent :=
  let ip6h := sizeof_ether_header in
  let msg := store16 msg off_ether_type ETHERTYPE_IPV6 in
  let msg := memcpy msg off_ether_shost (lladdr iface) ETHER_ADDR_LEN in
  let msg := memcpy msg off_ether_dhost hwaddr ETHER_ADDR_LEN in
  let msg := store32 msg (ip6h + off_ip6_flow)
               (Z.lor (Z.lor (Z.shiftl 6 28) (Z.shiftl 0 20)) 0) in
  let msg := store16 msg (ip6h + off_ip6_plen)
               (((size - Z.of_nat sizeof_ndL_ip6_msg_t) mod 2 ^ 64) mod 2 ^ 16) in
  let msg := store8 msg (ip6h + off_ip6_hops) 255 in
  let msg := store8 msg (ip6h + off_ip6_nxt) IPPROTO_ICMPV6 in
  let icmp6_hdr := ptr_add msg sizeof_ndL_ip6_msg_t in
  let icmp6_len := ((size - Z.of_nat sizeof_ndL_ip6_msg_t) mod 2 ^ 64) mod 2 ^ 16 in
  let msg := store16 msg (sizeof_ndL_ip6_msg_t + off_icmp6_cksum)
               (ndL_calculate_icmp6_checksum (ptr_add msg ip6h) icmp6_hdr icmp6_len) in
  {| sll_ifindex := index iface; frame := load msg (Z.to_nat size) |}.

(** The local [msg] of [nd_iface_send_na] and of [nd_iface_send_ns]: Ethernet
    header, IPv6 header, the 24-byte ND message, an option header and six
    bytes of link-layer address, packed. *)
Definition sizeof_nd_msg : nat := 86.
Definition off_msg_ip : nat := 14.
Definition off_msg_nd : nat := 54.
Definition off_msg_opt : nat := 78.
Definition off_msg_lladdr : nat := 80.

(** [nd_iface_send_na(iface, dst, dst_ll, tgt, router)].  The initialiser
    zeroes every member it does not name. *)
Definition nd_iface_send_na (iface : nd_iface_t) (dst : nd_addr_t) (dst_ll : mem)
    (tgt : nd_addr_t) (router : bool) : sent :=
  let flags := (off_msg_nd + off_nd_na_flags_reserved)%nat in
  let msg := repeat Byte.x00 sizeof_nd_msg in
  let msg := memcpy msg (off_msg_ip + off_ip6_src) tgt sizeof_in6_addr in
  let msg := memcpy msg (off_msg_ip + off_ip6_dst) dst sizeof_in6_addr in
  let msg := store8 msg (off_msg_nd + off_icmp6_type) ND_NEIGHBOR_ADVERT in
  let msg := memcpy msg (off_msg_nd + off_nd_na_target) tgt sizeof_in6_addr in
  let msg := store8 msg (off_msg_opt + off_nd_opt_type) ND_OPT_TARGET_LINKADDR in
  let msg := store8 msg (off_msg_opt + off_nd_opt_len) 1 in
  let msg :=
    if nd_addr_is_multicast dst
    then store32 msg flags (Z.lor (load32 msg flags) ND_NA_FLAG_SOLICITED)
    else msg in
  let msg :=
    if router
    then store32 msg flags (Z.lor (load32 msg flags) ND_NA_FLAG_ROUTER)
    else msg in
  let msg := memcpy msg off_msg_lladdr (lladdr iface) 6 in
  ndL_send_icmp6 iface msg (Z.of_nat sizeof_nd_msg) dst_ll.

(** [ndL_get_local_addr(iface, addr)]: ten single-byte stores through
    [addr]; the bytes 2 to 7 are left as they are. *)
Definition ndL_get_local_addr (iface : nd_iface_t) (addr : mem) : mem :=
  let addr := store8 addr 0 0xfe in
  let addr := store8 addr 1 0x80 in
  let addr := store8 addr 8 (Z.lxor (load8 (lladdr iface) 0) 0x02) in
  let addr := store8 addr 9 (load8 (lladdr iface) 1) in
  let addr := store8 addr 10 (load8 (lladdr iface) 2) in
  let addr := store8 addr 11 0xff in
  let addr := store8 addr 12 0xfe in
  let addr := store8 addr 13 (load8 (lladdr iface) 3) in
  let addr := store8 addr 14 (load8 (lladdr iface) 4) in
  let addr := store8 addr 15 (load8 (lladdr iface) 5) in
  addr.

(** Run [f] on the memory at [p + off] and keep what lies before it. *)
Definition at_ptr (p : mem) (off : nat) (f : mem -> mem) : mem :=
  load p off ++ f (ptr_add p off).

(** [nd_iface_send_ns(iface, tgt)].  [multicast] is
    [{ 0xff, 0x02, [11] = 0x01, 0xff, 0, 0, 0 }] and [ll_mcast] starts as
    [{ 0x33, 0x33 }]; the four bytes [tgt->s6_addr32[3]] are then copied to
    [ll_mcast + 2]. *)
Definition nd_iface_send_ns (iface : nd_iface_t) (tgt : nd_addr_t) : sent :=
  let dst := (off_msg_ip + off_ip6_dst)%nat in
  let msg := repeat Byte.x00 sizeof_nd_msg in
  let msg := store8 msg (off_msg_nd + off_icmp6_type) ND_NEIGHBOR_SOLICIT in
  let msg := memcpy msg (off_msg_nd + off_nd_ns_target) tgt sizeof_in6_addr in
  let msg := store8 msg (off_msg_opt + off_nd_opt_type) ND_OPT_SOURCE_LINKADDR in
  let msg := store8 msg (off_msg_opt + off_nd_opt_len) 1 in
  let msg := at_ptr msg (off_msg_ip + off_ip6_src) (ndL_get_local_addr iface) in
  let multicast :=
    map byte.of_Z [0xff; 0x02; 0; 0; 0; 0; 0; 0; 0; 0; 0; 0x01; 0xff; 0; 0; 0] in
  let msg := memcpy msg dst multicast sizeof_in6_addr in
  let msg := store8 msg (dst + 13) (load8 tgt 13) in
  let msg := store8 msg (dst + 14) (load8 tgt 14) in
  let msg := store8 msg (dst + 15) (load8 tgt 15) in
  let msg := memcpy msg off_msg_lladdr (lladdr iface) 6 in
  let ll_mcast := map byte.of_Z [0x33; 0x33; 0; 0; 0; 0] in
  let ll_mcast := memcpy ll_mcast 2 (ptr_add tgt 12) 4 in
  ndL_send_icmp6 iface msg (Z.of_nat sizeof_nd_msg) ll_mcast.

(** ** Interface flags *)

(** [IFF_PROMISC] and [IFF_ALLMULTI] of [<net/if.h>]. *)
Definition IFF_PROMISC : Z := 0x100.
Definition IFF_ALLMULTI : Z := 0x200.

(** The kernel, as far as one interface's flags go: the flag word that
    [SIOCGIFFLAGS] reads and [SIOCSIFFLAGS] writes, and the outcome of the
    ioctls still to come ([true]: the call succeeds; an exhausted list means
    success). *)
Record kernel := {
  ifr_flags : Z;
  ioctl_outcomes : list bool
}.

Definition ioctl_next (k : kernel) : bool * kernel :=
  match ioctl_outcomes k with
  | [] => (true, k)
  | ok :: rest => (ok, {| ifr_flags := ifr_flags k; ioctl_outcomes := rest |})
  end.

(** [ioctl(fd, SIOCGIFFLAGS, &ifr)]: the flags, or [None] for a negative
    return. *)
Definition ioctl_SIOCGIFFLAGS (k : kernel) : option Z * kernel :=
  let (ok, k) := ioctl_next k in
  (if ok then Some (ifr_flags k) else None, k).

(** [ioctl(fd, SIOCSIFFLAGS, &ifr)]: [false] for a negative return, which
    leaves the flags alone. *)
Definition ioctl_SIOCSIFFLAGS (flags : Z) (k : kernel) : bool * kernel :=
  let (ok, k) := ioctl_next k in
  if ok then (true, {| ifr_flags := flags; ioctl_outcomes := ioctl_outcomes k |})
  else (false, k).

Definition set_refcount (v : Z) (i : nd_iface_t) : nd_iface_t :=
  {| index := index i; name := name i; lladdr := lladdr i; refcount := v;
     old_allmulti := old_allmulti i; old_promisc := old_promisc i;
     proxy := proxy i; sessions := sessions i |}.

Definition set_old_allmulti (v : Z) (i : nd_iface_t) : nd_iface_t :=
  {| index := index i; name := name i; lladdr := lladdr i; refcount := refcount i;
     old_allmulti := v; old_promisc := old_promisc i;
     proxy := proxy i; sessions := sessions i |}.

Definition set_old_promisc (v : Z) (i : nd_iface_t) : nd_iface_t :=
  {| index := index i; name := name i; lladdr := lladdr i; refcount := refcount i;
     old_allmulti := old_allmulti i; old_promisc := v;
     proxy := proxy i; sessions := sessions i |}.

(** [(ifr.ifr_flags & FLAG) != 0]. *)
Definition flag_is_set (flags FLAG : Z) : bool := negb (Z.land flags FLAG =? 0).

(** [nd_iface_set_allmulti(iface, on)]. *)
Definition nd_iface_set_allmulti (iface : nd_iface_t) (on : bool) (k : kernel)
  : bool * nd_iface_t * kernel :=
  match ioctl_SIOCGIFFLAGS k with
  | (None, k) => (false, iface, k)
  | (Some flags, k) =>
      let iface :=
        if old_allmulti iface <? 0
        then set_old_allmulti (Z.b2z (flag_is_set flags IFF_ALLMULTI)) iface
        else iface in
      if Bool.eqb on (flag_is_set flags IFF_ALLMULTI) then (true, iface, k) else
      let flags :=
        if on then Z.lor flags IFF_ALLMULTI
        else Z.land flags (Z.lnot IFF_ALLMULTI) in
      match ioctl_SIOCSIFFLAGS flags k with
      | (false, k) => (false, iface, k)
      | (true, k) => (true, iface, k)
      end
  end.

(** [nd_iface_set_promisc(iface, on)]. *)
Definition nd_iface_set_promisc (iface : nd_iface_t) (on : bool) (k : kernel)
  : bool * nd_iface_t * kernel :=
  match ioctl_SIOCGIFFLAGS k with
  | (None, k) => (false, iface, k)
  | (Some flags, k) =>
      let iface :=
        if old_promisc iface <? 0
        then set_old_promisc (Z.b2z (flag_is_set flags IFF_PROMISC)) iface
        else iface in
      if Bool.eqb on (flag_is_set flags IFF_PROMISC) then (true, iface, k) else
      let flags :=
        if on then Z.lor flags IFF_PROMISC
        else Z.land flags (Z.lnot IFF_PROMISC) in
      match ioctl_SIOCSIFFLAGS flags k with
      | (false, k) => (false, iface, k)
      | (true, k) => (true, iface, k)
      end
  end.

(** [nd_iface_close(iface)], with the global [nd_iface_no_restore_flags] as
    an argument.  The first component tells whether the interface was
    unlinked from [ndL_first_iface] and put on the free list, which happens
    when the last reference goes.  An [int] saved flag is passed for the
    [bool on]: any non-zero value is [true]. *)
Definition nd_iface_close (nd_iface_no_restore_flags : bool) (iface : nd_iface_t)
    (k : kernel) : bool * nd_iface_t * kernel :=
  let iface := set_refcount (refcount iface - 1) iface in
  if refcount iface >? 0 then (false, iface, k) else
  let '(iface, k) :=
    if negb nd_iface_no_restore_flags then
      let '(iface, k) :=
        if old_promisc iface >=? 0
        then let '(_, iface, k) :=
               nd_iface_set_promisc iface (negb (old_promisc iface =? 0)) k in
             (iface, k)
        else (iface, k) in
      if old_allmulti iface >=? 0
      then let '(_, iface, k) :=
             nd_iface_set_allmulti iface (negb (old_allmulti iface =? 0)) k in
           (iface, k)
      else (iface, k)
    else (iface, k) in
  (true, iface, k).

(** A call of one of the two setters, as the rest of the daemon makes them
    while it holds the interface. *)
Inductive set_call :=
| call_set_allmulti (on : bool)
| call_set_promisc (on : bool).

Definition run_set_call (c : set_call) (s : nd_iface_t * kernel) : nd_iface_t * kernel :=
  let (iface, k) := s in
  match c with
  | call_set_allmulti on => let '(_, iface, k) := nd_iface_set_allmulti iface on k in (iface, k)
  | call_set_promisc on => let '(_, iface, k) := nd_iface_set_promisc iface on k in (iface, k)
  end.

Definition run_set_calls (cs : list set_call) (s : nd_iface_t * kernel) : nd_iface_t * kernel :=
  fold_left (fun s c => run_set_call c s) cs s.

(** All the ioctls still to come succeed. *)
Definition ioctls_succeed (k : kernel) : Prop :=
  Forall (fun ok => ok = true) (ioctl_outcomes k).

(** What the daemon has saved agrees with the flags [flags0] that the
    interface had before the daemon touched it: a flag that is not saved yet
    still has its first value, and a saved flag is that first value. *)
Definition saved_flags_agree (flags0 : Z) (iface : nd_iface_t) (k : kernel) : Prop :=
  ((old_allmulti iface = -1
    /\ flag_is_set (ifr_flags k) IFF_ALLMULTI = flag_is_set flags0 IFF_ALLMULTI)
   \/ old_allmulti iface = Z.b2z (flag_is_set flags0 IFF_ALLMULTI))
  /\ ((old_promisc iface = -1
       /\ flag_is_set (ifr_flags k) IFF_PROMISC = flag_is_set flags0 IFF_PROMISC)
      \/ old_promisc iface = Z.b2z (flag_is_set flags0 IFF_PROMISC)).

(** A setter saves the flag only once: a saved value that is no longer the
    sentinel survives every further call. *)
Definition saves_only_once
    (setter : nd_iface_t -> bool -> kernel -> bool * nd_iface_t * kernel)
    (old : nd_iface_t -> Z) : Prop :=
  forall iface on k, 0 <= old iface -> old (snd (fst (setter iface on k))) = old iface.

(** A setter records the kernel's flag the first time: called while the
    saved value is still the sentinel, it leaves as the saved value the flag,
    0 or 1, that its [SIOCGIFFLAGS] has read from the kernel, whatever it
    goes on to do; when that ioctl fails there is nothing to record and the
    sentinel stays. *)
Definition records_first_time
    (setter : nd_iface_t -> bool -> kernel -> bool * nd_iface_t * kernel)
    (old : nd_iface_t -> Z) (FLAG : Z) : Prop :=
  forall iface on k,
    old iface < 0 ->
    old (snd (fst (setter iface on k)))
    = if fst (ioctl_next k) then Z.b2z (flag_is_set (ifr_flags k) FLAG) else old iface.

(** The flags of a running Ethernet interface: UP, BROADCAST, RUNNING,
    MULTICAST. *)
Definition sample_flags : Z := 0x1043.

(** ** Fields of a frame that went out *)

Definition ether_dhost (s : sent) : list byte :=
  load (ptr_add (frame s) off_ether_dhost) ETHER_ADDR_LEN.

Definition ip6_src (s : sent) : nd_addr_t :=
  load (ptr_add (frame s) (off_msg_ip + off_ip6_src)) sizeof_in6_addr.

Definition ip6_dst (s : sent) : nd_addr_t :=
  load (ptr_add (frame s) (off_msg_ip + off_ip6_dst)) sizeof_in6_addr.

Definition nd_na_flags_reserved (s : sent) : Z :=
  load32 (ptr_add (frame s) off_msg_nd) off_nd_na_flags_reserved.

(** ** Statements to compare the code with *)

(** The NA flags as the specification words them: O always, S exactly for a
    unicast destination, R as configured. *)
Definition na_flags_solicited_override (iface : nd_iface_t) (dst : nd_addr_t)
    (dst_ll : mem) (tgt : nd_addr_t) (router : bool) : Prop :=
  let flags := nd_na_flags_reserved (nd_iface_send_na iface dst dst_ll tgt router) in
  flag_is_set flags ND_NA_FLAG_OVERRIDE = true
  /\ flag_is_set flags ND_NA_FLAG_SOLICITED = negb (nd_addr_is_multicast dst)
  /\ flag_is_set flags ND_NA_FLAG_ROUTER = router.

(** The Ethernet address that belongs to the solicited-node multicast
    address of [tgt]: [33:33:ff] and the low 24 bits of [tgt]. *)
Definition solicited_node_lladdr (tgt : nd_addr_t) : list byte :=
  [byte.of_Z 0x33; byte.of_Z 0x33; byte.of_Z 0xff;
   nth 13 tgt Byte.x00; nth 14 tgt Byte.x00; nth 15 tgt Byte.x00].

(** The solicited-node multicast address [ff02::1:ffXX:XXXX] of [tgt]. *)
Definition solicited_node_addr (tgt : nd_addr_t) : nd_addr_t :=
  map byte.of_Z [0xff; 0x02; 0; 0; 0; 0; 0; 0; 0; 0; 0; 0x01; 0xff]
  ++ [nth 13 tgt Byte.x00; nth 14 tgt Byte.x00; nth 15 tgt Byte.x00].

(** An NS from a specified source is handed to the proxy only when its
    options are exactly one option of eight bytes, type 1 and length 1. *)
Definition ns_exactly_one_source_lladdr (iface : nd_iface_t) (ip6h ih : mem) (len : Z) : Prop :=
  nd_addr_is_unspecified (load (ptr_add ip6h off_ip6_src) sizeof_in6_addr) = false ->
  ndL_handle_ns iface ip6h ih len <> [] ->
  len - Z.of_nat sizeof_nd_neighbor_solicit = 8
  /\ load8 (ptr_add ih sizeof_nd_neighbor_solicit) off_nd_opt_type = ND_OPT_SOURCE_LINKADDR
  /\ load8 (ptr_add ih sizeof_nd_neighbor_solicit) off_nd_opt_len = 1.

(** The ICMPv6 header taken [i] bytes after the IPv6 header, right behind
    the options that were skipped. *)
Definition icmp6_hdr_at_byte_offset (msg : mem) (i : Z) : mem :=
  ptr_add (ptr_add msg sizeof_ndL_ip6_msg_t) (Z.to_nat i).

(** [ndL_handle_msg] with the header taken there. *)
Definition handle_msg_at_byte_offset (iface : nd_iface_t) (msg : mem) : list call :=
  let plen := load16 (ptr_add msg sizeof_ether_header) off_ip6_plen in
  match ndL_skip_headers msg with
  | None => []
  | Some i =>
      if (plen - i) mod 2 ^ 64 <? Z.of_nat sizeof_icmp6_hdr then []
      else ndL_validate iface (ptr_add msg sizeof_ether_header)
             (icmp6_hdr_at_byte_offset msg i) (((plen - i) mod 2 ^ 64) mod 2 ^ 16)
  end.

(** The checksum of a received frame does not verify: the frame's ICMPv6
    header, the one that follows the IPv6 header and the [i] bytes of
    Hop-by-Hop headers in front of it, carries another checksum than
    [ndL_calculate_icmp6_checksum] recomputes for it over the pseudo-header
    and the rest of the payload. *)
Definition icmp6_cksum_fails (msg : mem) : Prop :=
  let ip6h := ptr_add msg sizeof_ether_header in
  let plen := load16 ip6h off_ip6_plen in
  exists i,
    ndL_skip_headers msg = Some i
    /\ icmp6_cksum_matches ip6h (icmp6_hdr_at_byte_offset msg i) (plen - i) = false.

(** ** Sample data *)

Definition bytes (l : list Z) : list byte := map byte.of_Z l.

(** [2001:db8::1], [2001:db8::2] and [ff02::1]. *)
Definition addr_2001_db8_1 : nd_addr_t :=
  bytes [0x20; 0x01; 0x0d; 0xb8; 0; 0; 0; 0; 0; 0; 0; 0; 0; 0; 0; 0x01].
Definition addr_2001_db8_2 : nd_addr_t :=
  bytes [0x20; 0x01; 0x0d; 0xb8; 0; 0; 0; 0; 0; 0; 0; 0; 0; 0; 0; 0x02].
Definition addr_ff02_1 : nd_addr_t :=
  bytes [0xff; 0x02; 0; 0; 0; 0; 0; 0; 0; 0; 0; 0; 0; 0; 0; 0x01].

(** The solicitor's link-layer address [aa:bb:cc:dd:ee:01]. *)
Definition lladdr_solicitor : list byte := bytes [0xaa; 0xbb; 0xcc; 0xdd; 0xee; 0x01].

(** [eth0] is the upstream interface of proxy 1, [eth1] has no proxy. *)
Definition eth0 : nd_iface_t :=
  {| index := 2; name := "eth0"%string;
     lladdr := bytes [0x52; 0x54; 0x00; 0x12; 0x34; 0x56];
     refcount := 1; old_allmulti := -1; old_promisc := -1;
     proxy := Some 1%nat; sessions := [] |}.

Definition eth1 : nd_iface_t :=
  {| index := 3; name := "eth1"%string;
     lladdr := bytes [0x52; 0x54; 0x00; 0x12; 0x34; 0x57];
     refcount := 1; old_allmulti := -1; old_promisc := -1;
     proxy := None; sessions := [] |}.

(** Ethernet and IPv6 header of a frame from [2001:db8::2] to
    [ff02::1:ff00:1], with payload length [plen] and next header [nxt]. *)
Definition sample_headers (plen nxt : Z) : list byte :=
  bytes [0x33; 0x33; 0xff; 0x00; 0x00; 0x01; 0xaa; 0xbb; 0xcc; 0xdd; 0xee; 0x01;
         0x86; 0xdd;
         0x60; 0x00; 0x00; 0x00; 0x00; plen; nxt; 0xff;
         0x20; 0x01; 0x0d; 0xb8; 0; 0; 0; 0; 0; 0; 0; 0; 0; 0; 0; 0x02;
         0xff; 0x02; 0; 0; 0; 0; 0; 0; 0; 0; 0; 0x01; 0xff; 0x00; 0x00; 0x01].

(** An NS for [2001:db8::1] with checksum bytes [c1 c2], followed by the
    source link-layer option of [aa:bb:cc:dd:ee:01]. *)
Definition sample_ns (c1 c2 : Z) : list byte :=
  bytes [0x87; 0x00; c1; c2; 0; 0; 0; 0;
         0x20; 0x01; 0x0d; 0xb8; 0; 0; 0; 0; 0; 0; 0; 0; 0; 0; 0; 0x01;
         0x01; 0x01; 0xaa; 0xbb; 0xcc; 0xdd; 0xee; 0x01].

(** The solicitation of a well-formed neighbour; its checksum is [0xb88d]. *)
Definition frame_ns : mem := sample_headers 32 58 ++ sample_ns 0xb8 0x8d.

(** The same frame with the lowest bit of the checksum flipped. *)
Definition frame_ns_bad_cksum : mem := sample_headers 32 58 ++ sample_ns 0xb8 0x8c.

(** The solicitation with a second option behind the source link-layer
    option: a nonce (type 14, length 1).  Its checksum is [0xa178]. *)
Definition frame_ns_two_options : mem :=
  sample_headers 40 58 ++ sample_ns 0xa1 0x78 ++ bytes [14; 1; 1; 2; 3; 4; 5; 6].

(** The solicitation behind one Hop-by-Hop header of eight bytes (next
    header ICMPv6, length 0, a PadN option), as it lies in the 1024-byte
    receive buffer of [ndL_io_handler], the rest of the buffer zero. *)
Definition buffer_ns_hopopts : mem :=
  sample_headers 40 0 ++ bytes [58; 0; 1; 4; 0; 0; 0; 0] ++ sample_ns 0xb8 0x8d
  ++ repeat Byte.x00 (1024 - 94).

(** ** Sums of 16-bit words *)

(** The sum of the 16-bit words of [data], each read in network order, with
    an odd last byte counted as it stands: what the loop of
    [ndL_calculate_checksum] adds up before the carries are folded back. *)
Fixpoint sum16 (data : list byte) : Z :=
  match data with
  | [] => 0
  | [b] => byte.unsigned b
  | hi :: lo :: rest => 256 * byte.unsigned hi + byte.unsigned lo + sum16 rest
  end.

(** ** The checksum of RFC 1071 *)

(** The sum of the 16-bit words of [data] in network byte order, as RFC 1071
    has it: an odd last byte is the high byte of a word whose low byte is
    zero. *)
Fixpoint rfc1071_words (data : list byte) : Z :=
  match data with
  | [] => 0
  | [b] => 256 * byte.unsigned b
  | hi :: lo :: rest => 256 * byte.unsigned hi + byte.unsigned lo + rfc1071_words rest
  end.

(** The ones' complement sum of 16-bit words whose plain sum is [s]: the
    carries out of the sixteen bits are added back in. *)
Definition rfc1071_fold (s : Z) : Z :=
  if s =? 0 then 0 else 1 + (s - 1) mod 0xffff.

(** The pseudo-header of RFC 2460, section 8.1, for an ICMPv6 message of
    [size] bytes: source, destination, the length in 32 bits, three zero
    bytes and the next-header value 58. *)
Definition icmp6_pseudo_header (ip6_hdr : mem) (size : Z) : list byte :=
  load (ptr_add ip6_hdr off_ip6_src) sizeof_in6_addr
  ++ load (ptr_add ip6_hdr off_ip6_dst) sizeof_in6_addr
  ++ be32 size
  ++ bytes [0; 0; 0; 58].

(** What a receiver checks (RFC 4443, section 2.3, RFC 1071): the ones'
    complement sum over the pseudo-header and the [size] bytes of the
    message, checksum field included, is all ones. *)
Definition icmp6_checksum_verifies (ip6_hdr icmp6_hdr : mem) (size : Z) : Prop :=
  rfc1071_fold
    (rfc1071_words (icmp6_pseudo_header ip6_hdr size ++ load icmp6_hdr (Z.to_nat size)))
  = 0xffff.

(** ** The socket filter *)

(** The instructions of classic BPF that [filter] in [ndL_configure_filter]
    is made of: [BPF_STMT(BPF_LD | BPF_H | BPF_ABS, k)],
    [BPF_STMT(BPF_LD | BPF_B | BPF_ABS, k)],
    [BPF_JUMP(BPF_JMP | BPF_JEQ | BPF_K, k, jt, jf)] and
    [BPF_STMT(BPF_RET | BPF_K, k)]. *)
Inductive sock_filter :=
| BPF_LD_H_ABS (k : nat)
| BPF_LD_B_ABS (k : nat)
| BPF_JEQ_K (k : Z) (jt jf : nat)
| BPF_RET_K (k : Z).

(** [static struct sock_filter filter[]] of [ndL_configure_filter]; the last
    instruction returns [(u_int32_t)-1]. *)
Definition ndL_filter : list sock_filter :=
  [ BPF_LD_H_ABS off_ether_type;
    BPF_JEQ_K ETHERTYPE_IPV6 0 5;
    BPF_LD_B_ABS (sizeof_ether_header + off_ip6_nxt);
    BPF_JEQ_K IPPROTO_ICMPV6 0 3;
    BPF_LD_B_ABS (sizeof_ether_header + sizeof_ip6_hdr + off_icmp6_type);
    BPF_JEQ_K ND_NEIGHBOR_SOLICIT 2 0;
    BPF_JEQ_K ND_NEIGHBOR_ADVERT 1 0;
    BPF_RET_K 0;
    BPF_RET_K 0xffffffff ].

(** How the kernel runs a filter on a frame [pkt], as [bpf(4)] and
    [linux/filter.h] define these four instructions: a load puts the
    big-endian half word or the byte at offset [k] of the frame in the
    accumulator [A], and ends the run with 0 when the frame is too short; a
    jump skips [jt] instructions when [A = k] and [jf] otherwise; a return
    ends the run with the number of bytes to keep, 0 for none.  Jumps only go
    forward, so [fuel] as long as the program is enough; [None] is for
    running out of fuel or off the end of the program. *)
Fixpoint bpf_filter (fuel : nat) (prog : list sock_filter) (pc : nat) (A : Z)
    (pkt : list byte) : option Z :=
  match fuel with
  | O => None
  | S fuel =>
      match nth_error prog pc with
      | None => None
      | Some (BPF_LD_H_ABS k) =>
          if (k + 2 <=? length pkt)%nat
          then bpf_filter fuel prog (S pc) (load16 pkt k) pkt
          else Some 0
      | Some (BPF_LD_B_ABS k) =>
          if (k + 1 <=? length pkt)%nat
          then bpf_filter fuel prog (S pc) (load8 pkt k) pkt
          else Some 0
      | Some (BPF_JEQ_K k jt jf) =>
          bpf_filter fuel prog (S pc + (if A =? k then jt else jf)) A pkt
      | Some (BPF_RET_K k) => Some k
      end
  end.

(** The filter that [ndL_configure_filter] attaches ([.len = 9]), run on a
    frame. *)
Definition ndL_filter_run (pkt : list byte) : option Z :=
  bpf_filter 9 ndL_filter 0 0 pkt.

(** ** Reading from the packet socket *)

(** Modelled from the spec: [nd_io_recv] lives in [io.c]; it receives one
    frame from the link.  What one call gives to the Linux [ndL_io_handler]:
    a negative return, or a datagram whose bytes [data], at most
    [sizeof(buf)] of them, are now at the start of [buf], with the index of
    the interface it came in on in [lladdr.sll_ifindex]; the return value is
    the number of bytes. *)
Inductive recv_result :=
| recv_error
| recv_frame (ifindex : Z) (data : list byte).

Section Receive.
Variable world : Type.
Variable do_handle_ns :
  nd_proxy_t -> nd_addr_t -> nd_addr_t -> nd_addr_t -> option (list byte) -> world -> world.
Variable do_handle_na : nd_session_t -> world -> world.

(** The interfaces on the list [ndL_first_iface], with what they hold, as
    they stand in a state of the daemon; the callees may open interfaces and
    add sessions. *)
Variable first_iface : world -> list nd_iface_t.

(** [ndL_io_handler(io, events)] for Linux.  [results] are the results of
    the calls of [nd_io_recv] to come, [buf] is the local buffer, which is
    not cleared between two calls.  The loop ends at the first result that
    is zero or negative; a list that runs out stands for such a result. *)
Fixpoint ndL_io_handler (results : list recv_result) (buf : mem) (w : world) : world :=
  match results with
  | [] => w
  | recv_error :: _ => w
  | recv_frame ifindex data :: results =>
      let len := Z.of_nat (length data) in
      let buf := store buf 0 data in
      if len =? 0 then w
      else if len mod 2 ^ 64 <? Z.of_nat sizeof_ndL_ip6_msg_t
      then ndL_io_handler results buf w
      else
        let msg := buf in
        if negb (load16 msg off_ether_type =? ETHERTYPE_IPV6)
        then ndL_io_handler results buf w
        else if negb (load16 (ptr_add msg sizeof_ether_header) off_ip6_plen
                      =? (len - Z.of_nat sizeof_ndL_ip6_msg_t) mod 2 ^ 64)
        then ndL_io_handler results buf w
        else
          match ND_LL_SEARCH (first_iface w)
                  (fun iface => index iface =? ifindex mod 2 ^ 32) with
          | Some iface =>
              ndL_io_handler results buf
                (perform_all world do_handle_ns do_handle_na (ndL_handle_msg iface msg) w)
          | None => ndL_io_handler results buf w
          end
  end.
End Receive.

(** [sizeof(buf)] in the Linux [ndL_io_handler]. *)
Definition sizeof_buf : nat := 1024.

(** A datagram is no longer than the buffer it was received in. *)
Definition fits_buf (r : recv_result) : Prop :=
  match r with
  | recv_error => True
  | recv_frame _ data => (length data <= sizeof_buf)%nat
  end.

(** A datagram that is long enough for the two headers does not announce a
    Hop-by-Hop header. *)
Definition without_hopopts (r : recv_result) : Prop :=
  match r with
  | recv_error => True
  | recv_frame _ data =>
      (sizeof_ndL_ip6_msg_t <= length data)%nat ->
      load8 (ptr_add data sizeof_ether_header) off_ip6_nxt <> IPPROTO_HOPOPTS
  end.

(** The 94 bytes of the frame in [buffer_ns_hopopts]: a solicitation for
    [2001:db8::1] behind one Hop-by-Hop header. *)
Definition frame_ns_hopopts : mem := load buffer_ns_hopopts 94.

(** A receive buffer in which an earlier datagram has left, at offset 118,
    a solicitation for [2001:db8::3] with the source link-layer address
    [0a:0b:0c:0d:0e:0f]. *)
Definition buffer_stale : mem :=
  repeat Byte.x00 118
  ++ bytes [0x87; 0x00; 0xf9; 0xff; 0; 0; 0; 0;
            0x20; 0x01; 0x0d; 0xb8; 0; 0; 0; 0; 0; 0; 0; 0; 0; 0; 0; 0x03;
            0x01; 0x01; 0x0a; 0x0b; 0x0c; 0x0d; 0x0e; 0x0f]
  ++ repeat Byte.x00 (1024 - 150).

(** The frame of [frame_ns_hopopts] with the lowest bit of the checksum of
    its solicitation flipped. *)
Definition frame_ns_hopopts_bad_cksum : mem :=
  sample_headers 40 0 ++ bytes [58; 0; 1; 4; 0; 0; 0; 0] ++ sample_ns 0xb8 0x8c.

(** ** More fields of a frame that went out *)

Definition ether_shost (s : sent) : list byte :=
  load (ptr_add (frame s) off_ether_shost) ETHER_ADDR_LEN.

Definition ether_type (s : sent) : Z :=
  load16 (frame s) off_ether_type.

Definition icmp6_type (s : sent) : Z :=
  load8 (ptr_add (frame s) off_msg_nd) off_icmp6_type.

Definition icmp6_code (s : sent) : Z :=
  load8 (ptr_add (frame s) off_msg_nd) off_icmp6_code.

(** [nd_ns_reserved]; in an advertisement the same four bytes hold the
    flags. *)
Definition nd_ns_reserved (s : sent) : Z :=
  load32 (ptr_add (frame s) off_msg_nd) 4.

(** [nd_ns_target] or [nd_na_target]: the two messages have the same
    layout. *)
Definition nd_target (s : sent) : nd_addr_t :=
  load (ptr_add (frame s) (off_msg_nd + off_nd_ns_target)) sizeof_in6_addr.

(** The option header [opt] and the link-layer address [lladdr] behind it. *)
Definition nd_opt_type (s : sent) : Z := load8 (ptr_add (frame s) off_msg_opt) off_nd_opt_type.
Definition nd_opt_len (s : sent) : Z := load8 (ptr_add (frame s) off_msg_opt) off_nd_opt_len.
Definition nd_opt_lladdr (s : sent) : list byte :=
  load (ptr_add (frame s) off_msg_lladdr) ETHER_ADDR_LEN.

(** [eth0] while it has three sessions, the last two for the same target. *)
Definition eth0_sessions : nd_iface_t :=
  {| index := 2; name := "eth0"%string;
     lladdr := bytes [0x52; 0x54; 0x00; 0x12; 0x34; 0x56];
     refcount := 4; old_allmulti := -1; old_promisc := -1;
     proxy := Some 1%nat;
     sessions := [ {| session_id := 1; real_tgt := addr_2001_db8_2 |};
                   {| session_id := 2; real_tgt := addr_2001_db8_1 |};
                   {| session_id := 3; real_tgt := addr_2001_db8_1 |} ] |}.

(** ** The list of open interfaces *)

(** What [nd_iface_open] asks the system: [if_nametoindex] (0 when there is
    no such interface), [if_indextoname] ([None] for [NULL]) and, on Linux,
    [ioctl(SIOCGIFHWADDR)], which gives [ifr_hwaddr.sa_data] ([None] for a
    negative return). *)
Record os := {
  if_nametoindex : String.string -> Z;
  if_indextoname : Z -> option String.string;
  ioctl_SIOCGIFHWADDR : String.string -> option (list byte)
}.

(** The same system with another answer to [ioctl(SIOCGIFHWADDR)]. *)
Definition os_with_hwaddr (sys : os) (hwaddr : String.string -> option (list byte)) : os :=
  {| if_nametoindex := if_nametoindex sys;
     if_indextoname := if_indextoname sys;
     ioctl_SIOCGIFHWADDR := hwaddr |}.

(** Memory as [ND_ALLOC] hands it out: all zero. *)
Definition nd_iface_zero : nd_iface_t :=
  {| index := 0; name := ""%string; lladdr := repeat Byte.x00 6;
     refcount := 0; old_allmulti := 0; old_promisc := 0;
     proxy := None; sessions := [] |}.

(** The [nd_iface_t] objects of the daemon and the two lists that link them
    through [next].  A pointer to an object is its position in [heap]; a
    list is the sequence of pointers met when following [next] from its
    head. *)
Record registry := {
  heap : list nd_iface_t;
  ndL_first_iface : list nat;
  ndL_first_free_iface : list nat
}.

(** [*p]. *)
Definition deref (r : registry) (p : nat) : nd_iface_t := nth p (heap r) nd_iface_zero.

(** [*p = v] on the heap. *)
Fixpoint heap_store (h : list nd_iface_t) (p : nat) (v : nd_iface_t) : list nd_iface_t :=
  match h, p with
  | [], _ => []
  | _ :: h, O => v :: h
  | x :: h, S p => x :: heap_store h p v
  end.

(** Modelled from the spec: [ND_LL_PREPEND] is a macro of [ndppd.h]; it
    makes the object the new head of the list. *)
Definition ND_LL_PREPEND (l : list nat) (p : nat) : list nat := p :: l.

(** Modelled from the spec: [ND_LL_DELETE] is a macro of [ndppd.h]; it
    unlinks the object from the list. *)
Fixpoint ND_LL_DELETE (l : list nat) (p : nat) : list nat :=
  match l with
  | [] => []
  | q :: l => if Nat.eqb q p then l else q :: ND_LL_DELETE l p
  end.

(** The first statement of [nd_iface_open], on the arguments [name]
    ([None] for [NULL]) and [index]: the index and the name the function
    goes on with, or [None] where it returns [NULL].  With a name, a non-zero
    index has to be the index of that name, and the index is then read from
    the name; the name is in every case replaced by the one the system has
    for the index. *)
Definition nd_iface_resolve (sys : os) (name0 : option String.string) (index0 : Z)
  : option (Z * String.string) :=
  match name0 with
  | None =>
      if index0 =? 0 then None
      else option_map (pair index0) (if_indextoname sys index0)
  | Some n =>
      if negb (index0 =? 0) && negb (if_nametoindex sys n =? index0) then None
      else
        let index1 := if_nametoindex sys n in
        if index1 =? 0 then None
        else option_map (pair index1) (if_indextoname sys index1)
  end.

(** [nd_iface_open(name, index)] on Linux: the pointer returned, [None] for
    [NULL], and the lists afterwards. *)
Definition nd_iface_open (sys : os) (name0 : option String.string) (index0 : Z)
    (r : registry) : option nat * registry :=
  match nd_iface_resolve sys name0 index0 with
  | None => (None, r)
  | Some (index1, name1) =>
      match ND_LL_SEARCH (ndL_first_iface r)
              (fun iface => index (deref r iface) =? index1) with
      | Some iface =>
          let v := deref r iface in
          (Some iface,
           {| heap := heap_store (heap r) iface (set_refcount (refcount v + 1) v);
              ndL_first_iface := ndL_first_iface r;
              ndL_first_free_iface := ndL_first_free_iface r |})
      | None =>
          match ioctl_SIOCGIFHWADDR sys name1 with
          | None => (None, r)
          | Some sa_data =>
              let '(iface, h, free) :=
                match ndL_first_free_iface r with
                | iface :: _ =>
                    (iface, heap r, ND_LL_DELETE (ndL_first_free_iface r) iface)
                | [] => (length (heap r), heap r ++ [nd_iface_zero], [])
                end in
              let v := {| index := index1; name := name1;
                          lladdr := load sa_data 6;
                          refcount := 1; old_allmulti := -1; old_promisc := -1;
                          proxy := None; sessions := [] |} in
              (Some iface,
               {| heap := heap_store h iface v;
                  ndL_first_iface := ND_LL_PREPEND (ndL_first_iface r) iface;
                  ndL_first_free_iface := free |})
          end
      end
  end.

(** The kernel with all its interfaces: the flag word of each, by name, and
    the outcome of the ioctls still to come. *)
Record kernels := {
  flags_of : String.string -> Z;
  outcomes : list bool
}.

(** The kernel as the ioctls on the interface [n] see it. *)
Definition kernel_of (n : String.string) (ks : kernels) : kernel :=
  {| ifr_flags := flags_of ks n; ioctl_outcomes := outcomes ks |}.

(** And with what they left behind. *)
Definition kernel_into (n : String.string) (k : kernel) (ks : kernels) : kernels :=
  {| flags_of := fun m => if String.eqb m n then ifr_flags k else flags_of ks m;
     outcomes := ioctl_outcomes k |}.

(** [nd_iface_close(iface)] with the two lists: when the last reference
    goes the object moves from [ndL_first_iface] to the head of
    [ndL_first_free_iface]. *)
Definition nd_iface_close_linked (nd_iface_no_restore_flags : bool) (iface : nat)
    (r : registry) (ks : kernels) : registry * kernels :=
  let n := name (deref r iface) in
  let '(unlinked, v, k) :=
    nd_iface_close nd_iface_no_restore_flags (deref r iface) (kernel_of n ks) in
  let h := heap_store (heap r) iface v in
  if unlinked
  then ({| heap := h;
           ndL_first_iface := ND_LL_DELETE (ndL_first_iface r) iface;
           ndL_first_free_iface := ND_LL_PREPEND (ndL_first_free_iface r) iface |},
        kernel_into n k ks)
  else ({| heap := h;
           ndL_first_iface := ndL_first_iface r;
           ndL_first_free_iface := ndL_first_free_iface r |},
        kernel_into n k ks).

(** Modelled from the spec: [ND_LL_FOREACH_S] is a macro of [ndppd.h]; it
    visits the objects of the list as it stands at the start and allows the
    body to unlink the one it is at.  [nd_iface_cleanup()], up to the call
    of [nd_io_close]: every open interface is closed as if it had one
    reference left. *)
Definition nd_iface_cleanup (nd_iface_no_restore_flags : bool) (r : registry)
    (ks : kernels) : registry * kernels :=
  fold_left
    (fun (s : registry * kernels) iface =>
       let (r, ks) := s in
       let r := {| heap := heap_store (heap r) iface (set_refcount 1 (deref r iface));
                   ndL_first_iface := ndL_first_iface r;
                   ndL_first_free_iface := ndL_first_free_iface r |} in
       nd_iface_close_linked nd_iface_no_restore_flags iface r ks)
    (ndL_first_iface r) (r, ks).

(** The lists are sound: no object is linked twice, every pointer is
    allocated, no two open interfaces have the same index, and every open
    interface has a reference. *)
Definition registry_ok (r : registry) : Prop :=
  NoDup (ndL_first_iface r ++ ndL_first_free_iface r)
  /\ (forall p, In p (ndL_first_iface r ++ ndL_first_free_iface r) ->
        (p < length (heap r))%nat)
  /\ NoDup (map (fun p => index (deref r p)) (ndL_first_iface r))
  /\ (forall p, In p (ndL_first_iface r) -> 0 < refcount (deref r p)).

(** A system with the interfaces [eth0] (index 2) and [eth1] (index 3). *)
Definition sample_os : os :=
  {| if_nametoindex := fun n =>
       if String.eqb n "eth0" then 2 else if String.eqb n "eth1" then 3 else 0;
     if_indextoname := fun i =>
       if i =? 2 then Some "eth0"%string
       else if i =? 3 then Some "eth1"%string else None;
     ioctl_SIOCGIFHWADDR := fun n =>
       if String.eqb n "eth0" then Some (lladdr eth0 ++ repeat Byte.x00 8)
       else if String.eqb n "eth1" then Some (lladdr eth1 ++ repeat Byte.x00 8)
       else None |}.

(** The registry before the first [nd_iface_open]. *)
Definition registry_empty : registry :=
  {| heap := []; ndL_first_iface := []; ndL_first_free_iface := [] |}.

(** The registry after [nd_iface_open("eth0", 0)] and
    [nd_iface_open(NULL, 3)]. *)
Definition registry_two : registry :=
  snd (nd_iface_open sample_os None 3
         (snd (nd_iface_open sample_os (Some "eth0"%string) 0 registry_empty))).

(** A kernel in which every interface has the flags of a running Ethernet
    interface. *)
Definition sample_kernels : kernels :=
  {| flags_of := fun _ => sample_flags; outcomes := [] |}.

(** * Properties *)

(** ** Stores keep the length, bytes encode numbers *)

Lemma length_store (p : mem) (off : nat) (bs : list byte) :
  (off + length bs <= length p)%nat -> length (store p off bs) = length p.
Proof.
  intros H. unfold store.
  rewrite !length_app, length_firstn, length_skipn. lia.
Qed.

Lemma length_memcpy (dst : mem) (off : nat) (src : mem) (n : nat) :
  (off + n <= length dst)%nat -> length (memcpy dst off src n) = length dst.
Proof.
  intros H. unfold memcpy. apply length_store.
  unfold load. rewrite length_firstn. lia.
Qed.

Lemma length_store8 (p : mem) (off : nat) (v : Z) :
  (off + 1 <= length p)%nat -> length (store8 p off v) = length p.
Proof. intros H. apply length_store. assumption. Qed.

Lemma length_store16 (p : mem) (off : nat) (v : Z) :
  (off + 2 <= length p)%nat -> length (store16 p off v) = length p.
Proof. intros H. apply length_store. assumption. Qed.

Lemma length_store32 (p : mem) (off : nat) (v : Z) :
  (off + 4 <= length p)%nat -> length (store32 p off v) = length p.
Proof. intros H. apply length_store. assumption. Qed.

(** Push [length] through a tower of stores; the bounds are left as goals. *)
Ltac store_length :=
  repeat first [ rewrite length_store8 | rewrite length_store16
               | rewrite length_store32 | rewrite length_memcpy ].

Lemma unsigned_of_Z_small (v : Z) : 0 <= v < 256 -> byte.unsigned (byte.of_Z v) = v.
Proof.
  intros H. rewrite byte.unsigned_of_Z. unfold byte.wrap.
  apply Z.mod_small. lia.
Qed.

Lemma be16_value (v : Z) :
  0 <= v < 2 ^ 16 ->
  256 * byte.unsigned (byte.of_Z (Z.shiftr v 8)) + byte.unsigned (byte.of_Z v) = v.
Proof.
  intros H. rewrite !byte.unsigned_of_Z. unfold byte.wrap.
  rewrite Z.shiftr_div_pow2 by lia.
  change (2 ^ 8) with 256. change (2 ^ 16) with 65536 in H.
  rewrite (Z.mod_small (v / 256))
    by (split; [apply Z.div_pos | apply Z.div_lt_upper_bound]; lia).
  pose proof (Z.div_mod v 256). lia.
Qed.

Lemma ndL_calculate_icmp6_checksum_range (ip6h ih : mem) (n : Z) :
  0 <= ndL_calculate_icmp6_checksum ip6h ih n < 2 ^ 16.
Proof. unfold ndL_calculate_icmp6_checksum. apply Z.mod_pos_bound. lia. Qed.

(** Name the first [n] bytes of a list that is long enough. *)
Tactic Notation "explode" ident(l) "by" hyp(H) integer(n) :=
  do n (destruct l as [| ? l]; [ exfalso; simpl in H; lia | ]).

(** Name all the bytes of a list of known length. *)
Tactic Notation "explode_all" ident(l) "by" hyp(H) integer(n) :=
  do n (destruct l as [| ? l]; [ exfalso; simpl in H; lia | ]);
  destruct l; [ | exfalso; simpl in H; lia ].

(** Evaluate the sizes and offsets of the layout. *)
Ltac layout :=
  cbv [Nat.add Nat.mul
       ETHER_ADDR_LEN sizeof_ether_header sizeof_ip6_hdr sizeof_icmp6_hdr
       sizeof_nd_neighbor_solicit sizeof_nd_neighbor_advert sizeof_nd_opt_hdr
       sizeof_in6_addr sizeof_ndL_ip6_msg_t sizeof_nd_msg
       off_ether_dhost off_ether_shost off_ether_type
       off_ip6_flow off_ip6_plen off_ip6_nxt off_ip6_hops off_ip6_src off_ip6_dst
       off_ip6h_nxt off_ip6h_len off_icmp6_type off_icmp6_code off_icmp6_cksum
       off_nd_na_flags_reserved off_nd_ns_target off_nd_na_target
       off_nd_opt_type off_nd_opt_len
       off_msg_ip off_msg_nd off_msg_opt off_msg_lladdr].

(** Evaluate loads and stores at known offsets of a list whose cells are
    named, without touching the bytes or the arithmetic on them. *)
Ltac wire :=
  cbv [store store8 store16 store32 memcpy load ptr_add at_ptr firstn skipn app
       length Nat.add Nat.mul be16 be32 nth repeat map load8 load16 load32 bytes
       ETHER_ADDR_LEN sizeof_ether_header sizeof_ip6_hdr sizeof_icmp6_hdr
       sizeof_nd_neighbor_solicit sizeof_nd_neighbor_advert sizeof_nd_opt_hdr
       sizeof_in6_addr sizeof_ndL_ip6_msg_t sizeof_nd_msg
       off_ether_dhost off_ether_shost off_ether_type
       off_ip6_flow off_ip6_plen off_ip6_nxt off_ip6_hops off_ip6_src off_ip6_dst
       off_ip6h_nxt off_ip6h_len off_icmp6_type off_icmp6_code off_icmp6_cksum
       off_nd_na_flags_reserved off_nd_ns_target off_nd_na_target
       off_nd_opt_type off_nd_opt_len
       off_msg_ip off_msg_nd off_msg_opt off_msg_lladdr].

(** ** What [ndL_send_icmp6] puts in the headers *)

Lemma ndL_send_icmp6_frame (iface : nd_iface_t) (msg : mem) (size : Z) (hwaddr : mem) :
  size = Z.of_nat (length msg) ->
  62 <= size <= 65589 ->
  let F := frame (ndL_send_icmp6 iface msg size hwaddr) in
  let ip6h := ptr_add F sizeof_ether_header in
  let ih := ptr_add F sizeof_ndL_ip6_msg_t in
  length F = length msg
  /\ load32 ip6h off_ip6_flow = 0x60000000
  /\ load16 ip6h off_ip6_plen = size - 54
  /\ load8 ip6h off_ip6_hops = 255
  /\ load8 ip6h off_ip6_nxt = IPPROTO_ICMPV6
  /\ load16 ih off_icmp6_cksum = ndL_calculate_icmp6_checksum ip6h ih (size - 54).
Proof.
  intros Hsize Hrange F.
  unfold F, ndL_send_icmp6; cbn [frame].
  change (Z.of_nat sizeof_ndL_ip6_msg_t) with 54.
  rewrite (Z.mod_small (size - 54) (2 ^ 64)) by lia.
  rewrite (Z.mod_small (size - 54) (2 ^ 16)) by lia.
  set (m3 := memcpy (memcpy (store16 msg off_ether_type ETHERTYPE_IPV6) _ _ _) _ _ _).
  assert (Hlen : length m3 = length msg).
  { unfold m3. store_length; layout; lia. }
  assert (Hn : Z.to_nat size = length m3) by lia.
  rewrite Hn, <- Hlen.
  assert (Hplen : 0 <= size - 54 < 2 ^ 16) by lia.
  generalize dependent (size - 54). intros plen Hplen.
  assert (H62 : (62 <= length m3)%nat) by lia.
  clearbody m3. clear - H62 Hplen.
  match goal with
  | |- context [load ?M (length m3)] =>
      assert (HM : load M (length m3) = M)
        by (apply firstn_all2; store_length; cbn; lia)
  end.
  rewrite HM. clear HM.
  explode m3 by H62 62. clear H62.
  set (flow := Z.lor (Z.lor (Z.shiftl 6 28) (Z.shiftl 0 20)) 0).
  wire.
  set (ck := ndL_calculate_icmp6_checksum _ _ plen).
  cbn [length]. repeat apply conj.
  - reflexivity.
  - subst flow. vm_compute. reflexivity.
  - apply be16_value; assumption.
  - apply unsigned_of_Z_small; lia.
  - apply unsigned_of_Z_small; unfold IPPROTO_ICMPV6; lia.
  - rewrite be16_value by apply ndL_calculate_icmp6_checksum_range.
    subst ck. unfold ndL_calculate_icmp6_checksum. wire. reflexivity.
Qed.

(** C7.  Whatever the caller left in the IPv6 and ICMPv6 headers of [msg],
    the frame that [ndL_send_icmp6] sends has version 6, traffic class 0 and
    flow label 0 in [ip6_flow], the frame length minus the Ethernet and IPv6
    header sizes in [ip6_plen], 255 in [ip6_hops], ICMPv6 in [ip6_nxt], and
    the checksum of [ndL_calculate_icmp6_checksum] in [icmp6_cksum]. *)
Theorem ndL_send_icmp6_fills_headers
    (iface : nd_iface_t) (msg : mem) (size : Z) (hwaddr : mem) :
  size = Z.of_nat (length msg) ->
  62 <= size <= 65589 ->
  let F := frame (ndL_send_icmp6 iface msg size hwaddr) in
  let ip6h := ptr_add F sizeof_ether_header in
  let ih := ptr_add F sizeof_ndL_ip6_msg_t in
  Z.shiftr (load32 ip6h off_ip6_flow) 28 = 6
  /\ Z.land (Z.shiftr (load32 ip6h off_ip6_flow) 20) 0xff = 0
  /\ Z.land (load32 ip6h off_ip6_flow) 0xfffff = 0
  /\ load16 ip6h off_ip6_plen
     = Z.of_nat (length F) - Z.of_nat sizeof_ether_header - Z.of_nat sizeof_ip6_hdr
  /\ load8 ip6h off_ip6_hops = 255
  /\ load8 ip6h off_ip6_nxt = IPPROTO_ICMPV6
  /\ load16 ih off_icmp6_cksum
     = ndL_calculate_icmp6_checksum ip6h ih (Z.of_nat (length F) - 54).
Proof.
  intros Hsize Hrange F ip6h ih.
  destruct (ndL_send_icmp6_frame iface msg size hwaddr Hsize Hrange)
    as (Hlen & Hflow & Hplen & Hhops & Hnxt & Hck).
  fold F in Hlen, Hflow, Hplen, Hhops, Hnxt, Hck.
  fold ip6h in Hflow, Hplen, Hhops, Hnxt, Hck. fold ih in Hck.
  rewrite Hflow, Hplen, Hhops, Hnxt, Hck, Hlen, <- Hsize.
  repeat apply conj; try reflexivity.
  change (Z.of_nat sizeof_ether_header) with 14.
  change (Z.of_nat sizeof_ip6_hdr) with 40. lia.
Qed.

(** The hypotheses hold for a message of 86 bytes, the size of the local
    [msg] of [nd_iface_send_na] and [nd_iface_send_ns]. *)
Lemma ndL_send_icmp6_fills_headers_witness :
  86 = Z.of_nat (length frame_ns_bad_cksum)
  /\ 62 <= 86 <= 65589
  /\ let F := frame (ndL_send_icmp6 eth0 frame_ns_bad_cksum 86 lladdr_solicitor) in
     load8 (ptr_add F sizeof_ether_header) off_ip6_hops = 255.
Proof.
  split; [reflexivity | split; [lia | ]].
  intros F.
  refine (proj1 (proj2 (proj2 (proj2 (proj2
    (ndL_send_icmp6_fills_headers eth0 frame_ns_bad_cksum 86 lladdr_solicitor _ _)))))).
  - reflexivity.
  - lia.
Defined.

(** ** Frames that went out pass the receive-side comparison *)

Lemma ndL_handle_msg_sent (rx : nd_iface_t) (F : mem) (plen : Z) :
  8 <= plen < 2 ^ 16 ->
  load16 (ptr_add F sizeof_ether_header) off_ip6_plen = plen ->
  load8 (ptr_add F sizeof_ether_header) off_ip6_nxt = IPPROTO_ICMPV6 ->
  load16 (ptr_add F sizeof_ndL_ip6_msg_t) off_icmp6_cksum
  = ndL_calculate_icmp6_checksum (ptr_add F sizeof_ether_header)
      (ptr_add F sizeof_ndL_ip6_msg_t) plen ->
  icmp6_cksum_matches (ptr_add F sizeof_ether_header) (ptr_add F sizeof_ndL_ip6_msg_t) plen
  = true
  /\ ndL_handle_msg rx F
     = ndL_dispatch rx (ptr_add F sizeof_ether_header) (ptr_add F sizeof_ndL_ip6_msg_t) plen.
Proof.
  intros Hrange Hplen Hnxt Hck.
  assert (Hmatch : icmp6_cksum_matches (ptr_add F sizeof_ether_header)
                     (ptr_add F sizeof_ndL_ip6_msg_t) plen = true).
  { unfold icmp6_cksum_matches. rewrite Hck. apply Z.eqb_refl. }
  split; [exact Hmatch | ].
  unfold ndL_handle_msg, ndL_locate_icmp6, ndL_skip_headers. rewrite Hnxt, Hplen.
  change (IPPROTO_ICMPV6 =? IPPROTO_HOPOPTS) with false.
  change (negb (IPPROTO_ICMPV6 =? IPPROTO_ICMPV6)) with false.
  cbv iota.
  unfold ndL_icmp6_hdr.
  rewrite Z.sub_0_r.
  rewrite (Z.mod_small plen (2 ^ 64)) by lia.
  rewrite (Z.mod_small plen (2 ^ 16)) by lia.
  change (Z.of_nat sizeof_icmp6_hdr) with 8.
  destruct (Z.ltb_spec plen 8) as [Hlt | _]; [lia | ].
  change (sizeof_icmp6_hdr * Z.to_nat 0)%nat with 0%nat.
  change (ptr_add (ptr_add F sizeof_ndL_ip6_msg_t) 0) with (ptr_add F sizeof_ndL_ip6_msg_t).
  unfold ndL_validate. rewrite Hmatch. reflexivity.
Qed.

(** C4.  The checksum that [ndL_send_icmp6] stores in a frame is the one the
    receive side recomputes from that frame: fed back to [ndL_handle_msg] on
    any interface, the frame gets past the checksum comparison and reaches
    the dispatch on the ICMPv6 type. *)
Theorem ndL_send_icmp6_checksum_verifies
    (iface rx : nd_iface_t) (msg : mem) (size : Z) (hwaddr : mem) :
  size = Z.of_nat (length msg) ->
  62 <= size <= 65589 ->
  let F := frame (ndL_send_icmp6 iface msg size hwaddr) in
  let ip6h := ptr_add F sizeof_ether_header in
  let ih := ptr_add F sizeof_ndL_ip6_msg_t in
  load16 ih off_icmp6_cksum = ndL_calculate_icmp6_checksum ip6h ih (size - 54)
  /\ icmp6_cksum_matches ip6h ih (size - 54) = true
  /\ ndL_handle_msg rx F = ndL_dispatch rx ip6h ih (size - 54).
Proof.
  intros Hsize Hrange F ip6h ih.
  destruct (ndL_send_icmp6_frame iface msg size hwaddr Hsize Hrange)
    as (_ & _ & Hplen & _ & Hnxt & Hck).
  split; [exact Hck | ].
  apply ndL_handle_msg_sent; [lia | exact Hplen | exact Hnxt | exact Hck].
Qed.

Lemma ndL_send_icmp6_checksum_verifies_witness :
  86 = Z.of_nat (length frame_ns_bad_cksum)
  /\ 62 <= 86 <= 65589
  /\ let F := frame (ndL_send_icmp6 eth1 frame_ns_bad_cksum 86 lladdr_solicitor) in
     icmp6_cksum_matches (ptr_add F sizeof_ether_header) (ptr_add F sizeof_ndL_ip6_msg_t)
       (86 - 54) = true.
Proof.
  split; [reflexivity | split; [lia | ]].
  intros F.
  refine (proj1 (proj2
    (ndL_send_icmp6_checksum_verifies eth1 eth0 frame_ns_bad_cksum 86 lladdr_solicitor _ _))).
  - reflexivity.
  - lia.
Defined.

(** The local [msg] of [nd_iface_send_na] has 86 bytes whatever the
    arguments are, so every advertisement is covered. *)
Lemma nd_iface_send_na_checksum_verifies
    (iface rx : nd_iface_t) (dst : nd_addr_t) (dst_ll : mem) (tgt : nd_addr_t)
    (router : bool) :
  let F := frame (nd_iface_send_na iface dst dst_ll tgt router) in
  ndL_handle_msg rx F
  = ndL_dispatch rx (ptr_add F sizeof_ether_header) (ptr_add F sizeof_ndL_ip6_msg_t) 32.
Proof.
  intros F. unfold F, nd_iface_send_na.
  match goal with
  | |- context [ndL_send_icmp6 iface ?m ?s dst_ll] =>
      destruct (ndL_send_icmp6_frame iface m s dst_ll) as (_ & _ & Hplen & _ & Hnxt & Hck)
  end.
  - destruct (nd_addr_is_multicast dst), router;
      store_length; rewrite ?repeat_length; layout; lia.
  - unfold sizeof_nd_msg. lia.
  - apply ndL_handle_msg_sent; [lia | exact Hplen | exact Hnxt | exact Hck].
Qed.

Lemma length_ndL_get_local_addr (iface : nd_iface_t) (addr : mem) :
  (16 <= length addr)%nat -> length (ndL_get_local_addr iface addr) = length addr.
Proof.
  intros H. unfold ndL_get_local_addr. store_length; lia.
Qed.

Lemma length_at_ptr (p : mem) (off : nat) (f : mem -> mem) :
  length (f (ptr_add p off)) = length (ptr_add p off) ->
  length (at_ptr p off f) = length p.
Proof.
  intros H. unfold at_ptr. rewrite length_app, H.
  unfold load, ptr_add. rewrite <- length_app, firstn_skipn. reflexivity.
Qed.

(** Likewise for every solicitation of [nd_iface_send_ns]. *)
Lemma nd_iface_send_ns_checksum_verifies (iface rx : nd_iface_t) (tgt : nd_addr_t) :
  let F := frame (nd_iface_send_ns iface tgt) in
  ndL_handle_msg rx F
  = ndL_dispatch rx (ptr_add F sizeof_ether_header) (ptr_add F sizeof_ndL_ip6_msg_t) 32.
Proof.
  intros F. unfold F, nd_iface_send_ns.
  match goal with
  | |- context [ndL_send_icmp6 iface ?m ?s ?hw] =>
      destruct (ndL_send_icmp6_frame iface m s hw) as (_ & _ & Hplen & _ & Hnxt & Hck)
  end.
  - assert (Hsrc : forall m : mem, length m = 86%nat ->
              length (at_ptr m (off_msg_ip + off_ip6_src) (ndL_get_local_addr iface))
              = 86%nat).
    { intros m Hm. rewrite length_at_ptr; [exact Hm | ].
      apply length_ndL_get_local_addr.
      unfold ptr_add. rewrite length_skipn, Hm. layout. lia. }
    store_length; rewrite ?Hsrc; store_length;
      rewrite ?repeat_length; layout; lia.
  - unfold sizeof_nd_msg. lia.
  - apply ndL_handle_msg_sent; [lia | exact Hplen | exact Hnxt | exact Hck].
Qed.

(** ** Neighbor Advertisements: the flags *)

(** Unfold a sender down to the bytes it hands over. *)
Ltac sent_frame :=
  unfold ndL_send_icmp6; cbn [frame]; rewrite Nat2Z.id.

(** What the code does with the three flags: O is never set, S goes with a
    multicast destination, R with [router]. *)
Lemma nd_iface_send_na_flag_bits
    (iface : nd_iface_t) (dst : nd_addr_t) (dst_ll : mem) (tgt : nd_addr_t) (router : bool) :
  length (lladdr iface) = 6%nat ->
  length dst = 16%nat ->
  length tgt = 16%nat ->
  (6 <= length dst_ll)%nat ->
  let flags := nd_na_flags_reserved (nd_iface_send_na iface dst dst_ll tgt router) in
  flag_is_set flags ND_NA_FLAG_OVERRIDE = false
  /\ flag_is_set flags ND_NA_FLAG_SOLICITED = nd_addr_is_multicast dst
  /\ flag_is_set flags ND_NA_FLAG_ROUTER = router.
Proof.
  intros Hll Hdst Htgt Hdll.
  unfold nd_na_flags_reserved, nd_iface_send_na. sent_frame.
  destruct (nd_addr_is_multicast dst); destruct router;
    destruct (lladdr iface) as [| l0 ll]; try discriminate Hll;
    explode_all ll by Hll 5; explode_all dst by Hdst 16;
    explode_all tgt by Htgt 16; explode dst_ll by Hdll 6;
    wire; vm_compute; repeat split.
Qed.

(** C1 (amended).  In every Neighbor Advertisement that [nd_iface_send_na]
    emits the O (override, 0x20) bit of [flags_reserved] is clear, and the R
    (router, 0x80) bit is set exactly when the [router] argument is true. *)
Theorem nd_iface_send_na_flags
    (iface : nd_iface_t) (dst : nd_addr_t) (dst_ll : mem) (tgt : nd_addr_t) (router : bool) :
  length (lladdr iface) = 6%nat ->
  length dst = 16%nat ->
  length tgt = 16%nat ->
  (6 <= length dst_ll)%nat ->
  let flags := nd_na_flags_reserved (nd_iface_send_na iface dst dst_ll tgt router) in
  flag_is_set flags ND_NA_FLAG_OVERRIDE = false
  /\ flag_is_set flags ND_NA_FLAG_ROUTER = router.
Proof.
  intros Hll Hdst Htgt Hdll flags.
  destruct (nd_iface_send_na_flag_bits iface dst dst_ll tgt router Hll Hdst Htgt Hdll)
    as (HO & _ & HR).
  split; assumption.
Qed.

Lemma nd_iface_send_na_flags_witness :
  length (lladdr eth0) = 6%nat
  /\ length addr_2001_db8_2 = 16%nat
  /\ length addr_2001_db8_1 = 16%nat
  /\ (6 <= length lladdr_solicitor)%nat
  /\ flag_is_set
       (nd_na_flags_reserved
          (nd_iface_send_na eth0 addr_2001_db8_2 lladdr_solicitor addr_2001_db8_1 true))
       ND_NA_FLAG_ROUTER = true.
Proof.
  repeat (split; [reflexivity || (simpl; lia) | ]).
  refine (proj2 (nd_iface_send_na_flags eth0 addr_2001_db8_2 lladdr_solicitor
                   addr_2001_db8_1 true _ _ _ _)).
  - reflexivity.
  - reflexivity.
  - reflexivity.
  - simpl. lia.
Defined.

(** The answer to the solicitation of [2001:db8::2] for [2001:db8::1], sent
    unicast and without the router flag, carries no flag at all: neither O
    nor S is set. *)
Lemma nd_iface_send_na_flags_unicast :
  ~ na_flags_solicited_override eth0 addr_2001_db8_2 lladdr_solicitor addr_2001_db8_1 false.
Proof.
  unfold na_flags_solicited_override. intros (HO & _).
  vm_compute in HO. discriminate HO.
Qed.

(** ** Neighbor Solicitations: destinations and source *)

(** Where [nd_iface_send_ns] sends: the IPv6 destination is the
    solicited-node address of the target, the Ethernet destination is
    [33:33] followed by the last four bytes of the target itself. *)
Lemma nd_iface_send_ns_destinations (iface : nd_iface_t) (tgt : nd_addr_t) :
  length (lladdr iface) = 6%nat ->
  length tgt = 16%nat ->
  ip6_dst (nd_iface_send_ns iface tgt) = solicited_node_addr tgt
  /\ ether_dhost (nd_iface_send_ns iface tgt)
     = [byte.of_Z 0x33; byte.of_Z 0x33; nth 12 tgt Byte.x00;
        nth 13 tgt Byte.x00; nth 14 tgt Byte.x00; nth 15 tgt Byte.x00].
Proof.
  intros Hll Htgt.
  unfold ip6_dst, ether_dhost, solicited_node_addr, nd_iface_send_ns, ndL_get_local_addr.
  sent_frame.
  destruct (lladdr iface) as [| l0 ll]; try discriminate Hll.
  explode_all ll by Hll 5. explode_all tgt by Htgt 16.
  wire.
  rewrite !byte.of_Z_unsigned. split; reflexivity.
Qed.

(** C2.  For the target [2001:db8::1] the solicitation goes to the IPv6
    address [ff02::1:ff00:1], but to the Ethernet address [33:33:00:00:00:01]
    and not to [33:33:ff:00:00:01]. *)
Theorem nd_iface_send_ns_ether_dhost_2001_db8_1 :
  ip6_dst (nd_iface_send_ns eth1 addr_2001_db8_1) = solicited_node_addr addr_2001_db8_1
  /\ ether_dhost (nd_iface_send_ns eth1 addr_2001_db8_1)
     = bytes [0x33; 0x33; 0x00; 0x00; 0x00; 0x01]
  /\ solicited_node_lladdr addr_2001_db8_1 = bytes [0x33; 0x33; 0xff; 0x00; 0x00; 0x01]
  /\ ether_dhost (nd_iface_send_ns eth1 addr_2001_db8_1)
     <> solicited_node_lladdr addr_2001_db8_1.
Proof.
  repeat apply conj; try (vm_compute; reflexivity).
  vm_compute. intros H. discriminate H.
Qed.

(** C8.  On an interface with link-layer address [m0:m1:m2:m3:m4:m5] the
    IPv6 source of a solicitation from [nd_iface_send_ns] is the modified
    EUI-64 link-local address: [fe80], six zero bytes, then
    [m0 xor 0x02], [m1], [m2], [ff], [fe], [m3], [m4], [m5]. *)
Theorem nd_iface_send_ns_source
    (iface : nd_iface_t) (tgt : nd_addr_t) (m0 m1 m2 m3 m4 m5 : byte) :
  lladdr iface = [m0; m1; m2; m3; m4; m5] ->
  length tgt = 16%nat ->
  ip6_src (nd_iface_send_ns iface tgt)
  = [byte.of_Z 0xfe; byte.of_Z 0x80;
     Byte.x00; Byte.x00; Byte.x00; Byte.x00; Byte.x00; Byte.x00;
     byte.of_Z (Z.lxor (byte.unsigned m0) 0x02); m1; m2;
     byte.of_Z 0xff; byte.of_Z 0xfe; m3; m4; m5].
Proof.
  intros Hll Htgt.
  unfold ip6_src, nd_iface_send_ns, ndL_get_local_addr. sent_frame. rewrite Hll.
  explode_all tgt by Htgt 16.
  wire.
  rewrite !byte.of_Z_unsigned. reflexivity.
Qed.

Lemma nd_iface_send_ns_source_witness :
  lladdr eth1 = [Byte.x52; Byte.x54; Byte.x00; Byte.x12; Byte.x34; Byte.x57]
  /\ length addr_2001_db8_1 = 16%nat
  /\ ip6_src (nd_iface_send_ns eth1 addr_2001_db8_1)
     = [byte.of_Z 0xfe; byte.of_Z 0x80;
        Byte.x00; Byte.x00; Byte.x00; Byte.x00; Byte.x00; Byte.x00;
        byte.of_Z (Z.lxor (byte.unsigned Byte.x52) 0x02); Byte.x54; Byte.x00;
        byte.of_Z 0xff; byte.of_Z 0xfe; Byte.x12; Byte.x34; Byte.x57].
Proof.
  split; [reflexivity | split; [reflexivity | ]].
  apply (nd_iface_send_ns_source eth1 addr_2001_db8_1
           Byte.x52 Byte.x54 Byte.x00 Byte.x12 Byte.x34 Byte.x57).
  - reflexivity.
  - reflexivity.
Defined.

(** ** The receive path: the loop over Hop-by-Hop headers ends *)

Lemma load8_range (p : mem) (off : nat) : 0 <= load8 p off < 256.
Proof. unfold load8. apply byte.unsigned_range. Qed.

Lemma load16_range (p : mem) (off : nat) : 0 <= load16 p off < 2 ^ 16.
Proof.
  unfold load16.
  pose proof (load8_range p off). pose proof (load8_range p (off + 1)). lia.
Qed.

(** One round of the loop, with the [size_t] and [unsigned] wrap-around
    resolved for an [i] that has not run past [plen]. *)
Lemma ndL_skip_hopopts_step (fuel : nat) (payload : mem) (plen i : Z) :
  0 <= i <= plen -> plen < 2 ^ 16 ->
  let hbh := ptr_add payload (Z.to_nat i) in
  let next := i + 8 + 8 * load8 hbh off_ip6h_len in
  ndL_skip_hopopts (S fuel) payload plen i
  = if (plen - i <? 8) || (plen <? next) then Some hbh_return
    else if load8 hbh off_ip6h_nxt =? IPPROTO_ICMPV6 then Some (hbh_break next)
    else if negb (load8 hbh off_ip6h_nxt =? IPPROTO_HOPOPTS) then Some hbh_return
    else ndL_skip_hopopts fuel payload plen next.
Proof.
  intros Hi Hplen hbh next. cbn [ndL_skip_hopopts]. fold hbh.
  pose proof (load8_range hbh off_ip6h_len) as Hlen.
  rewrite (Z.mod_small (plen - i)) by lia.
  rewrite (Z.mod_small (8 + load8 hbh off_ip6h_len * 8)) by lia.
  replace (plen - i <? 8 + load8 hbh off_ip6h_len * 8) with (plen <? next)
    by (unfold next; destruct (Z.ltb_spec plen (i + 8 + 8 * load8 hbh off_ip6h_len));
        destruct (Z.ltb_spec (plen - i) (8 + load8 hbh off_ip6h_len * 8)); lia).
  destruct ((plen - i <? 8) || (plen <? next)) eqn:Hdrop; [reflexivity | ].
  apply orb_false_elim in Hdrop. destruct Hdrop as [_ Hnext].
  apply Z.ltb_ge in Hnext.
  rewrite (Z.mod_small (i + (8 + 8 * load8 hbh off_ip6h_len))) by (unfold next in Hnext; lia).
  replace (i + (8 + 8 * load8 hbh off_ip6h_len)) with next by (unfold next; lia).
  reflexivity.
Qed.

(** The loop never runs out of fuel when it is given one round for every
    eight bytes of payload that are left. *)
Lemma ndL_skip_hopopts_fuel (fuel : nat) (payload : mem) (plen i : Z) :
  0 <= i <= plen -> plen < 2 ^ 16 ->
  plen - i < 8 * Z.of_nat fuel ->
  ndL_skip_hopopts fuel payload plen i <> None.
Proof.
  revert i. induction fuel as [| fuel IH]; intros i Hi Hplen Hfuel.
  - lia.
  - rewrite ndL_skip_hopopts_step by assumption.
    set (hbh := ptr_add payload (Z.to_nat i)).
    set (next := i + 8 + 8 * load8 hbh off_ip6h_len).
    pose proof (load8_range hbh off_ip6h_len) as Hlen.
    destruct ((plen - i <? 8) || (plen <? next)) eqn:Hdrop; [discriminate | ].
    apply orb_false_elim in Hdrop. destruct Hdrop as [_ Hnext].
    apply Z.ltb_ge in Hnext.
    destruct (load8 hbh off_ip6h_nxt =? IPPROTO_ICMPV6); [discriminate | ].
    destruct (negb (load8 hbh off_ip6h_nxt =? IPPROTO_HOPOPTS)); [discriminate | ].
    apply IH; unfold next in *; lia.
Qed.

(** Where the loop breaks: past at least one header, and inside the
    payload. *)
Lemma ndL_skip_hopopts_break (fuel : nat) (payload : mem) (plen i j : Z) :
  0 <= i <= plen -> plen < 2 ^ 16 ->
  ndL_skip_hopopts fuel payload plen i = Some (hbh_break j) ->
  i + 8 <= j <= plen.
Proof.
  revert i. induction fuel as [| fuel IH]; intros i Hi Hplen Hrun.
  - discriminate Hrun.
  - rewrite ndL_skip_hopopts_step in Hrun by assumption.
    set (hbh := ptr_add payload (Z.to_nat i)) in Hrun.
    set (next := i + 8 + 8 * load8 hbh off_ip6h_len) in Hrun.
    pose proof (load8_range hbh off_ip6h_len) as Hlen.
    destruct ((plen - i <? 8) || (plen <? next)) eqn:Hdrop; [discriminate | ].
    apply orb_false_elim in Hdrop. destruct Hdrop as [_ Hnext].
    apply Z.ltb_ge in Hnext.
    destruct (load8 hbh off_ip6h_nxt =? IPPROTO_ICMPV6).
    + injection Hrun as <-. unfold next in *. lia.
    + destruct (negb (load8 hbh off_ip6h_nxt =? IPPROTO_HOPOPTS)); [discriminate | ].
      apply IH in Hrun; unfold next in *; lia.
Qed.

(** [ndL_handle_msg] gives the loop enough fuel: the [None] branch of
    [ndL_skip_headers] that stands for exhausted fuel is never taken. *)
Lemma ndL_skip_headers_fuel (msg : mem) :
  let plen := load16 (ptr_add msg sizeof_ether_header) off_ip6_plen in
  ndL_skip_hopopts (S (Z.to_nat plen)) (ptr_add msg sizeof_ndL_ip6_msg_t) plen 0 <> None.
Proof.
  intros plen.
  pose proof (load16_range (ptr_add msg sizeof_ether_header) off_ip6_plen) as Hplen.
  fold plen in Hplen.
  apply ndL_skip_hopopts_fuel; lia.
Qed.

(** The index the search for the ICMPv6 header ends with lies inside the
    payload. *)
Lemma ndL_skip_headers_range (msg : mem) (i : Z) :
  ndL_skip_headers msg = Some i ->
  0 <= i <= load16 (ptr_add msg sizeof_ether_header) off_ip6_plen.
Proof.
  unfold ndL_skip_headers.
  set (plen := load16 (ptr_add msg sizeof_ether_header) off_ip6_plen).
  pose proof (load16_range (ptr_add msg sizeof_ether_header) off_ip6_plen) as Hplen.
  fold plen in Hplen.
  destruct (load8 _ off_ip6_nxt =? IPPROTO_HOPOPTS).
  - destruct (ndL_skip_hopopts _ _ plen 0) as [[| j] | ] eqn:Hrun; try discriminate.
    intros H. injection H as <-.
    apply ndL_skip_hopopts_break in Hrun; lia.
  - destruct (negb _); [discriminate | ].
    intros H. injection H as <-. lia.
Qed.

(** ** The receive path: what is dropped *)

(** C3.  A frame whose checksum does not verify is not always dropped.
    The receive buffer holds a frame with one Hop-by-Hop header of eight
    bytes in front of a solicitation whose checksum has one bit flipped:
    the checksum of the frame's ICMPv6 header, eight bytes behind the IPv6
    header, matches neither what [ndL_calculate_icmp6_checksum] recomputes
    nor the check of RFC 1071, and handled at that place the frame is
    dropped.  [ndL_handle_msg] however takes the header from byte 64 behind
    the IPv6 header, beyond the frame, where an earlier datagram has left a
    solicitation for [2001:db8::3] whose checksum fits the addresses and
    the length of this frame, and hands that to the proxy.  The buffer gets
    into this state in [ndL_io_handler] itself, which drops the earlier
    datagram (it is not IPv6) but does not clear the buffer. *)
Theorem ndL_handle_msg_bad_checksum_hopopts :
  let msg := store buffer_stale 0 frame_ns_hopopts_bad_cksum in
  let ip6h := ptr_add msg sizeof_ether_header in
  let stale :=
    nd_proxy_handle_ns 1%nat addr_2001_db8_2 (solicited_node_addr addr_2001_db8_1)
      (bytes [0x20; 0x01; 0x0d; 0xb8; 0; 0; 0; 0; 0; 0; 0; 0; 0; 0; 0; 0x03])
      (Some (bytes [0x0a; 0x0b; 0x0c; 0x0d; 0x0e; 0x0f])) in
  let log := fun c (w : list call) => w ++ [c] in
  let handle_ns := fun p src dst tgt ll => log (nd_proxy_handle_ns p src dst tgt ll) in
  let handle_na := fun s => log (nd_session_handle_na s) in
  icmp6_cksum_fails msg
  /\ ndL_skip_headers msg = Some 8
  /\ icmp6_cksum_matches ip6h (icmp6_hdr_at_byte_offset msg 8) 32 = false
  /\ ~ icmp6_checksum_verifies ip6h (icmp6_hdr_at_byte_offset msg 8) 32
  /\ handle_msg_at_byte_offset eth0 msg = []
  /\ ndL_locate_icmp6 msg = Some (ptr_add msg (sizeof_ndL_ip6_msg_t + 64), 32)
  /\ ndL_handle_msg eth0 msg = [stale]
  /\ ndL_io_handler (list call) handle_ns handle_na (fun _ => [eth0])
       [recv_frame 2 (load buffer_stale 150); recv_frame 2 frame_ns_hopopts_bad_cksum]
       (repeat Byte.x00 1024) []
     = [stale].
Proof.
  intros msg ip6h stale log handle_ns handle_na.
  assert (Hskip : ndL_skip_headers msg = Some 8) by (vm_compute; reflexivity).
  assert (Hbad : icmp6_cksum_matches ip6h (icmp6_hdr_at_byte_offset msg 8) 32 = false)
    by (vm_compute; reflexivity).
  refine (conj _ (conj Hskip (conj Hbad (conj _ (conj _ (conj _ (conj _ _))))))).
  - exists 8. split; [exact Hskip | exact Hbad].
  - unfold icmp6_checksum_verifies. vm_compute. discriminate.
  - vm_compute. reflexivity.
  - vm_compute. reflexivity.
  - vm_compute. reflexivity.
  - vm_compute. reflexivity.
Qed.

(** Without a Hop-by-Hop header and with the checksum intact the
    solicitation reaches the proxy. *)
Lemma ndL_handle_msg_good_checksum :
  ndL_handle_msg eth0 frame_ns
  = [nd_proxy_handle_ns 1%nat addr_2001_db8_2 (solicited_node_addr addr_2001_db8_1)
       addr_2001_db8_1 (Some lladdr_solicitor)].
Proof. vm_compute. reflexivity. Qed.

(** A frame without extension headers has its ICMPv6 header where
    [ndL_handle_msg] looks for it, right behind the IPv6 header: when the
    checksum recomputed for that header is not the one it carries, the frame
    is dropped. *)
Lemma ndL_handle_msg_bad_checksum_icmp6 (iface : nd_iface_t) (msg : mem) :
  let ip6h := ptr_add msg sizeof_ether_header in
  load8 ip6h off_ip6_nxt = IPPROTO_ICMPV6 ->
  icmp6_cksum_matches ip6h (ptr_add msg sizeof_ndL_ip6_msg_t) (load16 ip6h off_ip6_plen)
  = false ->
  ndL_handle_msg iface msg = [].
Proof.
  intros ip6h Hnxt Hbad.
  unfold ndL_handle_msg, ndL_locate_icmp6, ndL_skip_headers. fold ip6h.
  rewrite Hnxt.
  change (IPPROTO_ICMPV6 =? IPPROTO_HOPOPTS) with false.
  change (negb (IPPROTO_ICMPV6 =? IPPROTO_ICMPV6)) with false.
  cbv iota. rewrite Z.sub_0_r.
  pose proof (load16_range ip6h off_ip6_plen) as Hplen.
  rewrite (Z.mod_small (load16 ip6h off_ip6_plen) (2 ^ 64)) by lia.
  rewrite (Z.mod_small (load16 ip6h off_ip6_plen) (2 ^ 16)) by lia.
  destruct (_ <? _); [reflexivity | ].
  unfold ndL_icmp6_hdr.
  change (sizeof_icmp6_hdr * Z.to_nat 0)%nat with 0%nat.
  change (ptr_add (ptr_add msg sizeof_ndL_ip6_msg_t) 0) with (ptr_add msg sizeof_ndL_ip6_msg_t).
  unfold ndL_validate. rewrite Hbad. reflexivity.
Qed.

(** [ndL_handle_na] calls nothing but [nd_session_handle_na]. *)
Lemma ndL_handle_na_calls (iface : nd_iface_t) (ih : mem) (len : Z) (c : call) :
  In c (ndL_handle_na iface ih len) -> exists s, c = nd_session_handle_na s.
Proof.
  unfold ndL_handle_na.
  destruct (len <? _); [intros [] | ].
  destruct (ND_LL_SEARCH _ _) as [s | ]; [ | intros []].
  intros [<- | []]. exists s. reflexivity.
Qed.

(** C10.  On an interface without a bound proxy [ndL_handle_ns] returns at
    once, whatever the solicitation looks like: it makes no call, so no
    session is created or refreshed and nothing is sent; and no frame that
    [ndL_handle_msg] gets on such an interface leads to a call of
    [nd_proxy_handle_ns]. *)
Theorem ndL_handle_ns_without_proxy (iface : nd_iface_t) :
  proxy iface = None ->
  (forall ip6h ih len, ndL_handle_ns iface ip6h ih len = [])
  /\ (forall ip6h ih len (world : Type) do_handle_ns do_handle_na (w : world),
        perform_all world do_handle_ns do_handle_na (ndL_handle_ns iface ip6h ih len) w = w)
  /\ (forall msg p src dst tgt src_ll,
        ~ In (nd_proxy_handle_ns p src dst tgt src_ll) (ndL_handle_msg iface msg)).
Proof.
  intros Hnone.
  assert (Hns : forall ip6h ih len, ndL_handle_ns iface ip6h ih len = []).
  { intros ip6h ih len. unfold ndL_handle_ns. rewrite Hnone. reflexivity. }
  split; [exact Hns | split].
  - intros ip6h ih len world do_handle_ns do_handle_na w. rewrite Hns. reflexivity.
  - intros msg p src dst tgt src_ll.
    unfold ndL_handle_msg.
    destruct (ndL_locate_icmp6 msg) as [[ih ilen] | ]; [ | intros []].
    unfold ndL_validate, ndL_dispatch.
    destruct (negb _); [intros [] | ].
    destruct (load8 ih off_icmp6_type =? ND_NEIGHBOR_SOLICIT).
    + rewrite Hns. intros [].
    + destruct (load8 ih off_icmp6_type =? ND_NEIGHBOR_ADVERT); [ | intros []].
      intros Hin. apply ndL_handle_na_calls in Hin. destruct Hin as [s Hs].
      discriminate Hs.
Qed.

(** [eth1] has no proxy; the well-formed solicitation is ignored there. *)
Lemma ndL_handle_ns_without_proxy_witness :
  proxy eth1 = None
  /\ ndL_handle_ns eth1 (ptr_add frame_ns sizeof_ether_header)
       (ptr_add frame_ns sizeof_ndL_ip6_msg_t) 32 = [].
Proof.
  split; [reflexivity | ].
  apply (proj1 (ndL_handle_ns_without_proxy eth1 eq_refl)).
Defined.

(** ** Neighbor Solicitations: the source link-layer option *)

(** C5 (amended).  An NS from a specified source is handed to the proxy only
    if at least eight bytes follow the NS body and they begin with an option
    header of type 1 (source link-layer address) and length 1; on an
    interface with a proxy every such NS is handed on, with the six bytes
    behind that option header as [src_ll], whatever follows the first
    option.  An NS from the unspecified source is only ever handed on with
    [src_ll = NULL]. *)
Theorem ndL_handle_ns_source_lladdr (iface : nd_iface_t) (ip6h ih : mem) (len : Z) :
  0 <= len < 2 ^ 64 ->
  let src := load (ptr_add ip6h off_ip6_src) sizeof_in6_addr in
  let dst := load (ptr_add ip6h off_ip6_dst) sizeof_in6_addr in
  let tgt := load (ptr_add ih off_nd_ns_target) sizeof_in6_addr in
  let opt := ptr_add ih sizeof_nd_neighbor_solicit in
  (nd_addr_is_unspecified src = false ->
   ndL_handle_ns iface ip6h ih len <> [] ->
   Z.of_nat sizeof_nd_neighbor_solicit + 8 <= len
   /\ load8 opt off_nd_opt_type = ND_OPT_SOURCE_LINKADDR
   /\ load8 opt off_nd_opt_len = 1)
  /\ (forall pr,
        proxy iface = Some pr ->
        nd_addr_is_unspecified src = false ->
        Z.of_nat sizeof_nd_neighbor_solicit + 8 <= len ->
        load8 opt off_nd_opt_type = ND_OPT_SOURCE_LINKADDR ->
        load8 opt off_nd_opt_len = 1 ->
        ndL_handle_ns iface ip6h ih len
        = [nd_proxy_handle_ns pr src dst tgt (Some (load (ptr_add opt 2) ETHER_ADDR_LEN))])
  /\ (nd_addr_is_unspecified src = true ->
      forall c, In c (ndL_handle_ns iface ip6h ih len) ->
                exists pr, c = nd_proxy_handle_ns pr src dst tgt None).
Proof.
  intros Hlen src dst tgt opt.
  change (Z.of_nat sizeof_nd_neighbor_solicit) with 24.
  repeat apply conj.
  - intros Hsrc. unfold ndL_handle_ns. fold src dst tgt opt.
    change (Z.of_nat sizeof_nd_neighbor_solicit) with 24.
    destruct (proxy iface) as [pr | ]; [ | intros H; contradiction H; reflexivity].
    destruct (Z.ltb_spec len 24) as [Hshort | Hns];
      [intros H; contradiction H; reflexivity | ].
    rewrite Hsrc. cbn [negb].
    rewrite (Z.mod_small (len - 24)) by lia.
    destruct (Z.ltb_spec (len - 24) 8) as [Hnoopt | Hopt];
      [intros H; contradiction H; reflexivity | ].
    destruct (Z.eqb_spec (load8 opt off_nd_opt_len) 1) as [Hol | Hol];
      destruct (Z.eqb_spec (load8 opt off_nd_opt_type) ND_OPT_SOURCE_LINKADDR) as [Hot | Hot];
      cbn [negb orb]; intros H; try (contradiction H; reflexivity).
    repeat split; [lia | exact Hot | exact Hol].
  - intros pr Hpr Hsrc Hopt Hot Hol. unfold ndL_handle_ns. fold src dst tgt opt.
    change (Z.of_nat sizeof_nd_neighbor_solicit) with 24.
    rewrite Hpr, Hsrc, Hot, Hol. cbn [negb].
    rewrite (Z.mod_small (len - 24)) by lia.
    destruct (Z.ltb_spec len 24) as [Hshort | _]; [lia | ].
    destruct (Z.ltb_spec (len - 24) 8) as [Hnoopt | _]; [lia | ].
    reflexivity.
  - intros Hsrc c. unfold ndL_handle_ns. fold src dst tgt opt.
    destruct (proxy iface) as [pr | ]; [ | intros []].
    destruct (len <? _); [intros [] | ].
    rewrite Hsrc. cbn [negb].
    intros [<- | []]. exists pr. reflexivity.
Qed.

(** The solicitation of [frame_ns_two_options] is from a specified source
    and is forty bytes long, sixteen of them options. *)
Lemma ndL_handle_ns_source_lladdr_witness :
  0 <= 40 < 2 ^ 64
  /\ ndL_handle_ns eth0 (ptr_add frame_ns_two_options sizeof_ether_header)
       (ptr_add frame_ns_two_options sizeof_ndL_ip6_msg_t) 40
     = [nd_proxy_handle_ns 1%nat addr_2001_db8_2 (solicited_node_addr addr_2001_db8_1)
          addr_2001_db8_1 (Some lladdr_solicitor)].
Proof.
  split; [lia | ].
  assert (Hlen : 0 <= 40 < 2 ^ 64) by lia.
  rewrite (proj1 (proj2 (ndL_handle_ns_source_lladdr eth0
             (ptr_add frame_ns_two_options sizeof_ether_header)
             (ptr_add frame_ns_two_options sizeof_ndL_ip6_msg_t) 40 Hlen))
           1%nat).
  - vm_compute. reflexivity.
  - reflexivity.
  - vm_compute. reflexivity.
  - change (Z.of_nat sizeof_nd_neighbor_solicit) with 24. lia.
  - vm_compute. reflexivity.
  - vm_compute. reflexivity.
Defined.

(** The same solicitation reaches the proxy although its options are not
    exactly one option of eight bytes: a nonce follows the source link-layer
    address. *)
Lemma ndL_handle_ns_two_options :
  ~ ns_exactly_one_source_lladdr eth0 (ptr_add frame_ns_two_options sizeof_ether_header)
      (ptr_add frame_ns_two_options sizeof_ndL_ip6_msg_t) 40.
Proof.
  unfold ns_exactly_one_source_lladdr. intros H.
  assert (Hsrc : nd_addr_is_unspecified
                   (load (ptr_add (ptr_add frame_ns_two_options sizeof_ether_header)
                            off_ip6_src) sizeof_in6_addr) = false)
    by (vm_compute; reflexivity).
  assert (Hcall : ndL_handle_ns eth0 (ptr_add frame_ns_two_options sizeof_ether_header)
                    (ptr_add frame_ns_two_options sizeof_ndL_ip6_msg_t) 40 <> [])
    by (vm_compute; discriminate).
  destruct (H Hsrc Hcall) as (Hlen & _).
  vm_compute in Hlen. discriminate Hlen.
Qed.

(** ** The receive path: frames with Hop-by-Hop headers *)

(** Every [return] inside the loop drops the frame: an option header that
    does not fit in what is left of [ip6_plen], or a next header that is
    neither Hop-by-Hop nor ICMPv6. *)
Lemma ndL_handle_msg_hopopts_malformed (iface : nd_iface_t) (msg : mem) :
  let ip6h := ptr_add msg sizeof_ether_header in
  let plen := load16 ip6h off_ip6_plen in
  load8 ip6h off_ip6_nxt = IPPROTO_HOPOPTS ->
  ndL_skip_hopopts (S (Z.to_nat plen)) (ptr_add msg sizeof_ndL_ip6_msg_t) plen 0
  = Some hbh_return ->
  ndL_handle_msg iface msg = [].
Proof.
  intros ip6h plen Hnxt Hret.
  unfold ndL_handle_msg, ndL_locate_icmp6, ndL_skip_headers.
  fold ip6h. fold plen. rewrite Hnxt, Hret. reflexivity.
Qed.

(** A frame whose first Hop-by-Hop header does not fit, or names a next
    header other than Hop-by-Hop and ICMPv6, is dropped. *)
Lemma ndL_handle_msg_hopopts_first (iface : nd_iface_t) (msg : mem) :
  let ip6h := ptr_add msg sizeof_ether_header in
  let hbh := ptr_add msg sizeof_ndL_ip6_msg_t in
  let plen := load16 ip6h off_ip6_plen in
  load8 ip6h off_ip6_nxt = IPPROTO_HOPOPTS ->
  plen < 8 + 8 * load8 hbh off_ip6h_len
  \/ (load8 hbh off_ip6h_nxt <> IPPROTO_ICMPV6 /\ load8 hbh off_ip6h_nxt <> IPPROTO_HOPOPTS) ->
  ndL_handle_msg iface msg = [].
Proof.
  intros ip6h hbh plen Hnxt Hbad.
  apply ndL_handle_msg_hopopts_malformed; [exact Hnxt | ].
  fold ip6h. fold plen.
  pose proof (load16_range ip6h off_ip6_plen) as Hplen. fold plen in Hplen.
  rewrite ndL_skip_hopopts_step by lia.
  change (ptr_add (ptr_add msg sizeof_ndL_ip6_msg_t) (Z.to_nat 0)) with hbh.
  pose proof (load8_range hbh off_ip6h_len) as Hlen.
  destruct (Z.ltb_spec (plen - 0) 8) as [Hshort | Hroom]; [reflexivity | ].
  destruct (Z.ltb_spec plen (0 + 8 + 8 * load8 hbh off_ip6h_len)) as [Hover | Hfit];
    [reflexivity | ].
  cbn [orb].
  destruct Hbad as [Hbad | [Hn1 Hn2]]; [lia | ].
  destruct (Z.eqb_spec (load8 hbh off_ip6h_nxt) IPPROTO_ICMPV6) as [E | _]; [contradiction | ].
  destruct (Z.eqb_spec (load8 hbh off_ip6h_nxt) IPPROTO_HOPOPTS) as [E | _]; [contradiction | ].
  reflexivity.
Qed.

(** Where [ndL_handle_msg] takes the ICMPv6 header from when the chain of
    options is [i] bytes long: [8 * i] bytes behind the IPv6 header, which
    is the place right behind the chain only for [i = 0]. *)
Lemma ndL_icmp6_hdr_offset (msg : mem) (i : Z) :
  ndL_icmp6_hdr msg i = ptr_add msg (sizeof_ndL_ip6_msg_t + 8 * Z.to_nat i)
  /\ icmp6_hdr_at_byte_offset msg i = ptr_add msg (sizeof_ndL_ip6_msg_t + Z.to_nat i).
Proof.
  unfold ndL_icmp6_hdr, icmp6_hdr_at_byte_offset, ptr_add.
  rewrite !skipn_skipn. split; f_equal; unfold sizeof_icmp6_hdr; lia.
Qed.

(** C6.  The receive buffer holds a frame with one well-formed Hop-by-Hop
    header of eight bytes in front of a solicitation whose checksum is
    right.  The loop skips the header and leaves [i = 8]; the ICMPv6 header
    eight bytes behind the IPv6 header verifies and would be handed to the
    proxy, but [ndL_handle_msg] takes the header from byte 64 behind the
    IPv6 header, finds no matching checksum there and drops the frame. *)
Theorem ndL_handle_msg_hopopts_offset :
  let msg := buffer_ns_hopopts in
  let ip6h := ptr_add msg sizeof_ether_header in
  ndL_skip_headers msg = Some 8
  /\ icmp6_cksum_matches ip6h (icmp6_hdr_at_byte_offset msg 8) 32 = true
  /\ handle_msg_at_byte_offset eth0 msg
     = [nd_proxy_handle_ns 1%nat addr_2001_db8_2 (solicited_node_addr addr_2001_db8_1)
          addr_2001_db8_1 (Some lladdr_solicitor)]
  /\ ndL_locate_icmp6 msg = Some (ptr_add msg (sizeof_ndL_ip6_msg_t + 64), 32)
  /\ icmp6_cksum_matches ip6h (ptr_add msg (sizeof_ndL_ip6_msg_t + 64)) 32 = false
  /\ ndL_handle_msg eth0 msg = [].
Proof.
  repeat apply conj; vm_compute; reflexivity.
Qed.

(** ** Interface flags: saved once, restored on close *)

(** Testing a one-bit flag is reading that bit. *)
Lemma flag_is_set_pow2 (flags n : Z) :
  0 <= n -> flag_is_set flags (2 ^ n) = Z.testbit flags n.
Proof.
  intros Hn. unfold flag_is_set.
  destruct (Z.testbit flags n) eqn:Hbit.
  - destruct (Z.eqb_spec (Z.land flags (2 ^ n)) 0) as [Hzero | _]; [ | reflexivity].
    assert (Hland : Z.testbit (Z.land flags (2 ^ n)) n = true)
      by (rewrite Z.land_spec, Hbit, Z.pow2_bits_true by assumption; reflexivity).
    rewrite Hzero, Z.bits_0 in Hland. discriminate Hland.
  - replace (Z.land flags (2 ^ n)) with 0; [reflexivity | ].
    apply Z.bits_inj'. intros m Hm.
    rewrite Z.bits_0, Z.land_spec.
    destruct (Z.eq_dec n m) as [<- | Hne].
    + rewrite Hbit. reflexivity.
    + rewrite Z.pow2_bits_false by assumption. symmetry. apply andb_false_r.
Qed.

Lemma flag_set_same (flags n : Z) :
  0 <= n -> flag_is_set (Z.lor flags (2 ^ n)) (2 ^ n) = true.
Proof.
  intros Hn. rewrite flag_is_set_pow2, Z.lor_spec, Z.pow2_bits_true by assumption.
  apply orb_true_r.
Qed.

Lemma flag_set_other (flags n m : Z) :
  0 <= m -> n <> m ->
  flag_is_set (Z.lor flags (2 ^ n)) (2 ^ m) = flag_is_set flags (2 ^ m).
Proof.
  intros Hm Hne. rewrite !flag_is_set_pow2, Z.lor_spec, Z.pow2_bits_false by assumption.
  apply orb_false_r.
Qed.

Lemma flag_clear_same (flags n : Z) :
  0 <= n -> flag_is_set (Z.land flags (Z.lnot (2 ^ n))) (2 ^ n) = false.
Proof.
  intros Hn.
  rewrite flag_is_set_pow2, Z.land_spec, Z.lnot_spec, Z.pow2_bits_true by assumption.
  apply andb_false_r.
Qed.

Lemma flag_clear_other (flags n m : Z) :
  0 <= m -> n <> m ->
  flag_is_set (Z.land flags (Z.lnot (2 ^ n))) (2 ^ m) = flag_is_set flags (2 ^ m).
Proof.
  intros Hm Hne.
  rewrite !flag_is_set_pow2, Z.land_spec, Z.lnot_spec, Z.pow2_bits_false by assumption.
  apply andb_true_r.
Qed.

(** The two flags are the bits 8 and 9. *)
Lemma IFF_PROMISC_bit : IFF_PROMISC = 2 ^ 8.
Proof. reflexivity. Qed.

Lemma IFF_ALLMULTI_bit : IFF_ALLMULTI = 2 ^ 9.
Proof. reflexivity. Qed.

(** Rewrite the flag tests of an updated flag word. *)
Ltac flag_bits :=
  rewrite ?IFF_PROMISC_bit, ?IFF_ALLMULTI_bit in *;
  rewrite ?flag_set_same, ?flag_clear_same by lia;
  rewrite ?(flag_set_other _ 8 9), ?(flag_set_other _ 9 8),
          ?(flag_clear_other _ 8 9), ?(flag_clear_other _ 9 8) by lia.

Lemma ioctl_next_flags (k : kernel) (ok : bool) (k1 : kernel) :
  ioctl_next k = (ok, k1) -> ifr_flags k1 = ifr_flags k.
Proof.
  unfold ioctl_next. destruct (ioctl_outcomes k); intros H; injection H as <- <-; reflexivity.
Qed.

Lemma ioctl_next_succeed (k : kernel) (ok : bool) (k1 : kernel) :
  ioctl_next k = (ok, k1) -> ioctls_succeed k -> ok = true /\ ioctls_succeed k1.
Proof.
  unfold ioctl_next, ioctls_succeed.
  destruct (ioctl_outcomes k) as [| o rest] eqn:Hout; intros H Hall; injection H as <- <-.
  - rewrite Hout. split; [reflexivity | constructor].
  - inversion Hall; subst. split; [reflexivity | assumption].
Qed.

(** What one call of [nd_iface_set_allmulti] does: it keeps the reference
    count, the saved PROMISC value and the PROMISC flag; either nothing
    happens, or ALLMULTI is saved if it was not yet and the flag stays or
    becomes [on]; and when the ioctls succeed the flag is [on] afterwards. *)
Lemma nd_iface_set_allmulti_effect (iface : nd_iface_t) (on : bool) (k : kernel)
    (r : bool) (iface' : nd_iface_t) (k' : kernel) :
  nd_iface_set_allmulti iface on k = (r, iface', k') ->
  refcount iface' = refcount iface
  /\ old_promisc iface' = old_promisc iface
  /\ flag_is_set (ifr_flags k') IFF_PROMISC = flag_is_set (ifr_flags k) IFF_PROMISC
  /\ ((old_allmulti iface' = old_allmulti iface /\ ifr_flags k' = ifr_flags k)
      \/ (old_allmulti iface'
           = (if old_allmulti iface <? 0
              then Z.b2z (flag_is_set (ifr_flags k) IFF_ALLMULTI)
              else old_allmulti iface)
          /\ (ifr_flags k' = ifr_flags k
              \/ flag_is_set (ifr_flags k') IFF_ALLMULTI = on)))
  /\ (ioctls_succeed k ->
      ioctls_succeed k' /\ flag_is_set (ifr_flags k') IFF_ALLMULTI = on).
Proof.
  unfold nd_iface_set_allmulti, ioctl_SIOCGIFFLAGS.
  destruct (ioctl_next k) as [ok1 k1] eqn:E1.
  pose proof (ioctl_next_flags _ _ _ E1) as F1.
  pose proof (ioctl_next_succeed _ _ _ E1) as S1.
  destruct ok1.
  - rewrite F1.
    set (iface1 := if old_allmulti iface <? 0 then _ else iface).
    assert (Hi : refcount iface1 = refcount iface
                 /\ old_promisc iface1 = old_promisc iface
                 /\ old_allmulti iface1
                    = (if old_allmulti iface <? 0
                       then Z.b2z (flag_is_set (ifr_flags k) IFF_ALLMULTI)
                       else old_allmulti iface)).
    { unfold iface1. destruct (old_allmulti iface <? 0); repeat split; reflexivity. }
    destruct Hi as (Hr & Hp & Ha). clearbody iface1.
    destruct (Bool.eqb on (flag_is_set (ifr_flags k) IFF_ALLMULTI)) eqn:Heq.
    + intros H. injection H as <- <- <-. rewrite F1.
      apply Bool.eqb_prop in Heq.
      refine (conj Hr (conj Hp (conj eq_refl (conj _ _)))).
      * right. split; [exact Ha | left; reflexivity].
      * intros Hs. apply S1 in Hs. destruct Hs as [_ Hs]. split; [exact Hs | ].
        symmetry. exact Heq.
    + unfold ioctl_SIOCSIFFLAGS.
      destruct (ioctl_next k1) as [ok2 k2] eqn:E2.
      pose proof (ioctl_next_flags _ _ _ E2) as F2.
      pose proof (ioctl_next_succeed _ _ _ E2) as S2.
      destruct ok2; intros H; injection H as <- <- <-; cbn [ifr_flags].
      * assert (Hon : flag_is_set (if on then Z.lor (ifr_flags k) IFF_ALLMULTI
                                   else Z.land (ifr_flags k) (Z.lnot IFF_ALLMULTI))
                        IFF_ALLMULTI = on)
          by (destruct on; flag_bits; reflexivity).
        assert (Hother : flag_is_set (if on then Z.lor (ifr_flags k) IFF_ALLMULTI
                                      else Z.land (ifr_flags k) (Z.lnot IFF_ALLMULTI))
                           IFF_PROMISC = flag_is_set (ifr_flags k) IFF_PROMISC)
          by (destruct on; flag_bits; reflexivity).
        refine (conj Hr (conj Hp (conj Hother (conj _ _)))).
        -- right. split; [exact Ha | right; exact Hon].
        -- intros Hs. apply S1 in Hs. destruct Hs as [_ Hs]. apply S2 in Hs.
           destruct Hs as [_ Hs]. split; [exact Hs | exact Hon].
      * rewrite F2, F1.
        refine (conj Hr (conj Hp (conj eq_refl (conj _ _)))).
        -- right. split; [exact Ha | left; reflexivity].
        -- intros Hs. apply S1 in Hs. destruct Hs as [_ Hs]. apply S2 in Hs.
           destruct Hs as [Hs _]. discriminate Hs.
  - intros H. injection H as <- <- <-. rewrite F1.
    refine (conj eq_refl (conj eq_refl (conj eq_refl (conj _ _)))).
    + left. split; reflexivity.
    + intros Hs. apply S1 in Hs. destruct Hs as [Hs _]. discriminate Hs.
Qed.

(** What one call of [nd_iface_set_promisc] does: it keeps the reference
    count, the saved ALLMULTI value and the ALLMULTI flag; either nothing
    happens, or PROMISC is saved if it was not yet and the flag stays or
    becomes [on]; and when the ioctls succeed the flag is [on] afterwards. *)
Lemma nd_iface_set_promisc_effect (iface : nd_iface_t) (on : bool) (k : kernel)
    (r : bool) (iface' : nd_iface_t) (k' : kernel) :
  nd_iface_set_promisc iface on k = (r, iface', k') ->
  refcount iface' = refcount iface
  /\ old_allmulti iface' = old_allmulti iface
  /\ flag_is_set (ifr_flags k') IFF_ALLMULTI = flag_is_set (ifr_flags k) IFF_ALLMULTI
  /\ ((old_promisc iface' = old_promisc iface /\ ifr_flags k' = ifr_flags k)
      \/ (old_promisc iface'
           = (if old_promisc iface <? 0
              then Z.b2z (flag_is_set (ifr_flags k) IFF_PROMISC)
              else old_promisc iface)
          /\ (ifr_flags k' = ifr_flags k
              \/ flag_is_set (ifr_flags k') IFF_PROMISC = on)))
  /\ (ioctls_succeed k ->
      ioctls_succeed k' /\ flag_is_set (ifr_flags k') IFF_PROMISC = on).
Proof.
  unfold nd_iface_set_promisc, ioctl_SIOCGIFFLAGS.
  destruct (ioctl_next k) as [ok1 k1] eqn:E1.
  pose proof (ioctl_next_flags _ _ _ E1) as F1.
  pose proof (ioctl_next_succeed _ _ _ E1) as S1.
  destruct ok1.
  - rewrite F1.
    set (iface1 := if old_promisc iface <? 0 then _ else iface).
    assert (Hi : refcount iface1 = refcount iface
                 /\ old_allmulti iface1 = old_allmulti iface
                 /\ old_promisc iface1
                    = (if old_promisc iface <? 0
                       then Z.b2z (flag_is_set (ifr_flags k) IFF_PROMISC)
                       else old_promisc iface)).
    { unfold iface1. destruct (old_promisc iface <? 0); repeat split; reflexivity. }
    destruct Hi as (Hr & Hp & Ha). clearbody iface1.
    destruct (Bool.eqb on (flag_is_set (ifr_flags k) IFF_PROMISC)) eqn:Heq.
    + intros H. injection H as <- <- <-. rewrite F1.
      apply Bool.eqb_prop in Heq.
      refine (conj Hr (conj Hp (conj eq_refl (conj _ _)))).
      * right. split; [exact Ha | left; reflexivity].
      * intros Hs. apply S1 in Hs. destruct Hs as [_ Hs]. split; [exact Hs | ].
        symmetry. exact Heq.
    + unfold ioctl_SIOCSIFFLAGS.
      destruct (ioctl_next k1) as [ok2 k2] eqn:E2.
      pose proof (ioctl_next_flags _ _ _ E2) as F2.
      pose proof (ioctl_next_succeed _ _ _ E2) as S2.
      destruct ok2; intros H; injection H as <- <- <-; cbn [ifr_flags].
      * assert (Hon : flag_is_set (if on then Z.lor (ifr_flags k) IFF_PROMISC
                                   else Z.land (ifr_flags k) (Z.lnot IFF_PROMISC))
                        IFF_PROMISC = on)
          by (destruct on; flag_bits; reflexivity).
        assert (Hother : flag_is_set (if on then Z.lor (ifr_flags k) IFF_PROMISC
                                      else Z.land (ifr_flags k) (Z.lnot IFF_PROMISC))
                           IFF_ALLMULTI = flag_is_set (ifr_flags k) IFF_ALLMULTI)
          by (destruct on; flag_bits; reflexivity).
        refine (conj Hr (conj Hp (conj Hother (conj _ _)))).
        -- right. split; [exact Ha | right; exact Hon].
        -- intros Hs. apply S1 in Hs. destruct Hs as [_ Hs]. apply S2 in Hs.
           destruct Hs as [_ Hs]. split; [exact Hs | exact Hon].
      * rewrite F2, F1.
        refine (conj Hr (conj Hp (conj eq_refl (conj _ _)))).
        -- right. split; [exact Ha | left; reflexivity].
        -- intros Hs. apply S1 in Hs. destruct Hs as [_ Hs]. apply S2 in Hs.
           destruct Hs as [Hs _]. discriminate Hs.
  - intros H. injection H as <- <- <-. rewrite F1.
    refine (conj eq_refl (conj eq_refl (conj eq_refl (conj _ _)))).
    + left. split; reflexivity.
    + intros Hs. apply S1 in Hs. destruct Hs as [Hs _]. discriminate Hs.
Qed.

(** Either setter keeps the saved values in agreement with the first
    flags. *)
Lemma nd_iface_set_allmulti_agree (flags0 : Z) (iface : nd_iface_t) (on : bool)
    (k : kernel) (r : bool) (iface' : nd_iface_t) (k' : kernel) :
  nd_iface_set_allmulti iface on k = (r, iface', k') ->
  saved_flags_agree flags0 iface k ->
  saved_flags_agree flags0 iface' k'.
Proof.
  intros Hrun [Hall Hpro].
  destruct (nd_iface_set_allmulti_effect _ _ _ _ _ _ Hrun) as (_ & Hp & Hother & Hself & _).
  split.
  - destruct Hself as [[Ho Hf] | [Ho Hf]].
    + rewrite Ho, Hf. exact Hall.
    + right. rewrite Ho.
      destruct Hall as [[Hm1 Hbit] | Hsaved].
      * rewrite Hm1, Hbit. reflexivity.
      * rewrite Hsaved. destruct (flag_is_set flags0 IFF_ALLMULTI); reflexivity.
  - rewrite Hp, Hother. exact Hpro.
Qed.

Lemma nd_iface_set_promisc_agree (flags0 : Z) (iface : nd_iface_t) (on : bool)
    (k : kernel) (r : bool) (iface' : nd_iface_t) (k' : kernel) :
  nd_iface_set_promisc iface on k = (r, iface', k') ->
  saved_flags_agree flags0 iface k ->
  saved_flags_agree flags0 iface' k'.
Proof.
  intros Hrun [Hall Hpro].
  destruct (nd_iface_set_promisc_effect _ _ _ _ _ _ Hrun) as (_ & Hp & Hother & Hself & _).
  split.
  - rewrite Hp, Hother. exact Hall.
  - destruct Hself as [[Ho Hf] | [Ho Hf]].
    + rewrite Ho, Hf. exact Hpro.
    + right. rewrite Ho.
      destruct Hpro as [[Hm1 Hbit] | Hsaved].
      * rewrite Hm1, Hbit. reflexivity.
      * rewrite Hsaved. destruct (flag_is_set flags0 IFF_PROMISC); reflexivity.
Qed.

(** Any sequence of calls of the two setters, whatever their ioctls return,
    keeps the agreement and the reference count. *)
Lemma run_set_calls_agree (flags0 : Z) (calls : list set_call) (iface : nd_iface_t)
    (k : kernel) (iface' : nd_iface_t) (k' : kernel) :
  run_set_calls calls (iface, k) = (iface', k') ->
  saved_flags_agree flags0 iface k ->
  saved_flags_agree flags0 iface' k' /\ refcount iface' = refcount iface.
Proof.
  unfold run_set_calls. revert iface k.
  induction calls as [| c calls IH]; intros iface k Hrun Hagree.
  - injection Hrun as <- <-. split; [exact Hagree | reflexivity].
  - cbn [fold_left] in Hrun.
    destruct c as [on | on]; cbn [run_set_call] in Hrun.
    + destruct (nd_iface_set_allmulti iface on k) as [[r i1] k1] eqn:Hset.
      destruct (nd_iface_set_allmulti_effect _ _ _ _ _ _ Hset) as (Hr & _).
      apply IH in Hrun.
      * rewrite <- Hr. exact Hrun.
      * eapply nd_iface_set_allmulti_agree; eassumption.
    + destruct (nd_iface_set_promisc iface on k) as [[r i1] k1] eqn:Hset.
      destruct (nd_iface_set_promisc_effect _ _ _ _ _ _ Hset) as (Hr & _).
      apply IH in Hrun.
      * rewrite <- Hr. exact Hrun.
      * eapply nd_iface_set_promisc_agree; eassumption.
Qed.

Lemma negb_b2z_eqb (b : bool) : negb (Z.b2z b =? 0) = b.
Proof. destruct b; reflexivity. Qed.

(** Closing the last reference while the saved values agree with the first
    flags, with the ioctls succeeding, brings both flags back. *)
Lemma nd_iface_close_agree (flags0 : Z) (iface : nd_iface_t) (k : kernel)
    (released : bool) (iface' : nd_iface_t) (k' : kernel) :
  refcount iface = 1 ->
  saved_flags_agree flags0 iface k ->
  ioctls_succeed k ->
  nd_iface_close false iface k = (released, iface', k') ->
  released = true
  /\ flag_is_set (ifr_flags k') IFF_ALLMULTI = flag_is_set flags0 IFF_ALLMULTI
  /\ flag_is_set (ifr_flags k') IFF_PROMISC = flag_is_set flags0 IFF_PROMISC.
Proof.
  intros Hone [Hall Hpro] Hok. unfold nd_iface_close.
  cbn [set_refcount refcount old_promisc old_allmulti negb].
  rewrite Hone. change (1 - 1 >? 0) with false. cbv iota.
  set (iface0 := set_refcount (1 - 1) iface).
  assert (Ha0 : old_allmulti iface0 = old_allmulti iface) by reflexivity.
  assert (Hp0 : old_promisc iface0 = old_promisc iface) by reflexivity.
  clearbody iface0.
  (* PROMISC first *)
  assert (Hstep1 : exists i1 k1,
             (if old_promisc iface >=? 0
              then let '(_, i, k0) :=
                     nd_iface_set_promisc iface0 (negb (old_promisc iface =? 0)) k in
                   (i, k0)
              else (iface0, k)) = (i1, k1)
             /\ old_allmulti i1 = old_allmulti iface
             /\ ioctls_succeed k1
             /\ flag_is_set (ifr_flags k1) IFF_ALLMULTI = flag_is_set (ifr_flags k) IFF_ALLMULTI
             /\ flag_is_set (ifr_flags k1) IFF_PROMISC = flag_is_set flags0 IFF_PROMISC).
  { destruct (Z.geb_spec (old_promisc iface) 0) as [Hsaved | Hfresh].
    - destruct (nd_iface_set_promisc iface0 (negb (old_promisc iface =? 0)) k)
        as [[r i1] k1] eqn:Hset.
      destruct (nd_iface_set_promisc_effect _ _ _ _ _ _ Hset)
        as (_ & Ha & Hother & _ & Hsucc).
      destruct (Hsucc Hok) as [Hok1 Hon].
      exists i1, k1. repeat split; try assumption.
      + congruence.
      + rewrite Hon. destruct Hpro as [[Hm1 _] | Hsv]; [lia | ].
        rewrite Hsv. apply negb_b2z_eqb.
    - exists iface0, k. repeat split; try assumption.
      destruct Hpro as [[_ Hbit] | Hsv]; [exact Hbit | ].
      destruct (flag_is_set flags0 IFF_PROMISC); cbn in Hsv; lia. }
  destruct Hstep1 as (i1 & k1 & E1 & Ha1 & Hok1 & Hall1 & Hpro1).
  rewrite E1.
  cbn [old_allmulti] in *.
  rewrite Ha1.
  destruct (Z.geb_spec (old_allmulti iface) 0) as [Hsaved | Hfresh].
  - destruct (nd_iface_set_allmulti i1 (negb (old_allmulti iface =? 0)) k1)
      as [[r i2] k2] eqn:Hset.
    destruct (nd_iface_set_allmulti_effect _ _ _ _ _ _ Hset)
      as (_ & _ & Hother & _ & Hsucc).
    destruct (Hsucc Hok1) as [_ Hon].
    intros H. injection H as <- <- <-.
    repeat split.
    + rewrite Hon. destruct Hall as [[Hm1 _] | Hsv]; [lia | ].
      rewrite Hsv. apply negb_b2z_eqb.
    + rewrite Hother. exact Hpro1.
  - intros H. injection H as <- <- <-.
    repeat split; [ | exact Hpro1].
    rewrite Hall1.
    destruct Hall as [[_ Hbit] | Hsv]; [exact Hbit | ].
    destruct (flag_is_set flags0 IFF_ALLMULTI); cbn in Hsv; lia.
Qed.

(** Called with the sentinel still in place, either setter saves the flag
    that its first ioctl has read, and nothing when that ioctl fails. *)
Lemma nd_iface_set_allmulti_records :
  records_first_time nd_iface_set_allmulti old_allmulti IFF_ALLMULTI.
Proof.
  intros iface on k Hfresh.
  unfold nd_iface_set_allmulti, ioctl_SIOCGIFFLAGS.
  destruct (ioctl_next k) as [ok1 k1] eqn:E1.
  pose proof (ioctl_next_flags _ _ _ E1) as F1.
  cbn [fst]. destruct ok1; [ | reflexivity].
  rewrite F1.
  destruct (Z.ltb_spec (old_allmulti iface) 0) as [_ | Hbad]; [ | lia].
  destruct (Bool.eqb on _); [reflexivity | ].
  destruct (ioctl_SIOCSIFFLAGS _ k1) as [[] k2]; reflexivity.
Qed.

Lemma nd_iface_set_promisc_records :
  records_first_time nd_iface_set_promisc old_promisc IFF_PROMISC.
Proof.
  intros iface on k Hfresh.
  unfold nd_iface_set_promisc, ioctl_SIOCGIFFLAGS.
  destruct (ioctl_next k) as [ok1 k1] eqn:E1.
  pose proof (ioctl_next_flags _ _ _ E1) as F1.
  cbn [fst]. destruct ok1; [ | reflexivity].
  rewrite F1.
  destruct (Z.ltb_spec (old_promisc iface) 0) as [_ | Hbad]; [ | lia].
  destruct (Bool.eqb on _); [reflexivity | ].
  destruct (ioctl_SIOCSIFFLAGS _ k1) as [[] k2]; reflexivity.
Qed.

(** C9.  Each setter records the kernel's flag the first time it is called
    on an interface, and only then: called while its saved value is still
    the sentinel it saves the flag that it has read from the kernel, and a
    value once saved survives every further call.  So, for an interface that
    starts with both saved values at [-1], after any sequence of calls of
    [nd_iface_set_allmulti] and [nd_iface_set_promisc], whatever their
    ioctls returned, [nd_iface_close] on the last reference, with restoring
    not switched off and its own ioctls succeeding, unlinks the interface
    and leaves ALLMULTI and PROMISC as they were before the first call. *)
Theorem nd_iface_close_restores_flags :
  records_first_time nd_iface_set_allmulti old_allmulti IFF_ALLMULTI
  /\ records_first_time nd_iface_set_promisc old_promisc IFF_PROMISC
  /\ saves_only_once nd_iface_set_allmulti old_allmulti
  /\ saves_only_once nd_iface_set_promisc old_promisc
  /\ forall (iface : nd_iface_t) (k : kernel) (calls : list set_call)
       (iface1 : nd_iface_t) (k1 : kernel)
       (released : bool) (iface2 : nd_iface_t) (k2 : kernel),
       old_allmulti iface = -1 ->
       old_promisc iface = -1 ->
       refcount iface = 1 ->
       run_set_calls calls (iface, k) = (iface1, k1) ->
       ioctls_succeed k1 ->
       nd_iface_close false iface1 k1 = (released, iface2, k2) ->
       released = true
       /\ flag_is_set (ifr_flags k2) IFF_ALLMULTI = flag_is_set (ifr_flags k) IFF_ALLMULTI
       /\ flag_is_set (ifr_flags k2) IFF_PROMISC = flag_is_set (ifr_flags k) IFF_PROMISC.
Proof.
  refine (conj nd_iface_set_allmulti_records (conj nd_iface_set_promisc_records _)).
  repeat apply conj.
  - intros iface on k Hsaved.
    destruct (nd_iface_set_allmulti iface on k) as [[r iface'] k'] eqn:Hset.
    destruct (nd_iface_set_allmulti_effect _ _ _ _ _ _ Hset)
      as (_ & _ & _ & [[Ho _] | [Ho _]] & _); cbn [fst snd]; [exact Ho | ].
    rewrite Ho. destruct (Z.ltb_spec (old_allmulti iface) 0); [lia | reflexivity].
  - intros iface on k Hsaved.
    destruct (nd_iface_set_promisc iface on k) as [[r iface'] k'] eqn:Hset.
    destruct (nd_iface_set_promisc_effect _ _ _ _ _ _ Hset)
      as (_ & _ & _ & [[Ho _] | [Ho _]] & _); cbn [fst snd]; [exact Ho | ].
    rewrite Ho. destruct (Z.ltb_spec (old_promisc iface) 0); [lia | reflexivity].
  - intros iface k calls iface1 k1 released iface2 k2 Hall Hpro Hone Hrun Hok Hclose.
    assert (Hagree : saved_flags_agree (ifr_flags k) iface k).
    { split; left; split; [exact Hall | reflexivity | exact Hpro | reflexivity]. }
    destruct (run_set_calls_agree _ _ _ _ _ _ Hrun Hagree) as [Hagree1 Hcount].
    apply (nd_iface_close_agree (ifr_flags k) iface1 k1 released iface2 k2);
      [congruence | exact Hagree1 | exact Hok | exact Hclose].
Qed.

(** [eth0], fresh from [nd_iface_open], on a kernel whose second ioctl
    fails: ALLMULTI is saved but not switched on, PROMISC is saved and
    switched on, and the close clears PROMISC again. *)
Lemma nd_iface_close_restores_flags_witness :
  let k := {| ifr_flags := sample_flags; ioctl_outcomes := [true; false] |} in
  let calls := [call_set_allmulti true; call_set_promisc true] in
  let s1 := run_set_calls calls (eth0, k) in
  let s2 := nd_iface_close false (fst s1) (snd s1) in
  old_allmulti eth0 = -1
  /\ old_promisc eth0 = -1
  /\ refcount eth0 = 1
  /\ ioctls_succeed (snd s1)
  /\ ifr_flags (snd s1) = Z.lor sample_flags IFF_PROMISC
  /\ flag_is_set (ifr_flags (snd s2)) IFF_PROMISC = flag_is_set sample_flags IFF_PROMISC.
Proof.
  intros k calls s1 s2.
  assert (Hok : ioctls_succeed (snd s1)) by (vm_compute; constructor).
  repeat (split; [reflexivity || exact Hok | ]).
  refine (proj2 (proj2 (proj2 (proj2 (proj2 (proj2 nd_iface_close_restores_flags)))
            eth0 k calls (fst s1) (snd s1) (fst (fst s2)) (snd (fst s2)) (snd s2)
            _ _ _ _ Hok _))).
  - reflexivity.
  - reflexivity.
  - reflexivity.
  - vm_compute. reflexivity.
  - vm_compute. reflexivity.
Defined.

(** * Properties of the checksum, the filter, the receive loop, the frames
    sent, the flags and the list of interfaces *)

(** ** The checksum as a ones' complement sum *)

Lemma list_pair_ind {A : Type} (P : list A -> Prop) :
  P [] -> (forall a, P [a]) -> (forall a b l, P l -> P (a :: b :: l)) ->
  forall l, P l.
Proof.
  intros Hnil Hone Hstep.
  assert (H : forall l, P l /\ forall a, P (a :: l)).
  { induction l as [| b l [IH1 IH2]].
    - split; [exact Hnil | exact Hone].
    - split; [apply IH2 | intros a; apply Hstep; exact IH1]. }
  intros l. apply H.
Qed.

(** One round keeps a non-zero 16-bit sum non-zero and 16-bit, and adds
    modulo [0xffff]. *)
Lemma ndL_checksum_add_spec (sum v : Z) :
  1 <= sum <= 0xffff -> 0 <= v <= 0xffff ->
  1 <= ndL_checksum_add sum v <= 0xffff
  /\ exists q, ndL_checksum_add sum v = sum + v - 0xffff * q.
Proof.
  intros Hs Hv. unfold ndL_checksum_add.
  rewrite (Z.mod_small (sum + v)) by lia.
  destruct (Z.gtb_spec (sum + v) 0xffff) as [Hcarry | Hfit].
  - rewrite Z.mod_small by lia. split; [lia | exists 1; lia].
  - split; [lia | exists 0; lia].
Qed.

Lemma ndL_checksum_loop_spec (data : list byte) :
  forall sum, 1 <= sum <= 0xffff ->
  1 <= ndL_checksum_loop sum data <= 0xffff
  /\ exists q, ndL_checksum_loop sum data = sum + sum16 data - 0xffff * q.
Proof.
  induction data as [| b | hi lo rest IH] using list_pair_ind; intros sum Hs.
  - cbn. split; [lia | exists 0; lia].
  - cbn [ndL_checksum_loop sum16].
    pose proof (byte.unsigned_range b) as Hb.
    apply ndL_checksum_add_spec; lia.
  - cbn [ndL_checksum_loop sum16].
    pose proof (byte.unsigned_range hi) as Hhi.
    pose proof (byte.unsigned_range lo) as Hlo.
    destruct (ndL_checksum_add_spec sum (256 * byte.unsigned hi + byte.unsigned lo))
      as [Hr [q1 Hq1]]; [lia | lia | ].
    destruct (IH _ Hr) as [Hr2 [q2 Hq2]].
    split; [exact Hr2 | ]. exists (q1 + q2). lia.
Qed.

(** Started from a sum between 1 and [0xffff], the function returns such a
    sum again, the start value plus the words of the data less a multiple of
    [0xffff]. *)
Lemma ndL_calculate_checksum_spec (sum : Z) (data : mem) (length : Z) :
  1 <= sum <= 0xffff ->
  1 <= ndL_calculate_checksum sum data length <= 0xffff
  /\ exists q,
       ndL_calculate_checksum sum data length
       = sum + sum16 (load data (Z.to_nat length)) - 0xffff * q.
Proof.
  intros Hs. unfold ndL_calculate_checksum.
  rewrite (Z.mod_small sum) by lia.
  destruct (ndL_checksum_loop_spec (load data (Z.to_nat length)) sum Hs) as [Hr Hq].
  rewrite Z.mod_small by lia. split; assumption.
Qed.

(** X1.  Started from a sum between 1 and [0xffff], as both calls in
    [ndL_calculate_icmp6_checksum] are, [ndL_calculate_checksum] returns a
    value between 1 and [0xffff] again, never 0, that is congruent modulo
    [0xffff] to the start value plus the 16-bit words of the first [length]
    bytes of the data: the ones' complement sum, with [0xffff] standing for
    zero. *)
Theorem ndL_calculate_checksum_ones_complement (sum : Z) (data : mem) (length : Z) :
  1 <= sum <= 0xffff ->
  1 <= ndL_calculate_checksum sum data length <= 0xffff
  /\ ndL_calculate_checksum sum data length mod 0xffff
     = (sum + sum16 (load data (Z.to_nat length))) mod 0xffff.
Proof.
  intros Hs.
  destruct (ndL_calculate_checksum_spec sum data length Hs) as [Hr [q Hq]].
  split; [exact Hr | ].
  rewrite Hq.
  replace (sum + sum16 (load data (Z.to_nat length)) - 0xffff * q)
    with (sum + sum16 (load data (Z.to_nat length)) + (- q) * 0xffff) by lia.
  apply Z.mod_add. lia.
Qed.

Lemma ndL_calculate_checksum_ones_complement_witness :
  1 <= 0xffff <= 0xffff
  /\ 1 <= ndL_calculate_checksum 0xffff frame_ns 86 <= 0xffff.
Proof.
  split; [lia | ].
  apply (proj1 (ndL_calculate_checksum_ones_complement 0xffff frame_ns 86 ltac:(lia))).
Defined.

Lemma ndL_checksum_loop_app (a b : list byte) :
  Nat.Even (length a) ->
  forall sum, ndL_checksum_loop sum (a ++ b) = ndL_checksum_loop (ndL_checksum_loop sum a) b.
Proof.
  induction a as [| x | hi lo rest IH] using list_pair_ind; intros Heven sum.
  - reflexivity.
  - destruct Heven as [k Hk]. cbn in Hk. lia.
  - cbn [app ndL_checksum_loop]. apply IH.
    destruct Heven as [k Hk]. cbn [length] in Hk. exists (k - 1)%nat. lia.
Qed.

(** X2.  Two passes are one: summing an even number of bytes [a] and going
    on from the result over [b] gives what one pass over [a ++ b] gives.
    This is what lets [ndL_calculate_icmp6_checksum] sum its 48-byte header
    first and the rest of the message in a second call. *)
Theorem ndL_calculate_checksum_app (sum : Z) (a b : list byte) (n : Z) :
  1 <= sum <= 0xffff ->
  Nat.Even (length a) ->
  0 <= n ->
  ndL_calculate_checksum (ndL_calculate_checksum sum a (Z.of_nat (length a))) b n
  = ndL_calculate_checksum sum (a ++ b) (Z.of_nat (length a) + n).
Proof.
  intros Hs Heven Hn.
  destruct (ndL_calculate_checksum_spec sum a (Z.of_nat (length a)) Hs)
    as [Hr _].
  unfold ndL_calculate_checksum at 1 3.
  rewrite (Z.mod_small (ndL_calculate_checksum sum a (Z.of_nat (length a)))) by lia.
  f_equal. unfold ndL_calculate_checksum, load.
  rewrite Nat2Z.id, firstn_all.
  rewrite (Z.mod_small sum) by lia.
  destruct (ndL_checksum_loop_spec a sum Hs) as [Hra _].
  rewrite (Z.mod_small (ndL_checksum_loop sum a)) by lia.
  replace (Z.to_nat (Z.of_nat (length a) + n)) with (length a + Z.to_nat n)%nat by lia.
  rewrite firstn_app_2.
  symmetry. apply ndL_checksum_loop_app. exact Heven.
Qed.

Lemma ndL_calculate_checksum_app_witness :
  1 <= 0xffff <= 0xffff
  /\ Nat.Even (length (sample_headers 32 58))
  /\ 0 <= 32
  /\ ndL_calculate_checksum
       (ndL_calculate_checksum 0xffff (sample_headers 32 58) 54) (sample_ns 0xb8 0x8d) 32
     = ndL_calculate_checksum 0xffff frame_ns 86.
Proof.
  assert (Heven : Nat.Even (length (sample_headers 32 58))) by (exists 27%nat; reflexivity).
  split; [lia | split; [exact Heven | split; [lia | ]]].
  apply (ndL_calculate_checksum_app 0xffff (sample_headers 32 58) (sample_ns 0xb8 0x8d) 32);
    [lia | exact Heven | lia].
Defined.

Lemma lnot_mod16 (x : Z) : 0 <= x < 2 ^ 16 -> Z.lnot x mod 2 ^ 16 = 0xffff - x.
Proof.
  intros H. unfold Z.lnot, Z.pred.
  replace (- x + -1) with (0xffff - x + (-1) * 2 ^ 16) by lia.
  rewrite Z.mod_add by lia. apply Z.mod_small. lia.
Qed.

Lemma sum16_even (data : list byte) :
  Nat.Even (length data) -> sum16 data = rfc1071_words data.
Proof.
  induction data as [| b | hi lo rest IH] using list_pair_ind; intros Heven.
  - reflexivity.
  - destruct Heven as [k Hk]. cbn in Hk. lia.
  - cbn [sum16 rfc1071_words]. rewrite IH; [reflexivity | ].
    destruct Heven as [k Hk]. cbn [length] in Hk. exists (k - 1)%nat. lia.
Qed.

Lemma rfc1071_words_app (a b : list byte) :
  Nat.Even (length a) ->
  rfc1071_words (a ++ b) = rfc1071_words a + rfc1071_words b.
Proof.
  induction a as [| x | hi lo rest IH] using list_pair_ind; intros Heven.
  - reflexivity.
  - destruct Heven as [k Hk]. cbn in Hk. lia.
  - cbn [app rfc1071_words]. rewrite IH; [lia | ].
    destruct Heven as [k Hk]. cbn [length] in Hk. exists (k - 1)%nat. lia.
Qed.

Lemma rfc1071_words_nonneg (data : list byte) : 0 <= rfc1071_words data.
Proof.
  induction data as [| b | hi lo rest IH] using list_pair_ind; cbn [rfc1071_words].
  - lia.
  - pose proof (byte.unsigned_range b). lia.
  - pose proof (byte.unsigned_range hi). pose proof (byte.unsigned_range lo). lia.
Qed.

Lemma rfc1071_fold_multiple (q : Z) : 0 < q -> rfc1071_fold (0xffff * q) = 0xffff.
Proof.
  intros Hq. unfold rfc1071_fold.
  destruct (Z.eqb_spec (0xffff * q) 0) as [Hz | _]; [lia | ].
  replace (0xffff * q - 1) with (0xfffe + (q - 1) * 0xffff) by lia.
  rewrite Z.mod_add by lia. reflexivity.
Qed.

Lemma load_split (p : mem) (n m : nat) :
  load p (n + m) = load p n ++ load (ptr_add p n) m.
Proof.
  unfold load, ptr_add. revert p. induction n as [| n IH]; intros p.
  - reflexivity.
  - destruct p as [| x p]; cbn [Nat.add firstn skipn app].
    + rewrite firstn_nil. reflexivity.
    + rewrite IH. reflexivity.
Qed.

(** When the checksum field of a message of even length holds what
    [ndL_calculate_icmp6_checksum] computes, the message verifies. *)
Lemma icmp6_checksum_verifies_stored (ip6h ih : mem) (size : Z) :
  (40 <= length ip6h)%nat ->
  8 <= size < 2 ^ 16 ->
  (Z.to_nat size <= length ih)%nat ->
  Z.even size = true ->
  ndL_calculate_icmp6_checksum ip6h ih size = load16 ih off_icmp6_cksum ->
  icmp6_checksum_verifies ip6h ih size.
Proof.
  intros Hip Hsize Hih Heven Hmatch.
  unfold ndL_calculate_icmp6_checksum in Hmatch.
  unfold icmp6_checksum_verifies, icmp6_pseudo_header.
  change (Z.of_nat sizeof_icmp6_hdr) with 8 in Hmatch.
  rewrite (Z.mod_small size (2 ^ 32)) in Hmatch by lia.
  rewrite (Z.mod_small (size - 8)) in Hmatch by lia.
  replace (Z.to_nat size) with (8 + Z.to_nat (size - 8))%nat by lia.
  rewrite load_split.
  set (rest := load (ptr_add ih 8) (Z.to_nat (size - 8))).
  assert (Hrest : Nat.Even (length rest)).
  { unfold rest, load, ptr_add. rewrite length_firstn, length_skipn.
    apply Z.even_spec in Heven. destruct Heven as [k Hk].
    exists (Z.to_nat (k - 4)). lia. }
  destruct (ndL_calculate_checksum_spec 65535
              (load (ptr_add ip6h off_ip6_src) sizeof_in6_addr
               ++ load (ptr_add ip6h off_ip6_dst) sizeof_in6_addr
               ++ be32 size ++ [Byte.x00; Byte.x00; Byte.x00]
               ++ [byte.of_Z IPPROTO_ICMPV6]
               ++ store16 (load ih sizeof_icmp6_hdr) off_icmp6_cksum 0) 48 ltac:(lia))
    as [HA [qa EA]].
  destruct (ndL_calculate_checksum_spec _ (ptr_add ih sizeof_icmp6_hdr) (size - 8) HA)
    as [HB [qb EB]].
  rewrite lnot_mod16 in Hmatch by lia.
  fold (load (ptr_add ih sizeof_icmp6_hdr) (Z.to_nat (size - 8))) in EB.
  change (load (ptr_add ih sizeof_icmp6_hdr) (Z.to_nat (size - 8))) with rest in EB.
  rewrite (sum16_even rest Hrest) in EB.
  revert Hmatch EA EB HA HB.
  set (A := ndL_calculate_checksum 65535 _ 48).
  set (B := ndL_calculate_checksum A _ _).
  intros Hmatch EA EB HA HB. clearbody A B.
  pose proof (rfc1071_words_nonneg rest) as Hnn.
  clearbody rest.
  assert (Hl : exists l0 l1 l2 l3, be32 size = [l0; l1; l2; l3]) by (unfold be32; eauto).
  destruct Hl as (l0 & l1 & l2 & l3 & Hl). rewrite Hl in EA |- *. clear Hl.
  revert EA Hmatch.
  explode ip6h by Hip 40. explode ih by Hih 8. clear Hip Hih.
  unfold load at 1 3. change (Z.to_nat 48) with 48%nat.
  wire. cbn [sum16].
  intros EA Hmatch.
  change (byte.unsigned (byte.of_Z (Z.shiftr 0 8))) with 0 in EA.
  change (byte.unsigned (byte.of_Z 0)) with 0 in EA |- *.
  change (byte.unsigned Byte.x00) with 0 in EA.
  change (byte.unsigned (byte.of_Z 58)) with 58.
  change (byte.unsigned (byte.of_Z IPPROTO_ICMPV6)) with 58 in EA.
  repeat match goal with
         | |- context [rfc1071_words (?x :: ?y :: ?l)] =>
             change (rfc1071_words (x :: y :: l))
               with (256 * byte.unsigned x + byte.unsigned y + rfc1071_words l)
         end.
  change (byte.unsigned (byte.of_Z 0)) with 0.
  change (byte.unsigned (byte.of_Z 58)) with 58.
  repeat match goal with
         | |- context [byte.unsigned ?b] =>
             is_var b;
             lazymatch goal with
             | _ : 0 <= byte.unsigned b < 2 ^ 8 |- _ => fail
             | _ => pose proof (byte.unsigned_range b)
             end
         end.
  generalize dependent (rfc1071_words rest). intros R Hnn EB.
  match goal with
  | |- rfc1071_fold ?s = _ => replace s with (65535 * (qa + qb)) by lia
  end.
  apply rfc1071_fold_multiple. lia.
Qed.

(** X3.  A message of even length that passes the comparison of
    [ndL_handle_msg] also passes the receiver's check of RFC 1071 and
    RFC 4443: the ones' complement sum over the pseudo-header of RFC 2460 and
    the message, checksum field included, is all ones.  (For a message of
    odd length the code adds the last byte as a low byte, where RFC 1071 has
    it as a high byte, and the two checks part: see
    [ndL_send_icmp6_odd_size].) *)
Theorem icmp6_cksum_matches_verifies (ip6h ih : mem) (size : Z) :
  (40 <= length ip6h)%nat ->
  8 <= size < 2 ^ 16 ->
  (Z.to_nat size <= length ih)%nat ->
  Z.even size = true ->
  icmp6_cksum_matches ip6h ih size = true ->
  icmp6_checksum_verifies ip6h ih size.
Proof.
  intros Hip Hsize Hih Heven Hmatch.
  apply icmp6_checksum_verifies_stored; try assumption.
  unfold icmp6_cksum_matches in Hmatch. apply Z.eqb_eq. exact Hmatch.
Qed.

Lemma icmp6_cksum_matches_verifies_witness :
  (40 <= length (ptr_add frame_ns sizeof_ether_header))%nat
  /\ 8 <= 32 < 2 ^ 16
  /\ (Z.to_nat 32 <= length (ptr_add frame_ns sizeof_ndL_ip6_msg_t))%nat
  /\ Z.even 32 = true
  /\ icmp6_cksum_matches (ptr_add frame_ns sizeof_ether_header)
       (ptr_add frame_ns sizeof_ndL_ip6_msg_t) 32 = true
  /\ icmp6_checksum_verifies (ptr_add frame_ns sizeof_ether_header)
       (ptr_add frame_ns sizeof_ndL_ip6_msg_t) 32.
Proof.
  assert (H1 : (40 <= length (ptr_add frame_ns sizeof_ether_header))%nat) by (simpl; lia).
  assert (H2 : 8 <= 32 < 2 ^ 16) by lia.
  assert (H3 : (Z.to_nat 32 <= length (ptr_add frame_ns sizeof_ndL_ip6_msg_t))%nat)
    by (simpl; lia).
  assert (H5 : icmp6_cksum_matches (ptr_add frame_ns sizeof_ether_header)
                 (ptr_add frame_ns sizeof_ndL_ip6_msg_t) 32 = true)
    by (vm_compute; reflexivity).
  refine (conj H1 (conj H2 (conj H3 (conj eq_refl (conj H5 _))))).
  exact (icmp6_cksum_matches_verifies _ _ 32 H1 H2 H3 eq_refl H5).
Defined.

(** X4.  Every frame of even length that [ndL_send_icmp6] sends, so every
    advertisement and solicitation of this file (86 bytes), carries a
    checksum that verifies at a receiver that follows RFC 1071. *)
Theorem ndL_send_icmp6_verifies (iface : nd_iface_t) (msg : mem) (size : Z) (hwaddr : mem) :
  size = Z.of_nat (length msg) ->
  62 <= size <= 65589 ->
  Z.even size = true ->
  let F := frame (ndL_send_icmp6 iface msg size hwaddr) in
  icmp6_checksum_verifies (ptr_add F sizeof_ether_header) (ptr_add F sizeof_ndL_ip6_msg_t)
    (size - 54).
Proof.
  intros Hsize Hrange Heven F.
  destruct (ndL_send_icmp6_frame iface msg size hwaddr Hsize Hrange)
    as (Hlen & _ & _ & _ & _ & Hck).
  fold F in Hlen, Hck.
  apply icmp6_checksum_verifies_stored.
  - unfold ptr_add. rewrite length_skipn, Hlen. unfold sizeof_ether_header. lia.
  - lia.
  - unfold ptr_add. rewrite length_skipn, Hlen. layout. lia.
  - replace (size - 54) with (size + 2 * (-27)) by lia.
    rewrite Z.even_add_mul_2. exact Heven.
  - symmetry. exact Hck.
Qed.

Lemma ndL_send_icmp6_verifies_witness :
  86 = Z.of_nat (length frame_ns_bad_cksum)
  /\ 62 <= 86 <= 65589
  /\ Z.even 86 = true
  /\ let F := frame (ndL_send_icmp6 eth0 frame_ns_bad_cksum 86 lladdr_solicitor) in
     icmp6_checksum_verifies (ptr_add F sizeof_ether_header)
       (ptr_add F sizeof_ndL_ip6_msg_t) (86 - 54).
Proof.
  split; [reflexivity | split; [lia | split; [reflexivity | ]]].
  apply (ndL_send_icmp6_verifies eth0 frame_ns_bad_cksum 86 lladdr_solicitor);
    [reflexivity | lia | reflexivity].
Defined.

(** The parity matters.  A message of 87 bytes sent by [ndL_send_icmp6]
    carries the checksum that [ndL_handle_msg] expects, and is handed to the
    proxy when it comes back in, but a receiver that follows RFC 1071 finds
    its checksum wrong. *)
Lemma ndL_send_icmp6_odd_size :
  let F := frame (ndL_send_icmp6 eth0 (frame_ns ++ [Byte.x01]) 87 lladdr_solicitor) in
  let ip6h := ptr_add F sizeof_ether_header in
  let ih := ptr_add F sizeof_ndL_ip6_msg_t in
  icmp6_cksum_matches ip6h ih 33 = true
  /\ ~ icmp6_checksum_verifies ip6h ih 33
  /\ ndL_handle_msg eth0 F
     = [nd_proxy_handle_ns 1%nat addr_2001_db8_2 (solicited_node_addr addr_2001_db8_1)
          addr_2001_db8_1 (Some lladdr_solicitor)].
Proof.
  intros F ip6h ih. repeat apply conj.
  - vm_compute. reflexivity.
  - unfold icmp6_checksum_verifies. vm_compute. discriminate.
  - vm_compute. reflexivity.
Qed.

(** ** Neighbor Advertisements on the way in *)

Lemma find_first {A : Type} (f : A -> bool) (before : list A) (x : A) (after : list A) :
  (forall y, In y before -> f y = false) -> f x = true ->
  find f (before ++ x :: after) = Some x.
Proof.
  intros Hbefore Hx. induction before as [| y before IH]; cbn.
  - rewrite Hx. reflexivity.
  - rewrite (Hbefore y) by (left; reflexivity).
    apply IH. intros z Hz. apply Hbefore. right. exact Hz.
Qed.

(** X5.  An advertisement notifies at most one session: none when it is
    shorter than [struct nd_neighbor_advert] or when no session of the
    interface has the advertised target as its [real_tgt], and otherwise
    the first such session in the interface's list, and only that one. *)
Theorem ndL_handle_na_first_session (iface : nd_iface_t) (ih : mem) (len : Z) :
  let tgt := load (ptr_add ih off_nd_na_target) sizeof_in6_addr in
  (len < Z.of_nat sizeof_nd_neighbor_advert -> ndL_handle_na iface ih len = [])
  /\ ((forall s, In s (sessions iface) -> nd_addr_eq (real_tgt s) tgt = false) ->
      ndL_handle_na iface ih len = [])
  /\ (forall before s after,
        Z.of_nat sizeof_nd_neighbor_advert <= len ->
        sessions iface = before ++ s :: after ->
        (forall x, In x before -> nd_addr_eq (real_tgt x) tgt = false) ->
        nd_addr_eq (real_tgt s) tgt = true ->
        ndL_handle_na iface ih len = [nd_session_handle_na s]).
Proof.
  intros tgt. unfold ndL_handle_na. fold tgt. repeat apply conj.
  - intros Hshort. destruct (Z.ltb_spec len (Z.of_nat sizeof_nd_neighbor_advert)); [reflexivity | lia].
  - intros Hnone. destruct (len <? _); [reflexivity | ].
    unfold ND_LL_SEARCH.
    destruct (find _ (sessions iface)) as [s | ] eqn:Hfind; [ | reflexivity].
    apply find_some in Hfind. destruct Hfind as [Hin Heq].
    rewrite (Hnone s Hin) in Heq. discriminate Heq.
  - intros before s after Hlen Hsessions Hbefore Hs.
    destruct (Z.ltb_spec len (Z.of_nat sizeof_nd_neighbor_advert)); [lia | ].
    unfold ND_LL_SEARCH. rewrite Hsessions.
    rewrite (find_first (fun session => nd_addr_eq (real_tgt session) tgt)); auto.
Qed.

Lemma ndL_handle_na_first_session_witness :
  let na := ptr_add (frame (nd_iface_send_na eth0 addr_2001_db8_2 lladdr_solicitor
                              addr_2001_db8_1 false)) sizeof_ndL_ip6_msg_t in
  let s1 := {| session_id := 1; real_tgt := addr_2001_db8_2 |} in
  let s2 := {| session_id := 2; real_tgt := addr_2001_db8_1 |} in
  let s3 := {| session_id := 3; real_tgt := addr_2001_db8_1 |} in
  Z.of_nat sizeof_nd_neighbor_advert <= 32
  /\ sessions eth0_sessions = [s1] ++ s2 :: [s3]
  /\ ndL_handle_na eth0_sessions na 32 = [nd_session_handle_na s2].
Proof.
  intros na s1 s2 s3.
  assert (Hlen : Z.of_nat sizeof_nd_neighbor_advert <= 32) by (vm_compute; discriminate).
  split; [exact Hlen | split; [reflexivity | ]].
  apply (proj2 (proj2 (ndL_handle_na_first_session eth0_sessions na 32)) [s1] s2 [s3]).
  - exact Hlen.
  - reflexivity.
  - intros x [<- | []]. vm_compute. reflexivity.
  - vm_compute. reflexivity.
Defined.

(** ** No call without cause *)

Lemma ndL_handle_ns_calls (iface : nd_iface_t) (ip6h ih : mem) (len : Z) (c : call) :
  In c (ndL_handle_ns iface ip6h ih len) ->
  ndL_handle_ns iface ip6h ih len = [c]
  /\ exists pr src_ll,
       proxy iface = Some pr
       /\ c = nd_proxy_handle_ns pr
                (load (ptr_add ip6h off_ip6_src) sizeof_in6_addr)
                (load (ptr_add ip6h off_ip6_dst) sizeof_in6_addr)
                (load (ptr_add ih off_nd_ns_target) sizeof_in6_addr) src_ll.
Proof.
  unfold ndL_handle_ns.
  destruct (proxy iface) as [pr | ]; [ | intros []].
  destruct (len <? _); [intros [] | ].
  destruct (negb (nd_addr_is_unspecified _)).
  - destruct (_ <? 8); [intros [] | ].
    destruct (_ || _); [intros [] | ].
    intros [<- | []]. split; [reflexivity | eauto].
  - intros [<- | []]. split; [reflexivity | eauto].
Qed.

Lemma ndL_handle_na_one_call (iface : nd_iface_t) (ih : mem) (len : Z) (c : call) :
  In c (ndL_handle_na iface ih len) ->
  ndL_handle_na iface ih len = [c]
  /\ exists s,
       c = nd_session_handle_na s /\ In s (sessions iface)
       /\ nd_addr_eq (real_tgt s) (load (ptr_add ih off_nd_na_target) sizeof_in6_addr) = true.
Proof.
  unfold ndL_handle_na.
  destruct (len <? _); [intros [] | ].
  unfold ND_LL_SEARCH.
  destruct (find _ (sessions iface)) as [s | ] eqn:Hfind; [ | intros []].
  apply find_some in Hfind. destruct Hfind as [Hin Heq].
  intros [<- | []]. split; [reflexivity | ]. exists s. auto.
Qed.

(** X6.  One frame causes at most one call, and only with cause: the frame
    has an ICMPv6 header that [ndL_handle_msg] located and whose checksum
    matched; a call of [nd_proxy_handle_ns] goes to the proxy bound to the
    receiving interface, for a header of type 135, with source and
    destination of the IPv6 header and the target of the solicitation; a call
    of [nd_session_handle_na] is for a header of type 136 and a session of
    the receiving interface whose [real_tgt] is the advertised target. *)
Theorem ndL_handle_msg_calls (iface : nd_iface_t) (msg : mem) (c : call) :
  In c (ndL_handle_msg iface msg) ->
  ndL_handle_msg iface msg = [c]
  /\ exists ih ilen,
       ndL_locate_icmp6 msg = Some (ih, ilen)
       /\ icmp6_cksum_matches (ptr_add msg sizeof_ether_header) ih ilen = true
       /\ match c with
          | nd_proxy_handle_ns pr src dst tgt src_ll =>
              load8 ih off_icmp6_type = ND_NEIGHBOR_SOLICIT
              /\ proxy iface = Some pr
              /\ src = load (ptr_add (ptr_add msg sizeof_ether_header) off_ip6_src)
                         sizeof_in6_addr
              /\ dst = load (ptr_add (ptr_add msg sizeof_ether_header) off_ip6_dst)
                         sizeof_in6_addr
              /\ tgt = load (ptr_add ih off_nd_ns_target) sizeof_in6_addr
          | nd_session_handle_na s =>
              load8 ih off_icmp6_type = ND_NEIGHBOR_ADVERT
              /\ In s (sessions iface)
              /\ nd_addr_eq (real_tgt s)
                   (load (ptr_add ih off_nd_na_target) sizeof_in6_addr) = true
          end.
Proof.
  unfold ndL_handle_msg.
  destruct (ndL_locate_icmp6 msg) as [[ih ilen] | ]; [ | intros []].
  unfold ndL_validate, ndL_dispatch.
  destruct (icmp6_cksum_matches _ ih ilen) eqn:Hmatch; [ | intros []].
  cbn [negb].
  destruct (Z.eqb_spec (load8 ih off_icmp6_type) ND_NEIGHBOR_SOLICIT) as [Hns | Hnns].
  - intros Hin. destruct (ndL_handle_ns_calls _ _ _ _ _ Hin) as [Hone (pr & sll & Hpr & ->)].
    split; [exact Hone | ]. exists ih, ilen. auto 10.
  - destruct (Z.eqb_spec (load8 ih off_icmp6_type) ND_NEIGHBOR_ADVERT) as [Hna | Hnna];
      [ | intros []].
    intros Hin. destruct (ndL_handle_na_one_call _ _ _ _ Hin) as [Hone (s & -> & Hs & Heq)].
    split; [exact Hone | ]. exists ih, ilen. auto 10.
Qed.

Lemma ndL_handle_msg_calls_witness :
  let c := nd_proxy_handle_ns 1%nat addr_2001_db8_2 (solicited_node_addr addr_2001_db8_1)
             addr_2001_db8_1 (Some lladdr_solicitor) in
  In c (ndL_handle_msg eth0 frame_ns) /\ ndL_handle_msg eth0 frame_ns = [c].
Proof.
  intros c.
  assert (Hin : In c (ndL_handle_msg eth0 frame_ns)) by (vm_compute; left; reflexivity).
  split; [exact Hin | ].
  exact (proj1 (ndL_handle_msg_calls eth0 frame_ns c Hin)).
Defined.

(** ** Reads stay inside the frame *)

Lemma ptr_add_app (d t : mem) (k : nat) :
  (k <= length d)%nat -> ptr_add (d ++ t) k = ptr_add d k ++ t.
Proof.
  intros H. unfold ptr_add. rewrite skipn_app.
  replace (k - length d)%nat with 0%nat by lia. reflexivity.
Qed.

Lemma load_app (d t : mem) (n : nat) :
  (n <= length d)%nat -> load (d ++ t) n = load d n.
Proof.
  intros H. unfold load. rewrite firstn_app.
  replace (n - length d)%nat with 0%nat by lia. cbn. apply app_nil_r.
Qed.

Lemma load8_app (d t : mem) (off : nat) :
  (off < length d)%nat -> load8 (d ++ t) off = load8 d off.
Proof. intros H. unfold load8. rewrite app_nth1 by exact H. reflexivity. Qed.

Lemma load16_app (d t : mem) (off : nat) :
  (off + 1 < length d)%nat -> load16 (d ++ t) off = load16 d off.
Proof. intros H. unfold load16. rewrite !load8_app by lia. reflexivity. Qed.

Lemma length_ptr_add (p : mem) (k : nat) : length (ptr_add p k) = (length p - k)%nat.
Proof. apply length_skipn. Qed.

Lemma load_ptr_add_app (d t : mem) (k n : nat) :
  (k + n <= length d)%nat -> load (ptr_add (d ++ t) k) n = load (ptr_add d k) n.
Proof.
  intros H. rewrite ptr_add_app by lia. apply load_app.
  rewrite length_ptr_add. lia.
Qed.

Lemma load8_ptr_add_app (d t : mem) (k off : nat) :
  (k + off < length d)%nat -> load8 (ptr_add (d ++ t) k) off = load8 (ptr_add d k) off.
Proof.
  intros H. rewrite ptr_add_app by lia. apply load8_app.
  rewrite length_ptr_add. lia.
Qed.

(** The checksum of a message of [size] bytes reads the forty bytes of the
    IPv6 header and the [size] bytes of the message, and nothing behind
    them. *)
Lemma ndL_calculate_icmp6_checksum_app (ip6h ih t1 t2 : mem) (size : Z) :
  (40 <= length ip6h)%nat ->
  8 <= size < 2 ^ 64 ->
  Z.of_nat (length ih) = size ->
  ndL_calculate_icmp6_checksum (ip6h ++ t1) (ih ++ t2) size
  = ndL_calculate_icmp6_checksum ip6h ih size.
Proof.
  intros Hip Hsize Hih. unfold ndL_calculate_icmp6_checksum.
  rewrite !load_ptr_add_app by (layout; lia).
  rewrite (load_app ih) by (layout; lia).
  change (Z.of_nat sizeof_icmp6_hdr) with 8.
  rewrite (Z.mod_small (size - 8)) by lia.
  unfold ndL_calculate_checksum at 1 3.
  rewrite (load_ptr_add_app ih) by (layout; lia).
  reflexivity.
Qed.

Lemma ndL_handle_ns_app (iface : nd_iface_t) (ip6h ih t1 t2 : mem) (len : Z) :
  (40 <= length ip6h)%nat ->
  len < 2 ^ 64 ->
  Z.of_nat (length ih) = len ->
  ndL_handle_ns iface (ip6h ++ t1) (ih ++ t2) len = ndL_handle_ns iface ip6h ih len.
Proof.
  intros Hip Hmax Hih. unfold ndL_handle_ns.
  destruct (proxy iface) as [pr | ]; [ | reflexivity].
  change (Z.of_nat sizeof_nd_neighbor_solicit) with 24.
  destruct (Z.ltb_spec len 24) as [Hshort | Hlen]; [reflexivity | ].
  rewrite !(load_ptr_add_app ip6h) by (layout; lia).
  rewrite (load_ptr_add_app ih) by (layout; lia).
  destruct (negb (nd_addr_is_unspecified _)); [ | reflexivity].
  rewrite (Z.mod_small (len - 24)) by lia.
  destruct (Z.ltb_spec (len - 24) 8) as [Hnoopt | Hopt]; [reflexivity | ].
  rewrite !(load8_ptr_add_app ih) by (layout; lia).
  destruct (_ || _); [reflexivity | ].
  do 3 f_equal.
  rewrite (ptr_add_app ih) by (layout; lia).
  apply load_ptr_add_app.
  rewrite length_ptr_add. layout. lia.
Qed.

Lemma ndL_handle_na_app (iface : nd_iface_t) (ih t : mem) (len : Z) :
  Z.of_nat (length ih) = len ->
  ndL_handle_na iface (ih ++ t) len = ndL_handle_na iface ih len.
Proof.
  intros Hih. unfold ndL_handle_na.
  change (Z.of_nat sizeof_nd_neighbor_advert) with 24.
  destruct (Z.ltb_spec len 24) as [Hshort | Hlen]; [reflexivity | ].
  rewrite (load_ptr_add_app ih) by (layout; lia). reflexivity.
Qed.

(** [ndL_handle_msg] on a frame that does not announce a Hop-by-Hop header
    and whose payload length is that of the frame: what follows the frame in
    memory plays no part. *)
Lemma ndL_handle_msg_app (iface : nd_iface_t) (data t : mem) :
  let ip6h := ptr_add data sizeof_ether_header in
  load8 ip6h off_ip6_nxt <> IPPROTO_HOPOPTS ->
  load16 ip6h off_ip6_plen = Z.of_nat (length data) - Z.of_nat sizeof_ndL_ip6_msg_t ->
  ndL_handle_msg iface (data ++ t) = ndL_handle_msg iface data.
Proof.
  intros ip6h Hnxt Hplen.
  pose proof (load16_range ip6h off_ip6_plen) as Hrange.
  change (Z.of_nat sizeof_ndL_ip6_msg_t) with 54 in Hplen.
  assert (Hlen : (54 <= length data)%nat) by lia.
  unfold ndL_handle_msg, ndL_locate_icmp6, ndL_skip_headers.
  rewrite (ptr_add_app data t sizeof_ether_header) by (layout; lia).
  rewrite !load16_app by (rewrite length_ptr_add; layout; lia).
  rewrite !load8_app by (rewrite length_ptr_add; layout; lia).
  fold ip6h.
  destruct (Z.eqb_spec (load8 ip6h off_ip6_nxt) IPPROTO_HOPOPTS) as [Hhop | _];
    [contradiction | ].
  destruct (load8 ip6h off_ip6_nxt =? IPPROTO_ICMPV6); [ | reflexivity].
  cbv iota beta delta [negb]. rewrite Z.sub_0_r.
  set (plen := load16 ip6h off_ip6_plen) in *.
  rewrite (Z.mod_small plen (2 ^ 64)) by lia.
  rewrite (Z.mod_small plen (2 ^ 16)) by lia.
  change (Z.of_nat sizeof_icmp6_hdr) with 8.
  destruct (Z.ltb_spec plen 8) as [Hshort | Hroom]; [reflexivity | ].
  unfold ndL_icmp6_hdr.
  change (sizeof_icmp6_hdr * Z.to_nat 0)%nat with 0%nat.
  change (ptr_add (ptr_add (data ++ t) sizeof_ndL_ip6_msg_t) 0)
    with (ptr_add (data ++ t) sizeof_ndL_ip6_msg_t).
  change (ptr_add (ptr_add data sizeof_ndL_ip6_msg_t) 0)
    with (ptr_add data sizeof_ndL_ip6_msg_t).
  rewrite (ptr_add_app data t sizeof_ndL_ip6_msg_t) by (layout; lia).
  set (ih := ptr_add data sizeof_ndL_ip6_msg_t).
  assert (Hih : Z.of_nat (length ih) = plen)
    by (unfold ih; rewrite length_ptr_add; layout; lia).
  assert (Hip : (40 <= length ip6h)%nat)
    by (unfold ip6h; rewrite length_ptr_add; layout; lia).
  unfold ndL_validate, icmp6_cksum_matches.
  rewrite ndL_calculate_icmp6_checksum_app by (assumption || lia).
  rewrite (load16_app ih) by (layout; lia).
  destruct (negb _); [reflexivity | ].
  unfold ndL_dispatch.
  rewrite (load8_app ih) by (layout; lia).
  rewrite ndL_handle_ns_app by (assumption || lia).
  rewrite ndL_handle_na_app by assumption.
  reflexivity.
Qed.

(** X7.  For a frame that does not announce a Hop-by-Hop header and whose
    [ip6_plen] is the frame length minus the two headers, which is what
    [ndL_io_handler] has checked when it calls [ndL_handle_msg], the outcome
    depends on the bytes of the frame only: whatever lies behind the frame in
    the receive buffer is never looked at. *)
Theorem ndL_handle_msg_frame_only (iface : nd_iface_t) (data tail1 tail2 : mem) :
  let ip6h := ptr_add data sizeof_ether_header in
  load8 ip6h off_ip6_nxt <> IPPROTO_HOPOPTS ->
  load16 ip6h off_ip6_plen = Z.of_nat (length data) - Z.of_nat sizeof_ndL_ip6_msg_t ->
  ndL_handle_msg iface (data ++ tail1) = ndL_handle_msg iface (data ++ tail2).
Proof.
  intros ip6h Hnxt Hplen.
  rewrite !ndL_handle_msg_app by assumption. reflexivity.
Qed.

Lemma ndL_handle_msg_frame_only_witness :
  load8 (ptr_add frame_ns sizeof_ether_header) off_ip6_nxt <> IPPROTO_HOPOPTS
  /\ load16 (ptr_add frame_ns sizeof_ether_header) off_ip6_plen
     = Z.of_nat (length frame_ns) - Z.of_nat sizeof_ndL_ip6_msg_t
  /\ ndL_handle_msg eth0 (frame_ns ++ repeat Byte.x00 938)
     = ndL_handle_msg eth0 (frame_ns ++ repeat Byte.xff 938).
Proof.
  assert (Hnxt : load8 (ptr_add frame_ns sizeof_ether_header) off_ip6_nxt
                 <> IPPROTO_HOPOPTS) by (vm_compute; discriminate).
  split; [exact Hnxt | split; [reflexivity | ]].
  apply (ndL_handle_msg_frame_only eth0 frame_ns); [exact Hnxt | reflexivity].
Defined.

(** ** What the socket filter lets through *)

Lemma load8_ptr_add (p : mem) (k off : nat) : load8 (ptr_add p k) off = load8 p (k + off).
Proof. unfold load8, ptr_add. rewrite nth_skipn. reflexivity. Qed.

Lemma load16_ptr_add (p : mem) (k off : nat) : load16 (ptr_add p k) off = load16 p (k + off).
Proof. unfold load16. rewrite !load8_ptr_add, Nat.add_assoc. reflexivity. Qed.

Lemma bpf_filter_step (fuel : nat) (prog : list sock_filter) (pc : nat) (A : Z)
    (pkt : list byte) :
  bpf_filter (S fuel) prog pc A pkt
  = match nth_error prog pc with
    | None => None
    | Some (BPF_LD_H_ABS k) =>
        if (k + 2 <=? length pkt)%nat
        then bpf_filter fuel prog (S pc) (load16 pkt k) pkt
        else Some 0
    | Some (BPF_LD_B_ABS k) =>
        if (k + 1 <=? length pkt)%nat
        then bpf_filter fuel prog (S pc) (load8 pkt k) pkt
        else Some 0
    | Some (BPF_JEQ_K k jt jf) =>
        bpf_filter fuel prog (S pc + (if A =? k then jt else jf)) A pkt
    | Some (BPF_RET_K k) => Some k
    end.
Proof. reflexivity. Qed.

(** The run of the filter, instruction by instruction. *)
Lemma ndL_filter_run_eq (pkt : list byte) :
  ndL_filter_run pkt
  = if (14 <=? length pkt)%nat then
      if load16 pkt 12 =? ETHERTYPE_IPV6 then
        if (21 <=? length pkt)%nat then
          if load8 pkt 20 =? IPPROTO_ICMPV6 then
            if (55 <=? length pkt)%nat then
              if load8 pkt 54 =? ND_NEIGHBOR_SOLICIT then Some 0xffffffff
              else if load8 pkt 54 =? ND_NEIGHBOR_ADVERT then Some 0xffffffff
              else Some 0
            else Some 0
          else Some 0
        else Some 0
      else Some 0
    else Some 0.
Proof.
  unfold ndL_filter_run.
  set (prog := ndL_filter).
  assert (I0 : nth_error prog 0 = Some (BPF_LD_H_ABS 12)) by reflexivity.
  assert (I1 : nth_error prog 1 = Some (BPF_JEQ_K ETHERTYPE_IPV6 0 5)) by reflexivity.
  assert (I2 : nth_error prog 2 = Some (BPF_LD_B_ABS 20)) by reflexivity.
  assert (I3 : nth_error prog 3 = Some (BPF_JEQ_K IPPROTO_ICMPV6 0 3)) by reflexivity.
  assert (I4 : nth_error prog 4 = Some (BPF_LD_B_ABS 54)) by reflexivity.
  assert (I5 : nth_error prog 5 = Some (BPF_JEQ_K ND_NEIGHBOR_SOLICIT 2 0)) by reflexivity.
  assert (I6 : nth_error prog 6 = Some (BPF_JEQ_K ND_NEIGHBOR_ADVERT 1 0)) by reflexivity.
  assert (I7 : nth_error prog 7 = Some (BPF_RET_K 0)) by reflexivity.
  assert (I8 : nth_error prog 8 = Some (BPF_RET_K 0xffffffff)) by reflexivity.
  clearbody prog.
  rewrite bpf_filter_step, I0. change (12 + 2)%nat with 14%nat.
  destruct (14 <=? length pkt)%nat; [ | reflexivity].
  rewrite bpf_filter_step, I1.
  destruct (load16 pkt 12 =? ETHERTYPE_IPV6); cbn [Nat.add];
    [ | rewrite bpf_filter_step, I7; reflexivity].
  rewrite bpf_filter_step, I2. change (20 + 1)%nat with 21%nat.
  destruct (21 <=? length pkt)%nat; [ | reflexivity].
  rewrite bpf_filter_step, I3.
  destruct (load8 pkt 20 =? IPPROTO_ICMPV6); cbn [Nat.add];
    [ | rewrite bpf_filter_step, I7; reflexivity].
  rewrite bpf_filter_step, I4. change (54 + 1)%nat with 55%nat.
  destruct (55 <=? length pkt)%nat; [ | reflexivity].
  rewrite bpf_filter_step, I5.
  destruct (load8 pkt 54 =? ND_NEIGHBOR_SOLICIT); cbn [Nat.add];
    [rewrite bpf_filter_step, I8; reflexivity | ].
  rewrite bpf_filter_step, I6.
  destruct (load8 pkt 54 =? ND_NEIGHBOR_ADVERT); cbn [Nat.add].
  - rewrite bpf_filter_step, I8. reflexivity.
  - rewrite bpf_filter_step, I7. reflexivity.
Qed.

(** What a kept frame is. *)
Lemma ndL_filter_run_kept (pkt : list byte) :
  ndL_filter_run pkt = Some 0xffffffff <->
  (54 < length pkt)%nat
  /\ load16 pkt 12 = ETHERTYPE_IPV6
  /\ load8 pkt 20 = IPPROTO_ICMPV6
  /\ (load8 pkt 54 = ND_NEIGHBOR_SOLICIT \/ load8 pkt 54 = ND_NEIGHBOR_ADVERT).
Proof.
  rewrite ndL_filter_run_eq.
  destruct (Nat.leb_spec 14 (length pkt)); [ | split; [discriminate | lia]].
  destruct (Z.eqb_spec (load16 pkt 12) ETHERTYPE_IPV6); [ | split; [discriminate | tauto]].
  destruct (Nat.leb_spec 21 (length pkt)); [ | split; [discriminate | lia]].
  destruct (Z.eqb_spec (load8 pkt 20) IPPROTO_ICMPV6); [ | split; [discriminate | tauto]].
  destruct (Nat.leb_spec 55 (length pkt)); [ | split; [discriminate | lia]].
  destruct (Z.eqb_spec (load8 pkt 54) ND_NEIGHBOR_SOLICIT).
  - split; [intros _ | reflexivity]. repeat apply conj; auto; lia.
  - destruct (Z.eqb_spec (load8 pkt 54) ND_NEIGHBOR_ADVERT).
    + split; [intros _ | reflexivity]. repeat apply conj; auto; lia.
    + split; [discriminate | tauto].
Qed.

(** X8.  The filter of [ndL_configure_filter] always comes to a verdict, and
    it keeps a frame, whole, exactly when the frame reaches up to the ICMPv6
    type byte, its Ethernet type is IPv6, the next header of its IPv6 header
    is ICMPv6, and the type is Neighbor Solicitation or Neighbor
    Advertisement; every other frame is dropped. *)
Theorem ndL_filter_keeps_ns_na (pkt : list byte) :
  let ip6h := ptr_add pkt sizeof_ether_header in
  let ih := ptr_add pkt sizeof_ndL_ip6_msg_t in
  (ndL_filter_run pkt = Some 0xffffffff \/ ndL_filter_run pkt = Some 0)
  /\ (ndL_filter_run pkt = Some 0xffffffff <->
      (sizeof_ndL_ip6_msg_t < length pkt)%nat
      /\ load16 pkt off_ether_type = ETHERTYPE_IPV6
      /\ load8 ip6h off_ip6_nxt = IPPROTO_ICMPV6
      /\ (load8 ih off_icmp6_type = ND_NEIGHBOR_SOLICIT
          \/ load8 ih off_icmp6_type = ND_NEIGHBOR_ADVERT)).
Proof.
  intros ip6h ih. unfold ip6h, ih.
  rewrite !load8_ptr_add.
  change (sizeof_ether_header + off_ip6_nxt)%nat with 20%nat.
  change (sizeof_ndL_ip6_msg_t + off_icmp6_type)%nat with 54%nat.
  change sizeof_ndL_ip6_msg_t with 54%nat.
  change off_ether_type with 12%nat.
  split; [ | apply ndL_filter_run_kept].
  rewrite ndL_filter_run_eq.
  repeat match goal with
         | |- context [if ?c then _ else _] => destruct c
         end; auto.
Qed.

Lemma ndL_filter_keeps_ns_na_witness :
  ndL_filter_run frame_ns = Some 0xffffffff
  /\ load8 (ptr_add frame_ns sizeof_ndL_ip6_msg_t) off_icmp6_type = ND_NEIGHBOR_SOLICIT.
Proof.
  assert (Hrun : ndL_filter_run frame_ns = Some 0xffffffff) by reflexivity.
  split; [exact Hrun | ].
  destruct (proj1 (proj2 (ndL_filter_keeps_ns_na frame_ns)) Hrun)
    as (_ & _ & _ & [Hns | Hna]); [exact Hns | discriminate Hna].
Defined.

(** X9.  On a frame that the filter keeps, [ndL_handle_msg] never enters the
    loop over Hop-by-Hop headers: it takes the ICMPv6 header right behind
    the IPv6 header, which is where reading it at the byte offset of the
    skipped options takes it too, and does what that reading does. *)
Theorem ndL_handle_msg_filtered (iface : nd_iface_t) (msg : mem) :
  ndL_filter_run msg = Some 0xffffffff ->
  ndL_skip_headers msg = Some 0
  /\ ndL_icmp6_hdr msg 0 = icmp6_hdr_at_byte_offset msg 0
  /\ ndL_handle_msg iface msg = handle_msg_at_byte_offset iface msg.
Proof.
  intros Hrun.
  destruct (proj1 (ndL_filter_run_kept msg) Hrun) as (_ & _ & Hnxt & _).
  assert (Hskip : ndL_skip_headers msg = Some 0).
  { unfold ndL_skip_headers. rewrite load8_ptr_add.
    change (sizeof_ether_header + off_ip6_nxt)%nat with 20%nat.
    rewrite Hnxt. reflexivity. }
  repeat apply conj.
  - exact Hskip.
  - reflexivity.
  - unfold ndL_handle_msg, ndL_locate_icmp6, handle_msg_at_byte_offset.
    rewrite Hskip. destruct (_ <? _); reflexivity.
Qed.

Lemma ndL_handle_msg_filtered_witness :
  ndL_filter_run frame_ns = Some 0xffffffff
  /\ ndL_handle_msg eth0 frame_ns = handle_msg_at_byte_offset eth0 frame_ns.
Proof.
  split; [reflexivity | ].
  apply (ndL_handle_msg_filtered eth0 frame_ns). reflexivity.
Defined.

(** ** The receive loop *)

Lemma store_0 (buf data : mem) : store buf 0 data = data ++ ptr_add buf (length data).
Proof. reflexivity. Qed.

Section ReceiveLoop.
Variable world : Type.
Variable do_handle_ns :
  nd_proxy_t -> nd_addr_t -> nd_addr_t -> nd_addr_t -> option (list byte) -> world -> world.
Variable do_handle_na : nd_session_t -> world -> world.
Variable first_iface : world -> list nd_iface_t.

(** One datagram: what the loop does with it rests on its own bytes when it
    does not announce a Hop-by-Hop header. *)
Lemma ndL_io_handler_frame (ifindex : Z) (data : list byte) (results : list recv_result)
    (buf : mem) (w : world) :
  fits_buf (recv_frame ifindex data) ->
  without_hopopts (recv_frame ifindex data) ->
  ndL_io_handler world do_handle_ns do_handle_na first_iface
    (recv_frame ifindex data :: results) buf w
  = let len := Z.of_nat (length data) in
    let buf' := store buf 0 data in
    if len =? 0 then w
    else if len <? 54 then
      ndL_io_handler world do_handle_ns do_handle_na first_iface results buf' w
    else if negb (load16 data off_ether_type =? ETHERTYPE_IPV6) then
      ndL_io_handler world do_handle_ns do_handle_na first_iface results buf' w
    else if negb (load16 (ptr_add data sizeof_ether_header) off_ip6_plen =? len - 54) then
      ndL_io_handler world do_handle_ns do_handle_na first_iface results buf' w
    else
      match ND_LL_SEARCH (first_iface w)
              (fun iface => index iface =? ifindex mod 2 ^ 32) with
      | Some iface =>
          ndL_io_handler world do_handle_ns do_handle_na first_iface results buf'
            (perform_all world do_handle_ns do_handle_na (ndL_handle_msg iface data) w)
      | None =>
          ndL_io_handler world do_handle_ns do_handle_na first_iface results buf' w
      end.
Proof.
  intros Hfits Hnohop. cbn [without_hopopts fits_buf] in Hnohop, Hfits.
  unfold sizeof_buf in Hfits.
  cbn [ndL_io_handler]. cbv zeta.
  change (Z.of_nat sizeof_ndL_ip6_msg_t) with 54.
  destruct (Z.of_nat (length data) =? 0); [reflexivity | ].
  rewrite (Z.mod_small (Z.of_nat (length data))) by lia.
  destruct (Z.ltb_spec (Z.of_nat (length data)) 54) as [Hshort | Hlen]; [reflexivity | ].
  rewrite (Z.mod_small (Z.of_nat (length data) - 54)) by lia.
  rewrite store_0.
  rewrite load16_app by (layout; lia).
  destruct (negb (load16 data off_ether_type =? ETHERTYPE_IPV6)); [reflexivity | ].
  rewrite ptr_add_app by (layout; lia).
  rewrite load16_app by (rewrite length_ptr_add; layout; lia).
  destruct (Z.eqb_spec (load16 (ptr_add data sizeof_ether_header) off_ip6_plen)
              (Z.of_nat (length data) - 54)) as [Hplen | Hplen]; [ | reflexivity].
  cbn [negb].
  destruct (ND_LL_SEARCH _ _) as [iface | ]; [ | reflexivity].
  rewrite ndL_handle_msg_app; [reflexivity | | exact Hplen].
  apply Hnohop. layout. lia.
Qed.

(** X10.  The receive buffer is never cleared, but as long as no datagram
    announces a Hop-by-Hop header nothing of what an earlier datagram, or
    nobody, left in it is ever used: the state the loop ends in is the same
    for every content of the buffer at the start. *)
Theorem ndL_io_handler_buffer (results : list recv_result) (buf1 buf2 : mem) (w : world) :
  Forall fits_buf results ->
  Forall without_hopopts results ->
  ndL_io_handler world do_handle_ns do_handle_na first_iface results buf1 w
  = ndL_io_handler world do_handle_ns do_handle_na first_iface results buf2 w.
Proof.
  intros Hfits Hnohop. revert buf1 buf2 w.
  induction results as [| r results IH]; intros buf1 buf2 w; [reflexivity | ].
  inversion Hfits as [| ? ? Hf Hfs]; subst.
  inversion Hnohop as [| ? ? Hn Hns]; subst.
  specialize (IH Hfs Hns).
  destruct r as [| ifindex data]; [reflexivity | ].
  rewrite !ndL_io_handler_frame by assumption. cbv zeta.
  destruct (_ =? 0); [reflexivity | ].
  destruct (_ <? 54); [apply IH | ].
  destruct (negb _); [apply IH | ].
  destruct (negb _); [apply IH | ].
  destruct (ND_LL_SEARCH _ _); apply IH.
Qed.
End ReceiveLoop.

Lemma ndL_io_handler_buffer_witness :
  let results := [recv_frame 2 frame_ns; recv_frame 3 frame_ns_two_options; recv_error] in
  let log := fun c (w : list call) => w ++ [c] in
  let handle_ns := fun p src dst tgt ll => log (nd_proxy_handle_ns p src dst tgt ll) in
  let handle_na := fun s => log (nd_session_handle_na s) in
  Forall fits_buf results
  /\ Forall without_hopopts results
  /\ ndL_io_handler (list call) handle_ns handle_na (fun _ => [eth1; eth0]) results
       (repeat Byte.xff 1024) []
     = ndL_io_handler (list call) handle_ns handle_na (fun _ => [eth1; eth0]) results
         (repeat Byte.x00 1024) [].
Proof.
  intros results log handle_ns handle_na.
  assert (Hfits : Forall fits_buf results)
    by (repeat constructor; unfold sizeof_buf; simpl; lia).
  assert (Hnohop : Forall without_hopopts results)
    by (repeat constructor; intros _; vm_compute; discriminate).
  split; [exact Hfits | split; [exact Hnohop | ]].
  apply (ndL_io_handler_buffer (list call) handle_ns handle_na (fun _ => [eth1; eth0])
           results _ _ [] Hfits Hnohop).
Defined.

(** Without that condition the buffer does matter.  A frame with one
    Hop-by-Hop header in front of its solicitation has the ICMPv6 header
    looked for 64 bytes behind the IPv6 header, beyond the 94 bytes of the
    frame: in a clean buffer nothing is found there and the frame is
    dropped, in a buffer where an earlier datagram has left a solicitation
    at that place, that old solicitation is handed to the proxy. *)
Lemma ndL_io_handler_stale_hopopts :
  let results := [recv_frame 2 frame_ns_hopopts] in
  let log := fun c (w : list call) => w ++ [c] in
  let handle_ns := fun p src dst tgt ll => log (nd_proxy_handle_ns p src dst tgt ll) in
  let handle_na := fun s => log (nd_session_handle_na s) in
  ~ without_hopopts (recv_frame 2 frame_ns_hopopts)
  /\ ndL_io_handler (list call) handle_ns handle_na (fun _ => [eth0]) results
       (repeat Byte.x00 1024) [] = []
  /\ ndL_io_handler (list call) handle_ns handle_na (fun _ => [eth0]) results
       buffer_stale []
     = [nd_proxy_handle_ns 1%nat addr_2001_db8_2 (solicited_node_addr addr_2001_db8_1)
          (bytes [0x20; 0x01; 0x0d; 0xb8; 0; 0; 0; 0; 0; 0; 0; 0; 0; 0; 0; 0x03])
          (Some (bytes [0x0a; 0x0b; 0x0c; 0x0d; 0x0e; 0x0f]))].
Proof.
  intros results log handle_ns handle_na.
  repeat apply conj.
  - intros H. apply H; [vm_compute; lia | reflexivity].
  - vm_compute. reflexivity.
  - vm_compute. reflexivity.
Qed.

(** ** The frames of [nd_iface_send_na] and [nd_iface_send_ns], byte by byte *)

(** The advertisement as it goes out; [c0 c1] is the checksum and [f] the
    byte with the flags. *)
Lemma nd_iface_send_na_bytes
    (iface : nd_iface_t) (dst : nd_addr_t) (dst_ll : mem) (tgt : nd_addr_t) (router : bool) :
  length (lladdr iface) = 6%nat ->
  length dst = 16%nat ->
  length tgt = 16%nat ->
  (6 <= length dst_ll)%nat ->
  exists c0 c1 f,
    frame (nd_iface_send_na iface dst dst_ll tgt router)
    = load dst_ll 6 ++ lladdr iface ++ bytes [0x86; 0xdd]
      ++ bytes [0x60; 0; 0; 0; 0; 32; 58; 255] ++ tgt ++ dst
      ++ bytes [136; 0] ++ [c0; c1; f] ++ bytes [0; 0; 0] ++ tgt
      ++ bytes [2; 1] ++ lladdr iface.
Proof.
  intros Hll Hdst Htgt Hdll.
  unfold nd_iface_send_na. sent_frame.
  destruct (nd_addr_is_multicast dst); destruct router;
    destruct (lladdr iface) as [| l0 ll]; try discriminate Hll;
    explode_all ll by Hll 5; explode_all dst by Hdst 16;
    explode_all tgt by Htgt 16; explode dst_ll by Hdll 6;
    wire;
    match goal with
    | |- context [ndL_calculate_icmp6_checksum ?a ?b ?c] =>
        generalize (ndL_calculate_icmp6_checksum a b c); intros ck
    end;
    generalize (byte.of_Z (Z.shiftr ck 8)), (byte.of_Z ck); intros c0 c1;
    exists c0, c1; eexists; vm_compute; reflexivity.
Qed.

(** The solicitation as it goes out; [c0 c1] is the checksum. *)
Lemma nd_iface_send_ns_bytes (iface : nd_iface_t) (tgt : nd_addr_t) :
  length (lladdr iface) = 6%nat ->
  length tgt = 16%nat ->
  exists c0 c1,
    frame (nd_iface_send_ns iface tgt)
    = bytes [0x33; 0x33] ++ load (ptr_add tgt 12) 4 ++ lladdr iface ++ bytes [0x86; 0xdd]
      ++ bytes [0x60; 0; 0; 0; 0; 32; 58; 255]
      ++ ndL_get_local_addr iface (repeat Byte.x00 16)
      ++ bytes [0xff; 0x02; 0; 0; 0; 0; 0; 0; 0; 0; 0; 0x01; 0xff] ++ load (ptr_add tgt 13) 3
      ++ bytes [135; 0] ++ [c0; c1] ++ bytes [0; 0; 0; 0] ++ tgt
      ++ bytes [1; 1] ++ lladdr iface.
Proof.
  intros Hll Htgt.
  unfold nd_iface_send_ns, ndL_get_local_addr. sent_frame.
  destruct (lladdr iface) as [| l0 ll]; try discriminate Hll.
  explode_all ll by Hll 5. explode_all tgt by Htgt 16.
  wire.
  match goal with
  | |- context [ndL_calculate_icmp6_checksum ?a ?b ?c] =>
      generalize (ndL_calculate_icmp6_checksum a b c); intros ck
  end.
  generalize (byte.of_Z (Z.shiftr ck 8)), (byte.of_Z ck). intros c0 c1.
  exists c0, c1.
  rewrite !byte.of_Z_unsigned.
  generalize (byte.of_Z (Z.lxor (byte.unsigned l0) 2)). intros e0.
  vm_compute. reflexivity.
Qed.

(** Evaluate the field accessors of a frame. *)
Ltac fields :=
  unfold ether_dhost, ether_shost, ether_type, ip6_src, ip6_dst, icmp6_type, icmp6_code,
    nd_ns_reserved, nd_target, nd_opt_type, nd_opt_len, nd_opt_lladdr.

(** X11.  The advertisement that [nd_iface_send_na] hands over, field by
    field: it leaves on [iface], has 86 bytes, goes from the link-layer
    address of the interface to [dst_ll] with Ethernet type IPv6, from the
    IPv6 address [tgt], the advertised target itself, to [dst]; it is an
    ICMPv6 message of type 136 and code 0 for the target [tgt], followed by
    one Target Link-Layer Address option of length 1 that holds the
    link-layer address of the interface. *)
Theorem nd_iface_send_na_fields
    (iface : nd_iface_t) (dst : nd_addr_t) (dst_ll : mem) (tgt : nd_addr_t) (router : bool) :
  length (lladdr iface) = 6%nat ->
  length dst = 16%nat ->
  length tgt = 16%nat ->
  (6 <= length dst_ll)%nat ->
  let s := nd_iface_send_na iface dst dst_ll tgt router in
  sll_ifindex s = index iface
  /\ length (frame s) = sizeof_nd_msg
  /\ ether_dhost s = load dst_ll ETHER_ADDR_LEN
  /\ ether_shost s = lladdr iface
  /\ ether_type s = ETHERTYPE_IPV6
  /\ ip6_src s = tgt
  /\ ip6_dst s = dst
  /\ icmp6_type s = ND_NEIGHBOR_ADVERT
  /\ icmp6_code s = 0
  /\ nd_target s = tgt
  /\ nd_opt_type s = ND_OPT_TARGET_LINKADDR
  /\ nd_opt_len s = 1
  /\ nd_opt_lladdr s = lladdr iface.
Proof.
  intros Hll Hdst Htgt Hdll s.
  split; [reflexivity | ].
  destruct (nd_iface_send_na_bytes iface dst dst_ll tgt router Hll Hdst Htgt Hdll)
    as (c0 & c1 & f & Hframe).
  fields. unfold s. rewrite Hframe. clear Hframe s.
  destruct (lladdr iface) as [| l0 ll]; try discriminate Hll.
  explode_all ll by Hll 5. explode_all dst by Hdst 16.
  explode_all tgt by Htgt 16. explode dst_ll by Hdll 6.
  wire. repeat apply conj; reflexivity.
Qed.

Lemma nd_iface_send_na_fields_witness :
  length (lladdr eth0) = 6%nat
  /\ length addr_2001_db8_2 = 16%nat
  /\ length addr_2001_db8_1 = 16%nat
  /\ (6 <= length lladdr_solicitor)%nat
  /\ ip6_src (nd_iface_send_na eth0 addr_2001_db8_2 lladdr_solicitor addr_2001_db8_1 false)
     = addr_2001_db8_1.
Proof.
  repeat (split; [reflexivity || (simpl; lia) | ]).
  refine (proj1 (proj2 (proj2 (proj2 (proj2 (proj2
    (nd_iface_send_na_fields eth0 addr_2001_db8_2 lladdr_solicitor addr_2001_db8_1 false
       _ _ _ _))))))).
  - reflexivity.
  - reflexivity.
  - reflexivity.
  - simpl. lia.
Defined.

(** X12.  An advertisement of [nd_iface_send_na], taken in by
    [ndL_handle_msg] on an interface [rx], passes the checksum comparison
    and notifies the first session of [rx] whose [real_tgt] is the
    advertised target [tgt], or nobody when [rx] has no such session. *)
Theorem nd_iface_send_na_received
    (iface rx : nd_iface_t) (dst : nd_addr_t) (dst_ll : mem) (tgt : nd_addr_t)
    (router : bool) :
  length (lladdr iface) = 6%nat ->
  length dst = 16%nat ->
  length tgt = 16%nat ->
  (6 <= length dst_ll)%nat ->
  ndL_handle_msg rx (frame (nd_iface_send_na iface dst dst_ll tgt router))
  = match ND_LL_SEARCH (sessions rx) (fun session => nd_addr_eq (real_tgt session) tgt) with
    | None => []
    | Some session => [nd_session_handle_na session]
    end.
Proof.
  intros Hll Hdst Htgt Hdll.
  rewrite nd_iface_send_na_checksum_verifies.
  destruct (nd_iface_send_na_bytes iface dst dst_ll tgt router Hll Hdst Htgt Hdll)
    as (c0 & c1 & f & Hframe).
  rewrite Hframe. clear Hframe.
  unfold ndL_dispatch, ndL_handle_na.
  destruct (lladdr iface) as [| l0 ll]; try discriminate Hll.
  explode_all ll by Hll 5. explode_all dst by Hdst 16.
  explode_all tgt by Htgt 16. explode dst_ll by Hdll 6.
  wire. reflexivity.
Qed.

Lemma nd_iface_send_na_received_witness :
  length (lladdr eth0) = 6%nat
  /\ length addr_2001_db8_2 = 16%nat
  /\ length addr_2001_db8_1 = 16%nat
  /\ (6 <= length lladdr_solicitor)%nat
  /\ ndL_handle_msg eth0_sessions
       (frame (nd_iface_send_na eth0 addr_2001_db8_2 lladdr_solicitor addr_2001_db8_1 false))
     = [nd_session_handle_na {| session_id := 2; real_tgt := addr_2001_db8_1 |}].
Proof.
  repeat (split; [reflexivity || (simpl; lia) | ]).
  refine (eq_trans
    (nd_iface_send_na_received eth0 eth0_sessions addr_2001_db8_2 lladdr_solicitor
       addr_2001_db8_1 false _ _ _ _) _).
  - reflexivity.
  - reflexivity.
  - reflexivity.
  - simpl. lia.
  - reflexivity.
Defined.

(** X13.  The solicitation that [nd_iface_send_ns] hands over, field by
    field, next to its addresses: it leaves on [iface], has 86 bytes, comes
    from the link-layer address of the interface with Ethernet type IPv6,
    and is an ICMPv6 message of type 135 and code 0 with a zero reserved
    field for the target [tgt], followed by one Source Link-Layer Address
    option of length 1 that holds the link-layer address of the
    interface. *)
Theorem nd_iface_send_ns_fields (iface : nd_iface_t) (tgt : nd_addr_t) :
  length (lladdr iface) = 6%nat ->
  length tgt = 16%nat ->
  let s := nd_iface_send_ns iface tgt in
  sll_ifindex s = index iface
  /\ length (frame s) = sizeof_nd_msg
  /\ ether_shost s = lladdr iface
  /\ ether_type s = ETHERTYPE_IPV6
  /\ icmp6_type s = ND_NEIGHBOR_SOLICIT
  /\ icmp6_code s = 0
  /\ nd_ns_reserved s = 0
  /\ nd_target s = tgt
  /\ nd_opt_type s = ND_OPT_SOURCE_LINKADDR
  /\ nd_opt_len s = 1
  /\ nd_opt_lladdr s = lladdr iface.
Proof.
  intros Hll Htgt s.
  split; [reflexivity | ].
  destruct (nd_iface_send_ns_bytes iface tgt Hll Htgt) as (c0 & c1 & Hframe).
  fields. unfold s. rewrite Hframe. clear Hframe s.
  unfold ndL_get_local_addr.
  destruct (lladdr iface) as [| l0 ll]; try discriminate Hll.
  explode_all ll by Hll 5. explode_all tgt by Htgt 16.
  wire. repeat apply conj; reflexivity.
Qed.

Lemma nd_iface_send_ns_fields_witness :
  length (lladdr eth0) = 6%nat
  /\ length addr_2001_db8_1 = 16%nat
  /\ nd_target (nd_iface_send_ns eth0 addr_2001_db8_1) = addr_2001_db8_1.
Proof.
  split; [reflexivity | split; [reflexivity | ]].
  refine (proj1 (proj2 (proj2 (proj2 (proj2 (proj2 (proj2 (proj2
    (nd_iface_send_ns_fields eth0 addr_2001_db8_1 _ _))))))))); reflexivity.
Defined.

(** X14.  A solicitation of [nd_iface_send_ns], taken in by
    [ndL_handle_msg] on an interface [rx] that serves a proxy, passes the
    checksum comparison and the option check, and is handed to that proxy
    with the link-local address of the sender as source, the solicited-node
    address of [tgt] as destination, the target [tgt], and the sender's
    link-layer address; on an interface without proxy nothing happens. *)
Theorem nd_iface_send_ns_received (iface rx : nd_iface_t) (tgt : nd_addr_t) :
  length (lladdr iface) = 6%nat ->
  length tgt = 16%nat ->
  ndL_handle_msg rx (frame (nd_iface_send_ns iface tgt))
  = match proxy rx with
    | None => []
    | Some pr =>
        [nd_proxy_handle_ns pr (ndL_get_local_addr iface (repeat Byte.x00 16))
           (solicited_node_addr tgt) tgt (Some (lladdr iface))]
    end.
Proof.
  intros Hll Htgt.
  rewrite nd_iface_send_ns_checksum_verifies.
  destruct (nd_iface_send_ns_bytes iface tgt Hll Htgt) as (c0 & c1 & Hframe).
  rewrite Hframe. clear Hframe.
  unfold ndL_dispatch, ndL_handle_ns, ndL_get_local_addr, solicited_node_addr,
    nd_addr_is_unspecified.
  destruct (proxy rx) as [pr | ];
    destruct (lladdr iface) as [| l0 ll]; try discriminate Hll;
    explode_all ll by Hll 5; explode_all tgt by Htgt 16;
    wire; reflexivity.
Qed.

Lemma nd_iface_send_ns_received_witness :
  length (lladdr eth1) = 6%nat
  /\ length addr_2001_db8_1 = 16%nat
  /\ ndL_handle_msg eth0 (frame (nd_iface_send_ns eth1 addr_2001_db8_1))
     = [nd_proxy_handle_ns 1%nat (ndL_get_local_addr eth1 (repeat Byte.x00 16))
          (solicited_node_addr addr_2001_db8_1) addr_2001_db8_1 (Some (lladdr eth1))].
Proof.
  split; [reflexivity | split; [reflexivity | ]].
  apply (nd_iface_send_ns_received eth1 eth0 addr_2001_db8_1); reflexivity.
Defined.

(** ** Interface flags: one bit at a time *)

(** The flag word after a call of [nd_iface_set_allmulti], with the value
    returned: [false] goes with an untouched word, [true] with the word as
    it was when the flag already was as asked for, and else with the word
    with the one bit set or cleared. *)
Lemma nd_iface_set_allmulti_result (iface : nd_iface_t) (on : bool) (k : kernel)
    (r : bool) (iface' : nd_iface_t) (k' : kernel) :
  nd_iface_set_allmulti iface on k = (r, iface', k') ->
  (r = false /\ ifr_flags k' = ifr_flags k)
  \/ (r = true
      /\ ifr_flags k'
         = if Bool.eqb on (flag_is_set (ifr_flags k) IFF_ALLMULTI) then ifr_flags k
           else if on then Z.lor (ifr_flags k) IFF_ALLMULTI
                else Z.land (ifr_flags k) (Z.lnot IFF_ALLMULTI)).
Proof.
  unfold nd_iface_set_allmulti, ioctl_SIOCGIFFLAGS.
  destruct (ioctl_next k) as [ok1 k1] eqn:E1.
  pose proof (ioctl_next_flags _ _ _ E1) as F1.
  destruct ok1.
  - rewrite F1.
    destruct (Bool.eqb on (flag_is_set (ifr_flags k) IFF_ALLMULTI)).
    + intros H. injection H as <- <- <-. right. split; [reflexivity | exact F1].
    + unfold ioctl_SIOCSIFFLAGS.
      destruct (ioctl_next k1) as [ok2 k2] eqn:E2.
      pose proof (ioctl_next_flags _ _ _ E2) as F2.
      destruct ok2; intros H; injection H as <- <- <-.
      * right. split; reflexivity.
      * left. split; [reflexivity | congruence].
  - intros H. injection H as <- <- <-. left. split; [reflexivity | exact F1].
Qed.

Lemma nd_iface_set_promisc_result (iface : nd_iface_t) (on : bool) (k : kernel)
    (r : bool) (iface' : nd_iface_t) (k' : kernel) :
  nd_iface_set_promisc iface on k = (r, iface', k') ->
  (r = false /\ ifr_flags k' = ifr_flags k)
  \/ (r = true
      /\ ifr_flags k'
         = if Bool.eqb on (flag_is_set (ifr_flags k) IFF_PROMISC) then ifr_flags k
           else if on then Z.lor (ifr_flags k) IFF_PROMISC
                else Z.land (ifr_flags k) (Z.lnot IFF_PROMISC)).
Proof.
  unfold nd_iface_set_promisc, ioctl_SIOCGIFFLAGS.
  destruct (ioctl_next k) as [ok1 k1] eqn:E1.
  pose proof (ioctl_next_flags _ _ _ E1) as F1.
  destruct ok1.
  - rewrite F1.
    destruct (Bool.eqb on (flag_is_set (ifr_flags k) IFF_PROMISC)).
    + intros H. injection H as <- <- <-. right. split; [reflexivity | exact F1].
    + unfold ioctl_SIOCSIFFLAGS.
      destruct (ioctl_next k1) as [ok2 k2] eqn:E2.
      pose proof (ioctl_next_flags _ _ _ E2) as F2.
      destruct ok2; intros H; injection H as <- <- <-.
      * right. split; reflexivity.
      * left. split; [reflexivity | congruence].
  - intros H. injection H as <- <- <-. left. split; [reflexivity | exact F1].
Qed.

(** Setting or clearing bit [n], or doing nothing, leaves every other bit. *)
Lemma flag_update_other_bits (flags flags' : Z) (on b : bool) (n m : Z) :
  0 <= n -> m <> n ->
  flags' = (if b then flags
            else if on then Z.lor flags (2 ^ n) else Z.land flags (Z.lnot (2 ^ n))) ->
  Z.testbit flags' m = Z.testbit flags m.
Proof.
  intros Hn Hm ->. destruct b; [reflexivity | ].
  destruct (Z.lt_ge_cases m 0) as [Hneg | Hpos];
    [rewrite !Z.testbit_neg_r by exact Hneg; reflexivity | ].
  destruct on.
  - rewrite Z.lor_spec, Z.pow2_bits_false by congruence. apply orb_false_r.
  - rewrite Z.land_spec, Z.lnot_spec, Z.pow2_bits_false by (congruence || lia).
    apply andb_true_r.
Qed.

Lemma nd_iface_set_allmulti_other_bits (iface : nd_iface_t) (on : bool) (k : kernel)
    (r : bool) (iface' : nd_iface_t) (k' : kernel) (m : Z) :
  nd_iface_set_allmulti iface on k = (r, iface', k') ->
  m <> 9 ->
  Z.testbit (ifr_flags k') m = Z.testbit (ifr_flags k) m.
Proof.
  intros Hrun Hm.
  destruct (nd_iface_set_allmulti_result _ _ _ _ _ _ Hrun) as [[_ ->] | [_ Hf]];
    [reflexivity | ].
  rewrite IFF_ALLMULTI_bit in Hf.
  apply (flag_update_other_bits _ _ on _ 9 m ltac:(lia) Hm Hf).
Qed.

Lemma nd_iface_set_promisc_other_bits (iface : nd_iface_t) (on : bool) (k : kernel)
    (r : bool) (iface' : nd_iface_t) (k' : kernel) (m : Z) :
  nd_iface_set_promisc iface on k = (r, iface', k') ->
  m <> 8 ->
  Z.testbit (ifr_flags k') m = Z.testbit (ifr_flags k) m.
Proof.
  intros Hrun Hm.
  destruct (nd_iface_set_promisc_result _ _ _ _ _ _ Hrun) as [[_ ->] | [_ Hf]];
    [reflexivity | ].
  rewrite IFF_PROMISC_bit in Hf.
  apply (flag_update_other_bits _ _ on _ 8 m ltac:(lia) Hm Hf).
Qed.

Lemma flag_update_same_bit (flags : Z) (on : bool) (n : Z) :
  0 <= n ->
  flag_is_set (if Bool.eqb on (flag_is_set flags (2 ^ n)) then flags
               else if on then Z.lor flags (2 ^ n) else Z.land flags (Z.lnot (2 ^ n)))
    (2 ^ n) = on.
Proof.
  intros Hn. destruct (Bool.eqb on (flag_is_set flags (2 ^ n))) eqn:Heq.
  - apply Bool.eqb_prop in Heq. symmetry. exact Heq.
  - destruct on; [apply flag_set_same | apply flag_clear_same]; exact Hn.
Qed.

(** X15.  What the two setters promise.  When [nd_iface_set_allmulti]
    returns [true] the kernel's ALLMULTI flag is what was asked for; when it
    returns [false] the kernel's flag word is as it was; and in either case
    every other bit of the flag word, and every field of the interface but
    the saved ALLMULTI value, is left alone.  The same holds for
    [nd_iface_set_promisc] and PROMISC. *)
Theorem nd_iface_set_flag_contract (iface : nd_iface_t) (on : bool) (k : kernel) :
  (forall r iface' k',
     nd_iface_set_allmulti iface on k = (r, iface', k') ->
     (r = true -> flag_is_set (ifr_flags k') IFF_ALLMULTI = on)
     /\ (r = false -> ifr_flags k' = ifr_flags k)
     /\ (forall m, m <> 9 -> Z.testbit (ifr_flags k') m = Z.testbit (ifr_flags k) m)
     /\ set_old_allmulti (old_allmulti iface) iface' = set_old_allmulti (old_allmulti iface) iface)
  /\ (forall r iface' k',
        nd_iface_set_promisc iface on k = (r, iface', k') ->
        (r = true -> flag_is_set (ifr_flags k') IFF_PROMISC = on)
        /\ (r = false -> ifr_flags k' = ifr_flags k)
        /\ (forall m, m <> 8 -> Z.testbit (ifr_flags k') m = Z.testbit (ifr_flags k) m)
        /\ set_old_promisc (old_promisc iface) iface' = set_old_promisc (old_promisc iface) iface).
Proof.
  split; intros r iface' k' Hrun.
  - repeat apply conj.
    + intros ->.
      destruct (nd_iface_set_allmulti_result _ _ _ _ _ _ Hrun) as [[Hr _] | [_ ->]];
        [discriminate Hr | ].
      rewrite IFF_ALLMULTI_bit. apply flag_update_same_bit. lia.
    + intros ->.
      destruct (nd_iface_set_allmulti_result _ _ _ _ _ _ Hrun) as [[_ Hf] | [Hr _]];
        [exact Hf | discriminate Hr].
    + intros m Hm. eapply nd_iface_set_allmulti_other_bits; eassumption.
    + revert Hrun. unfold nd_iface_set_allmulti.
      destruct (ioctl_SIOCGIFFLAGS k) as [[flags | ] k1];
        [ | intros H; injection H as <- <- <-; reflexivity].
      destruct (old_allmulti iface <? 0), (Bool.eqb on _);
        try destruct (ioctl_SIOCSIFFLAGS _ k1) as [[] k2];
        intros H; injection H as <- <- <-; reflexivity.
  - repeat apply conj.
    + intros ->.
      destruct (nd_iface_set_promisc_result _ _ _ _ _ _ Hrun) as [[Hr _] | [_ ->]];
        [discriminate Hr | ].
      rewrite IFF_PROMISC_bit. apply flag_update_same_bit. lia.
    + intros ->.
      destruct (nd_iface_set_promisc_result _ _ _ _ _ _ Hrun) as [[_ Hf] | [Hr _]];
        [exact Hf | discriminate Hr].
    + intros m Hm. eapply nd_iface_set_promisc_other_bits; eassumption.
    + revert Hrun. unfold nd_iface_set_promisc.
      destruct (ioctl_SIOCGIFFLAGS k) as [[flags | ] k1];
        [ | intros H; injection H as <- <- <-; reflexivity].
      destruct (old_promisc iface <? 0), (Bool.eqb on _);
        try destruct (ioctl_SIOCSIFFLAGS _ k1) as [[] k2];
        intros H; injection H as <- <- <-; reflexivity.
Qed.

Lemma nd_iface_set_flag_contract_witness :
  let k := {| ifr_flags := sample_flags; ioctl_outcomes := [true; false] |} in
  let out := nd_iface_set_allmulti eth0 true k in
  fst (fst out) = false /\ ifr_flags (snd out) = ifr_flags k.
Proof.
  intros k out. split; [reflexivity | ].
  refine (proj1 (proj2 (proj1 (nd_iface_set_flag_contract eth0 true k)
            (fst (fst out)) (snd (fst out)) (snd out) _)) _); reflexivity.
Defined.

(** Every bit but the two flags survives the calls of the setters. *)
Lemma run_set_calls_other_bits (calls : list set_call) (iface : nd_iface_t) (k : kernel)
    (iface' : nd_iface_t) (k' : kernel) (m : Z) :
  run_set_calls calls (iface, k) = (iface', k') ->
  m <> 8 -> m <> 9 ->
  Z.testbit (ifr_flags k') m = Z.testbit (ifr_flags k) m.
Proof.
  unfold run_set_calls. revert iface k.
  induction calls as [| c calls IH]; intros iface k Hrun H8 H9.
  - injection Hrun as <- <-. reflexivity.
  - cbn [fold_left] in Hrun.
    destruct c as [on | on]; cbn [run_set_call] in Hrun.
    + destruct (nd_iface_set_allmulti iface on k) as [[r i1] k1] eqn:Hset.
      rewrite (IH _ _ Hrun H8 H9).
      eapply nd_iface_set_allmulti_other_bits; eassumption.
    + destruct (nd_iface_set_promisc iface on k) as [[r i1] k1] eqn:Hset.
      rewrite (IH _ _ Hrun H8 H9).
      eapply nd_iface_set_promisc_other_bits; eassumption.
Qed.

(** And so does it survive [nd_iface_close]. *)
Lemma nd_iface_close_other_bits (no_restore : bool) (iface : nd_iface_t) (k : kernel)
    (released : bool) (iface' : nd_iface_t) (k' : kernel) (m : Z) :
  nd_iface_close no_restore iface k = (released, iface', k') ->
  m <> 8 -> m <> 9 ->
  Z.testbit (ifr_flags k') m = Z.testbit (ifr_flags k) m.
Proof.
  intros Hrun H8 H9. revert Hrun. unfold nd_iface_close.
  destruct (refcount _ >? 0); [intros H; injection H as <- <- <-; reflexivity | ].
  destruct no_restore; cbn [negb]; [intros H; injection H as <- <- <-; reflexivity | ].
  set (iface0 := set_refcount _ iface).
  destruct (old_promisc iface0 >=? 0).
  - destruct (nd_iface_set_promisc iface0 _ k) as [[r1 i1] k1] eqn:E1.
    pose proof (nd_iface_set_promisc_other_bits _ _ _ _ _ _ m E1 H8) as B1.
    destruct (old_allmulti i1 >=? 0).
    + destruct (nd_iface_set_allmulti i1 _ k1) as [[r2 i2] k2] eqn:E2.
      pose proof (nd_iface_set_allmulti_other_bits _ _ _ _ _ _ m E2 H9) as B2.
      intros H; injection H as <- <- <-. congruence.
    + intros H; injection H as <- <- <-. exact B1.
  - destruct (old_allmulti iface0 >=? 0).
    + destruct (nd_iface_set_allmulti iface0 _ k) as [[r2 i2] k2] eqn:E2.
      pose proof (nd_iface_set_allmulti_other_bits _ _ _ _ _ _ m E2 H9) as B2.
      intros H; injection H as <- <- <-. exact B2.
    + intros H; injection H as <- <- <-. reflexivity.
Qed.

(** X16.  The whole flag word comes back.  For an interface that starts
    with both saved values at [-1], after any sequence of calls of the two
    setters, whatever their ioctls returned, [nd_iface_close] on the last
    reference, with restoring not switched off and its own ioctls
    succeeding, leaves the kernel's flag word exactly as it was before the
    first call: ALLMULTI and PROMISC are restored, and no other flag was
    ever changed. *)
Theorem nd_iface_close_restores_word
    (iface : nd_iface_t) (k : kernel) (calls : list set_call)
    (iface1 : nd_iface_t) (k1 : kernel)
    (released : bool) (iface2 : nd_iface_t) (k2 : kernel) :
  old_allmulti iface = -1 ->
  old_promisc iface = -1 ->
  refcount iface = 1 ->
  run_set_calls calls (iface, k) = (iface1, k1) ->
  ioctls_succeed k1 ->
  nd_iface_close false iface1 k1 = (released, iface2, k2) ->
  ifr_flags k2 = ifr_flags k.
Proof.
  intros Hall Hpro Hone Hrun Hok Hclose.
  assert (Hagree : saved_flags_agree (ifr_flags k) iface k).
  { split; left; split; [exact Hall | reflexivity | exact Hpro | reflexivity]. }
  destruct (run_set_calls_agree _ _ _ _ _ _ Hrun Hagree) as [Hagree1 Hcount].
  destruct (nd_iface_close_agree (ifr_flags k) iface1 k1 released iface2 k2)
    as (_ & H9 & H8); [congruence | exact Hagree1 | exact Hok | exact Hclose | ].
  rewrite IFF_ALLMULTI_bit, !flag_is_set_pow2 in H9 by lia.
  rewrite IFF_PROMISC_bit, !flag_is_set_pow2 in H8 by lia.
  apply Z.bits_inj'. intros m _.
  destruct (Z.eq_dec m 8) as [-> | N8]; [exact H8 | ].
  destruct (Z.eq_dec m 9) as [-> | N9]; [exact H9 | ].
  rewrite (nd_iface_close_other_bits _ _ _ _ _ _ m Hclose N8 N9).
  apply (run_set_calls_other_bits _ _ _ _ _ m Hrun N8 N9).
Qed.

Lemma nd_iface_close_restores_word_witness :
  let k := {| ifr_flags := sample_flags; ioctl_outcomes := [true; false] |} in
  let calls := [call_set_allmulti true; call_set_promisc true; call_set_allmulti true] in
  let s1 := run_set_calls calls (eth0, k) in
  let s2 := nd_iface_close false (fst s1) (snd s1) in
  old_allmulti eth0 = -1
  /\ old_promisc eth0 = -1
  /\ refcount eth0 = 1
  /\ ioctls_succeed (snd s1)
  /\ ifr_flags (snd s1) = Z.lor (Z.lor sample_flags IFF_PROMISC) IFF_ALLMULTI
  /\ ifr_flags (snd s2) = sample_flags.
Proof.
  intros k calls s1 s2.
  assert (Hok : ioctls_succeed (snd s1)) by (vm_compute; constructor).
  repeat (split; [reflexivity || exact Hok | ]).
  refine (nd_iface_close_restores_word
            eth0 k calls (fst s1) (snd s1) (fst (fst s2)) (snd (fst s2)) (snd s2)
            _ _ _ _ Hok _).
  - reflexivity.
  - reflexivity.
  - reflexivity.
  - vm_compute. reflexivity.
  - vm_compute. reflexivity.
Defined.

(** ** The list of open interfaces *)

Lemma length_heap_store (h : list nd_iface_t) (p : nat) (v : nd_iface_t) :
  length (heap_store h p v) = length h.
Proof.
  revert p. induction h as [| x h IH]; intros p; [reflexivity | ].
  destruct p; cbn; [reflexivity | rewrite IH; reflexivity].
Qed.

Lemma nth_heap_store_same (h : list nd_iface_t) (p : nat) (v d : nd_iface_t) :
  (p < length h)%nat -> nth p (heap_store h p v) d = v.
Proof.
  revert p. induction h as [| x h IH]; intros p Hp; [cbn in Hp; lia | ].
  destruct p; cbn; [reflexivity | apply IH; cbn in Hp; lia].
Qed.

Lemma nth_heap_store_other (h : list nd_iface_t) (p q : nat) (v d : nd_iface_t) :
  p <> q -> nth q (heap_store h p v) d = nth q h d.
Proof.
  revert p q. induction h as [| x h IH]; intros p q Hpq; [reflexivity | ].
  destruct p, q; cbn; try reflexivity; [contradiction | apply IH; lia].
Qed.

Lemma ND_LL_DELETE_head (l : list nat) (p : nat) : ND_LL_DELETE (p :: l) p = l.
Proof. cbn. rewrite Nat.eqb_refl. reflexivity. Qed.

Lemma ND_LL_DELETE_In (l : list nat) (p q : nat) :
  In q (ND_LL_DELETE l p) -> In q l.
Proof.
  induction l as [| x l IH]; cbn; [tauto | ].
  destruct (Nat.eqb_spec x p); cbn; tauto.
Qed.

Lemma ND_LL_DELETE_other (l : list nat) (p q : nat) :
  q <> p -> In q l -> In q (ND_LL_DELETE l p).
Proof.
  intros Hq. induction l as [| x l IH]; cbn; [tauto | ].
  destruct (Nat.eqb_spec x p); cbn; [intros [-> | H]; [contradiction | exact H] | tauto].
Qed.

Lemma ND_LL_DELETE_NoDup (l : list nat) (p : nat) :
  NoDup l -> NoDup (ND_LL_DELETE l p) /\ ~ In p (ND_LL_DELETE l p).
Proof.
  induction l as [| x l IH]; intros Hnd; cbn.
  - split; [constructor | tauto].
  - inversion Hnd as [| ? ? Hx Hl]; subst.
    destruct (Nat.eqb_spec x p) as [-> | Hne]; [split; assumption | ].
    destruct (IH Hl) as [IH1 IH2]. split.
    + constructor; [ | exact IH1]. intros Hin. apply Hx. eapply ND_LL_DELETE_In. exact Hin.
    + cbn. intros [-> | Hin]; [congruence | contradiction].
Qed.

Lemma ND_LL_DELETE_absent (l : list nat) (p : nat) : ~ In p l -> ND_LL_DELETE l p = l.
Proof.
  induction l as [| x l IH]; cbn; [reflexivity | ].
  intros Hn. destruct (Nat.eqb_spec x p) as [-> | Hne]; [tauto | ].
  rewrite IH by tauto. reflexivity.
Qed.

(** A record is what its fields are. *)
Lemma nd_iface_eta (v : nd_iface_t) :
  {| index := index v; name := name v; lladdr := lladdr v; refcount := refcount v;
     old_allmulti := old_allmulti v; old_promisc := old_promisc v;
     proxy := proxy v; sessions := sessions v |} = v.
Proof. destruct v. reflexivity. Qed.

(** The setters keep the index and the name. *)
Lemma nd_iface_set_allmulti_index (v : nd_iface_t) (on : bool) (k : kernel)
    (r : bool) (v' : nd_iface_t) (k' : kernel) :
  nd_iface_set_allmulti v on k = (r, v', k') ->
  index v' = index v /\ name v' = name v.
Proof.
  unfold nd_iface_set_allmulti.
  destruct (ioctl_SIOCGIFFLAGS k) as [[flags | ] k1];
    [ | intros H; injection H as <- <- <-; split; reflexivity].
  destruct (old_allmulti v <? 0), (Bool.eqb on _);
    try destruct (ioctl_SIOCSIFFLAGS _ k1) as [[] k2];
    intros H; injection H as <- <- <-; split; reflexivity.
Qed.

Lemma nd_iface_set_promisc_index (v : nd_iface_t) (on : bool) (k : kernel)
    (r : bool) (v' : nd_iface_t) (k' : kernel) :
  nd_iface_set_promisc v on k = (r, v', k') ->
  index v' = index v /\ name v' = name v.
Proof.
  unfold nd_iface_set_promisc.
  destruct (ioctl_SIOCGIFFLAGS k) as [[flags | ] k1];
    [ | intros H; injection H as <- <- <-; split; reflexivity].
  destruct (old_promisc v <? 0), (Bool.eqb on _);
    try destruct (ioctl_SIOCSIFFLAGS _ k1) as [[] k2];
    intros H; injection H as <- <- <-; split; reflexivity.
Qed.

(** [nd_iface_close] on one object: the count goes down by one, the object
    is unlinked exactly when nothing is left, and index and name stay. *)
Lemma nd_iface_close_fields (no_restore : bool) (v : nd_iface_t) (k : kernel)
    (unlinked : bool) (v' : nd_iface_t) (k' : kernel) :
  nd_iface_close no_restore v k = (unlinked, v', k') ->
  index v' = index v /\ name v' = name v
  /\ refcount v' = refcount v - 1
  /\ unlinked = negb (refcount v - 1 >? 0).
Proof.
  unfold nd_iface_close.
  cbn [refcount set_refcount].
  destruct (refcount v - 1 >? 0);
    [intros H; injection H as <- <- <-; repeat split; reflexivity | ].
  set (v0 := set_refcount (refcount v - 1) v).
  destruct no_restore; cbn [negb];
    [intros H; injection H as <- <- <-; repeat split; reflexivity | ].
  assert (I0 : index v0 = index v) by reflexivity.
  assert (N0 : name v0 = name v) by reflexivity.
  assert (R0 : refcount v0 = refcount v - 1) by reflexivity.
  clearbody v0.
  destruct (old_promisc v0 >=? 0).
  - destruct (nd_iface_set_promisc v0 _ k) as [[r1 v1] k1] eqn:E1.
    destruct (nd_iface_set_promisc_index _ _ _ _ _ _ E1) as [I1 N1].
    destruct (nd_iface_set_promisc_effect _ _ _ _ _ _ E1) as (R1 & _).
    destruct (old_allmulti v1 >=? 0).
    + destruct (nd_iface_set_allmulti v1 _ k1) as [[r2 v2] k2] eqn:E2.
      destruct (nd_iface_set_allmulti_index _ _ _ _ _ _ E2) as [I2 N2].
      destruct (nd_iface_set_allmulti_effect _ _ _ _ _ _ E2) as (R2 & _).
      intros H; injection H as <- <- <-.
      refine (conj _ (conj _ (conj _ eq_refl))); [congruence | congruence | ].
      rewrite R2, R1. exact R0.
    + intros H; injection H as <- <- <-.
      refine (conj _ (conj _ (conj _ eq_refl))); [congruence | congruence | ].
      rewrite R1. exact R0.
  - destruct (old_allmulti v0 >=? 0).
    + destruct (nd_iface_set_allmulti v0 _ k) as [[r2 v2] k2] eqn:E2.
      destruct (nd_iface_set_allmulti_index _ _ _ _ _ _ E2) as [I2 N2].
      destruct (nd_iface_set_allmulti_effect _ _ _ _ _ _ E2) as (R2 & _).
      intros H; injection H as <- <- <-.
      refine (conj _ (conj _ (conj _ eq_refl))); [congruence | congruence | ].
      rewrite R2. exact R0.
    + intros H; injection H as <- <- <-. repeat split; assumption || reflexivity.
Qed.

(** An object that was never touched by a setter, or that is still
    referenced, is closed without any ioctl. *)
Lemma nd_iface_close_quiet (no_restore : bool) (v : nd_iface_t) (k : kernel) :
  (1 < refcount v \/ (old_promisc v = -1 /\ old_allmulti v = -1)) ->
  nd_iface_close no_restore v k
  = (negb (refcount v - 1 >? 0), set_refcount (refcount v - 1) v, k).
Proof.
  intros Hq. unfold nd_iface_close. cbn [refcount set_refcount old_promisc old_allmulti].
  destruct (Z.gtb_spec (refcount v - 1) 0) as [Hpos | Hlast]; [reflexivity | ].
  destruct Hq as [Hmany | [Hp Ha]]; [lia | ].
  destruct no_restore; cbn [negb]; [reflexivity | ].
  rewrite Hp. change (-1 >=? 0) with false. cbv iota.
  cbn [old_allmulti set_refcount]. rewrite Ha. reflexivity.
Qed.

Lemma deref_store_same (h : list nd_iface_t) (l f : list nat) (p : nat) (v : nd_iface_t) :
  (p < length h)%nat ->
  deref {| heap := heap_store h p v; ndL_first_iface := l; ndL_first_free_iface := f |} p = v.
Proof. intros Hp. unfold deref. cbn [heap]. apply nth_heap_store_same. exact Hp. Qed.

Lemma deref_store_other (h : list nd_iface_t) (l f l' f' : list nat) (p q : nat)
    (v : nd_iface_t) :
  p <> q ->
  deref {| heap := heap_store h p v; ndL_first_iface := l; ndL_first_free_iface := f |} q
  = deref {| heap := h; ndL_first_iface := l'; ndL_first_free_iface := f' |} q.
Proof. intros Hpq. unfold deref. cbn [heap]. apply nth_heap_store_other. exact Hpq. Qed.

Lemma deref_heap (r : registry) (l f : list nat) (q : nat) :
  deref {| heap := heap r; ndL_first_iface := l; ndL_first_free_iface := f |} q = deref r q.
Proof. reflexivity. Qed.

(** Searching the open interfaces for an index finds the one that has it. *)
Lemma ND_LL_SEARCH_index (r : registry) (l : list nat) (p : nat) (i : Z) :
  NoDup (map (fun q => index (deref r q)) l) ->
  In p l -> index (deref r p) = i ->
  ND_LL_SEARCH l (fun q => index (deref r q) =? i) = Some p.
Proof.
  unfold ND_LL_SEARCH.
  induction l as [| x l IH]; intros Hnd Hin Hi; [destruct Hin | ].
  cbn [map] in Hnd. inversion Hnd as [| ? ? Hx Hl]; subst.
  cbn [find].
  destruct Hin as [-> | Hin].
  - rewrite Z.eqb_refl. reflexivity.
  - destruct (Z.eqb_spec (index (deref r x)) (index (deref r p))) as [Heq | _].
    + exfalso. apply Hx. rewrite Heq.
      apply (in_map (fun q => index (deref r q))). exact Hin.
    + apply IH; [exact Hl | exact Hin | reflexivity].
Qed.

(** Writing an object that keeps its index, and a reference if it is open,
    keeps the lists sound. *)
Lemma registry_ok_store (r : registry) (p : nat) (v : nd_iface_t) :
  registry_ok r ->
  index v = index (deref r p) ->
  (In p (ndL_first_iface r) -> 0 < refcount v) ->
  registry_ok {| heap := heap_store (heap r) p v;
                 ndL_first_iface := ndL_first_iface r;
                 ndL_first_free_iface := ndL_first_free_iface r |}.
Proof.
  intros (Hnd & Hptr & Hidx & Hrc) Hi Hv.
  assert (Hderef : forall q,
            (q < length (heap r))%nat ->
            index (deref {| heap := heap_store (heap r) p v;
                            ndL_first_iface := ndL_first_iface r;
                            ndL_first_free_iface := ndL_first_free_iface r |} q)
            = index (deref r q)).
  { intros q Hq. destruct (Nat.eq_dec p q) as [-> | Hne].
    - rewrite deref_store_same by exact Hq. exact Hi.
    - rewrite (deref_store_other _ _ _ (ndL_first_iface r) (ndL_first_free_iface r))
        by exact Hne.
      destruct r; reflexivity. }
  unfold registry_ok. cbn [heap ndL_first_iface ndL_first_free_iface].
  repeat apply conj.
  - exact Hnd.
  - intros q Hq. rewrite length_heap_store. apply Hptr. exact Hq.
  - rewrite (map_ext_in _ (fun q => index (deref r q))); [exact Hidx | ].
    intros q Hq. apply Hderef. apply Hptr. apply in_or_app. left. exact Hq.
  - intros q Hq. destruct (Nat.eq_dec p q) as [-> | Hne].
    + rewrite deref_store_same by (apply Hptr; apply in_or_app; left; exact Hq).
      apply Hv. exact Hq.
    + rewrite (deref_store_other _ _ _ (ndL_first_iface r) (ndL_first_free_iface r))
        by exact Hne.
      destruct r; apply Hrc; exact Hq.
Qed.

(** Linking a new object with a new index and one reference keeps the lists
    sound. *)
Lemma registry_ok_prepend (r : registry) (h : list nd_iface_t) (free : list nat)
    (p : nat) (v : nd_iface_t) :
  registry_ok r ->
  NoDup (p :: ndL_first_iface r ++ free) ->
  (forall q, In q free -> In q (ndL_first_free_iface r)) ->
  (p < length h)%nat ->
  (length (heap r) <= length h)%nat ->
  (forall q, (q < length (heap r))%nat -> q <> p -> nth q h nd_iface_zero = deref r q) ->
  (forall q, In q (ndL_first_iface r) -> index (deref r q) <> index v) ->
  0 < refcount v ->
  registry_ok {| heap := heap_store h p v;
                 ndL_first_iface := ND_LL_PREPEND (ndL_first_iface r) p;
                 ndL_first_free_iface := free |}.
Proof.
  intros (Hnd & Hptr & Hidx & Hrc) Hnd' Hfree Hp Hlen Hsame Hnew Hv.
  inversion Hnd' as [| ? ? Hpn Hrest]; subst.
  assert (Hlive : forall q, In q (ndL_first_iface r) ->
            deref {| heap := heap_store h p v;
                     ndL_first_iface := ND_LL_PREPEND (ndL_first_iface r) p;
                     ndL_first_free_iface := free |} q = deref r q).
  { intros q Hq.
    assert (Hqp : p <> q) by (intros ->; apply Hpn; apply in_or_app; left; exact Hq).
    unfold deref at 1. cbn [heap]. rewrite nth_heap_store_other by exact Hqp.
    apply Hsame; [ | congruence]. apply Hptr. apply in_or_app. left. exact Hq. }
  unfold registry_ok, ND_LL_PREPEND in *. cbn [heap ndL_first_iface ndL_first_free_iface] in *.
  repeat apply conj.
  - exact Hnd'.
  - intros q Hq. rewrite length_heap_store.
    destruct Hq as [<- | Hq]; [exact Hp | ].
    assert (In q (ndL_first_iface r ++ ndL_first_free_iface r)).
    { apply in_app_or in Hq. apply in_or_app. destruct Hq; [left | right]; auto. }
    apply Hptr in H. lia.
  - cbn [map]. rewrite deref_store_same by exact Hp.
    rewrite (map_ext_in _ (fun q => index (deref r q)))
      by (intros q Hq; rewrite Hlive by exact Hq; reflexivity).
    constructor; [ | exact Hidx].
    intros Hin. apply in_map_iff in Hin. destruct Hin as (q & Hq & Hin).
    apply (Hnew q Hin). exact Hq.
  - intros q [<- | Hq].
    + rewrite deref_store_same by exact Hp. exact Hv.
    + rewrite Hlive by exact Hq. apply Hrc. exact Hq.
Qed.

(** [nd_iface_open] on an interface that is open already. *)
Lemma nd_iface_open_existing (sys : os) (name0 : option String.string) (index0 : Z)
    (r : registry) (index1 : Z) (name1 : String.string) (p : nat) :
  registry_ok r ->
  nd_iface_resolve sys name0 index0 = Some (index1, name1) ->
  In p (ndL_first_iface r) ->
  index (deref r p) = index1 ->
  nd_iface_open sys name0 index0 r
  = (Some p,
     {| heap := heap_store (heap r) p
                  (set_refcount (refcount (deref r p) + 1) (deref r p));
        ndL_first_iface := ndL_first_iface r;
        ndL_first_free_iface := ndL_first_free_iface r |}).
Proof.
  intros (_ & _ & Hidx & _) Hres Hin Hi.
  unfold nd_iface_open. rewrite Hres.
  rewrite (ND_LL_SEARCH_index r _ p index1 Hidx Hin Hi). reflexivity.
Qed.

(** What [nd_iface_open] returns and leaves behind, case by case. *)
Lemma nd_iface_open_cases (sys : os) (name0 : option String.string) (index0 : Z)
    (r : registry) (res : option nat) (r' : registry) :
  nd_iface_open sys name0 index0 r = (res, r') ->
  (res = None /\ r' = r)
  \/ (exists p index1 name1,
        res = Some p
        /\ nd_iface_resolve sys name0 index0 = Some (index1, name1)
        /\ In p (ndL_first_iface r) /\ index (deref r p) = index1
        /\ r' = {| heap := heap_store (heap r) p
                             (set_refcount (refcount (deref r p) + 1) (deref r p));
                   ndL_first_iface := ndL_first_iface r;
                   ndL_first_free_iface := ndL_first_free_iface r |})
  \/ (exists p index1 name1 sa_data h free,
        res = Some p
        /\ nd_iface_resolve sys name0 index0 = Some (index1, name1)
        /\ (forall q, In q (ndL_first_iface r) -> index (deref r q) <> index1)
        /\ ioctl_SIOCGIFHWADDR sys name1 = Some sa_data
        /\ ((ndL_first_free_iface r = p :: free /\ h = heap r)
            \/ (ndL_first_free_iface r = [] /\ free = [] /\ p = length (heap r)
                /\ h = heap r ++ [nd_iface_zero]))
        /\ r' = {| heap := heap_store h p
                             {| index := index1; name := name1; lladdr := load sa_data 6;
                                refcount := 1; old_allmulti := -1; old_promisc := -1;
                                proxy := None; sessions := [] |};
                   ndL_first_iface := ND_LL_PREPEND (ndL_first_iface r) p;
                   ndL_first_free_iface := free |}).
Proof.
  unfold nd_iface_open.
  destruct (nd_iface_resolve sys name0 index0) as [[index1 name1] | ] eqn:Hres;
    [ | intros H; injection H as <- <-; left; split; reflexivity].
  unfold ND_LL_SEARCH.
  destruct (find _ (ndL_first_iface r)) as [p | ] eqn:Hfind.
  - apply find_some in Hfind. destruct Hfind as [Hin Hi]. apply Z.eqb_eq in Hi.
    intros H; injection H as <- <-. right. left. exists p, index1, name1. auto 10.
  - destruct (ioctl_SIOCGIFHWADDR sys name1) as [sa_data | ] eqn:Hhw;
      [ | intros H; injection H as <- <-; left; split; reflexivity].
    assert (Hnew : forall q, In q (ndL_first_iface r) -> index (deref r q) <> index1).
    { intros q Hq. apply (find_none _ _ Hfind) in Hq. apply Z.eqb_neq. exact Hq. }
    destruct (ndL_first_free_iface r) as [| p free] eqn:Hfree.
    + intros H; injection H as <- <-. right. right.
      exists (length (heap r)), index1, name1, sa_data, (heap r ++ [nd_iface_zero]), [].
      repeat apply conj; auto.
    + rewrite ND_LL_DELETE_head.
      intros H; injection H as <- <-. right. right.
      exists p, index1, name1, sa_data, (heap r), free.
      repeat apply conj; auto.
Qed.

(** X17.  [nd_iface_open] keeps the lists sound.  When it returns [NULL]
    nothing has changed; when it returns an object, that object is on the
    list of open interfaces, holds at least one reference, and carries the
    index and the name that the arguments resolve to. *)
Theorem nd_iface_open_ok (sys : os) (name0 : option String.string) (index0 : Z)
    (r : registry) (res : option nat) (r' : registry) :
  registry_ok r ->
  nd_iface_open sys name0 index0 r = (res, r') ->
  registry_ok r'
  /\ (res = None -> r' = r)
  /\ (forall p, res = Some p ->
        In p (ndL_first_iface r')
        /\ 0 < refcount (deref r' p)
        /\ exists name1,
             nd_iface_resolve sys name0 index0 = Some (index (deref r' p), name1)
             /\ (~ In p (ndL_first_iface r) -> name (deref r' p) = name1)).
Proof.
  intros Hok Hopen.
  pose proof Hok as (Hnd & Hptr & Hidx & Hrc).
  destruct (nd_iface_open_cases _ _ _ _ _ _ Hopen)
    as [[-> ->] | [(p & i1 & n1 & -> & Hres & Hin & Hi & ->)
                  | (p & i1 & n1 & hw & h & free & -> & Hres & Hnew & Hhw & Hcase & ->)]].
  - split; [exact Hok | split; [reflexivity | discriminate]].
  - assert (Hp : (p < length (heap r))%nat)
      by (apply Hptr; apply in_or_app; left; exact Hin).
    split; [ | split; [discriminate | ]].
    + apply registry_ok_store; [exact Hok | reflexivity | ].
      intros _. cbn [refcount set_refcount]. specialize (Hrc p Hin). lia.
    + intros q Hq. injection Hq as <-.
      cbn [ndL_first_iface]. rewrite deref_store_same by exact Hp.
      cbn [refcount index set_refcount].
      split; [exact Hin | ]. split; [specialize (Hrc p Hin); lia | ].
      exists n1. rewrite Hi. split; [exact Hres | contradiction].
  - assert (Hfacts : NoDup (p :: ndL_first_iface r ++ free)
                     /\ (forall q, In q free -> In q (ndL_first_free_iface r))
                     /\ (p < length h)%nat
                     /\ (length (heap r) <= length h)%nat
                     /\ (forall q, (q < length (heap r))%nat -> q <> p ->
                                   nth q h nd_iface_zero = deref r q)).
    { destruct Hcase as [[Hfree ->] | (Hfree & -> & -> & ->)].
      - rewrite Hfree in Hnd, Hptr.
        pose proof (NoDup_remove _ _ _ Hnd) as [Hnd1 Hnot].
        repeat apply conj.
        + constructor; assumption.
        + intros q Hq. rewrite Hfree. right. exact Hq.
        + apply Hptr. apply in_or_app. right. left. reflexivity.
        + lia.
        + reflexivity.
      - rewrite Hfree, app_nil_r in Hnd, Hptr.
        repeat apply conj.
        + rewrite app_nil_r. constructor; [ | exact Hnd].
          intros Hin. apply Hptr in Hin. lia.
        + intros q [].
        + rewrite length_app. cbn. lia.
        + rewrite length_app. lia.
        + intros q Hq _. unfold deref. apply app_nth1. exact Hq. }
    destruct Hfacts as (Hnd' & Hfree' & Hp & Hlen & Hsame).
    split; [ | split; [discriminate | ]].
    + apply registry_ok_prepend; try assumption. cbn [refcount]. lia.
    + intros q Hq. injection Hq as <-.
      unfold ND_LL_PREPEND. cbn [ndL_first_iface].
      rewrite deref_store_same by exact Hp. cbn [refcount index name].
      split; [left; reflexivity | ]. split; [lia | ].
      exists n1. split; [exact Hres | reflexivity].
Qed.

(** X18.  One object per interface: when the interface that the arguments
    resolve to is open already, [nd_iface_open] returns the object that is on
    the list for it, with one reference more, and changes nothing else; and
    what [ioctl(SIOCGIFHWADDR)] would answer, a failure included, plays no
    part in the outcome. *)
Theorem nd_iface_open_shared (sys : os) (name0 : option String.string) (index0 : Z)
    (r : registry) (index1 : Z) (name1 : String.string) (p : nat) :
  registry_ok r ->
  nd_iface_resolve sys name0 index0 = Some (index1, name1) ->
  In p (ndL_first_iface r) ->
  index (deref r p) = index1 ->
  let r' := snd (nd_iface_open sys name0 index0 r) in
  fst (nd_iface_open sys name0 index0 r) = Some p
  /\ deref r' p = set_refcount (refcount (deref r p) + 1) (deref r p)
  /\ (forall q, q <> p -> deref r' q = deref r q)
  /\ ndL_first_iface r' = ndL_first_iface r
  /\ ndL_first_free_iface r' = ndL_first_free_iface r
  /\ length (heap r') = length (heap r)
  /\ (forall hwaddr,
        nd_iface_open (os_with_hwaddr sys hwaddr) name0 index0 r
        = nd_iface_open sys name0 index0 r).
Proof.
  intros Hok Hres Hin Hi.
  assert (Hany : forall hwaddr,
            nd_iface_open (os_with_hwaddr sys hwaddr) name0 index0 r
            = nd_iface_open sys name0 index0 r).
  { intros hwaddr.
    rewrite (nd_iface_open_existing sys name0 index0 r index1 name1 p Hok Hres Hin Hi).
    apply (nd_iface_open_existing (os_with_hwaddr sys hwaddr) name0 index0 r index1 name1 p
             Hok); [exact Hres | exact Hin | exact Hi]. }
  rewrite (nd_iface_open_existing sys name0 index0 r index1 name1 p Hok Hres Hin Hi) in *.
  destruct Hok as (_ & Hptr & _ & _).
  cbn [fst snd ndL_first_iface ndL_first_free_iface heap].
  refine (conj eq_refl (conj _ (conj _ (conj eq_refl (conj eq_refl (conj _ Hany)))))).
  - apply deref_store_same. apply Hptr. apply in_or_app. left. exact Hin.
  - intros q Hq.
    rewrite (deref_store_other _ _ _ (ndL_first_iface r) (ndL_first_free_iface r))
      by congruence.
    destruct r; reflexivity.
  - apply length_heap_store.
Qed.

(** Flags and ioctl outcomes of a kernel that was looked at but not
    touched. *)
Lemma kernel_into_of (n : String.string) (ks : kernels) :
  (forall m, flags_of (kernel_into n (kernel_of n ks) ks) m = flags_of ks m)
  /\ outcomes (kernel_into n (kernel_of n ks) ks) = outcomes ks.
Proof.
  split; [ | reflexivity].
  intros m. cbn. destruct (String.eqb_spec m n) as [-> | _]; reflexivity.
Qed.

(** Closing a reference that is not the last, or an object no setter has
    touched. *)
Lemma nd_iface_close_linked_quiet (no_restore : bool) (p : nat) (r : registry)
    (ks : kernels) :
  (1 < refcount (deref r p)
   \/ (old_promisc (deref r p) = -1 /\ old_allmulti (deref r p) = -1)) ->
  nd_iface_close_linked no_restore p r ks
  = let v := set_refcount (refcount (deref r p) - 1) (deref r p) in
    let ks' := kernel_into (name (deref r p)) (kernel_of (name (deref r p)) ks) ks in
    if negb (refcount (deref r p) - 1 >? 0)
    then ({| heap := heap_store (heap r) p v;
             ndL_first_iface := ND_LL_DELETE (ndL_first_iface r) p;
             ndL_first_free_iface := ND_LL_PREPEND (ndL_first_free_iface r) p |}, ks')
    else ({| heap := heap_store (heap r) p v;
             ndL_first_iface := ndL_first_iface r;
             ndL_first_free_iface := ndL_first_free_iface r |}, ks').
Proof.
  intros Hq. unfold nd_iface_close_linked.
  rewrite nd_iface_close_quiet by exact Hq. reflexivity.
Qed.

(** X19.  Open and close balance.  Closing the object that [nd_iface_open]
    has just returned undoes the open: the list of open interfaces and every
    object on it, reference counts included, are as they were before, and
    the kernel was not touched, whether the open found the interface or
    created it. *)
Theorem nd_iface_open_close (sys : os) (name0 : option String.string) (index0 : Z)
    (no_restore : bool) (r r1 r2 : registry) (p : nat) (ks ks2 : kernels) :
  registry_ok r ->
  nd_iface_open sys name0 index0 r = (Some p, r1) ->
  nd_iface_close_linked no_restore p r1 ks = (r2, ks2) ->
  ndL_first_iface r2 = ndL_first_iface r
  /\ (forall q, In q (ndL_first_iface r) -> deref r2 q = deref r q)
  /\ (forall m, flags_of ks2 m = flags_of ks m)
  /\ outcomes ks2 = outcomes ks.
Proof.
  intros Hok Hopen Hclose.
  pose proof Hok as (Hnd & Hptr & Hidx & Hrc).
  destruct (nd_iface_open_cases _ _ _ _ _ _ Hopen)
    as [[Hnone _] | [(p' & i1 & n1 & Hp' & Hres & Hin & Hi & ->)
                    | (p' & i1 & n1 & hw & h & free & Hp' & Hres & Hnew & Hhw & Hcase & ->)]];
    [discriminate Hnone | injection Hp' as <- .. ].
  - assert (Hp : (p < length (heap r))%nat)
      by (apply Hptr; apply in_or_app; left; exact Hin).
    specialize (Hrc p Hin).
    revert Hclose. rewrite nd_iface_close_linked_quiet;
      rewrite deref_store_same by exact Hp; cbn [refcount set_refcount name];
      [ | left; lia].
    cbv zeta.
    destruct (Z.gtb_spec (refcount (deref r p) + 1 - 1) 0) as [_ | Hbad]; [ | lia].
    cbn [negb]. intros H. injection H as <- <-.
    cbn [ndL_first_iface heap].
    split; [reflexivity | split; [ | apply kernel_into_of]].
    intros q Hq. destruct (Nat.eq_dec p q) as [<- | Hne].
    + unfold deref at 1. cbn [heap].
      rewrite nth_heap_store_same by (rewrite length_heap_store; exact Hp).
      clear. generalize (deref r p). intros [i n l rc oa op pr ss].
      unfold set_refcount.
      cbn [index name lladdr refcount old_allmulti old_promisc proxy sessions].
      f_equal. lia.
    + unfold deref. cbn [heap]. rewrite !nth_heap_store_other by exact Hne. reflexivity.
  - assert (Hfacts : ~ In p (ndL_first_iface r) /\ (p < length h)%nat
                     /\ forall q, In q (ndL_first_iface r) ->
                                  nth q h nd_iface_zero = deref r q).
    { destruct Hcase as [[Hfree ->] | (Hfree & -> & -> & ->)].
      - rewrite Hfree in Hnd, Hptr.
        pose proof (NoDup_remove _ _ _ Hnd) as [_ Hnot].
        repeat apply conj.
        + intros Hin. apply Hnot. apply in_or_app. left. exact Hin.
        + apply Hptr. apply in_or_app. right. left. reflexivity.
        + reflexivity.
      - repeat apply conj.
        + intros Hin. assert ((length (heap r) < length (heap r))%nat); [ | lia].
          apply Hptr. apply in_or_app. left. exact Hin.
        + rewrite length_app. cbn. lia.
        + intros q Hq. unfold deref. apply app_nth1. apply Hptr. apply in_or_app.
          left. exact Hq. }
    destruct Hfacts as (Hnot & Hp & Hsame).
    revert Hclose. rewrite nd_iface_close_linked_quiet;
      rewrite deref_store_same by exact Hp;
      cbn [refcount set_refcount name old_promisc old_allmulti];
      [ | right; split; reflexivity].
    cbv zeta. change (negb (1 - 1 >? 0)) with true.
    intros H. change (if true then ?a else _) with a in H. injection H as <- <-.
    unfold ND_LL_PREPEND. cbn [ndL_first_iface heap ND_LL_DELETE].
    rewrite Nat.eqb_refl.
    split; [reflexivity | split; [ | apply kernel_into_of]].
    intros q Hq.
    assert (Hne : p <> q) by (intros ->; contradiction).
    unfold deref at 1. cbn [heap]. rewrite !nth_heap_store_other by exact Hne.
    apply Hsame. exact Hq.
Qed.

Lemma NoDup_app_disjoint {A : Type} (l1 l2 : list A) (a : A) :
  NoDup (l1 ++ l2) -> In a l1 -> ~ In a l2.
Proof.
  induction l1 as [| x l1 IH]; intros Hnd Hin; [destruct Hin | ].
  cbn in Hnd. inversion Hnd as [| ? ? Hx Hl]; subst.
  destruct Hin as [-> | Hin]; [ | apply IH; assumption].
  intros H2. apply Hx. apply in_or_app. right. exact H2.
Qed.

Lemma NoDup_map_ND_LL_DELETE (f : nat -> Z) (l : list nat) (p : nat) :
  NoDup (map f l) -> NoDup (map f (ND_LL_DELETE l p)).
Proof.
  induction l as [| x l IH]; intros Hnd; [constructor | ].
  cbn [map] in Hnd. inversion Hnd as [| ? ? Hx Hl]; subst.
  cbn [ND_LL_DELETE]. destruct (Nat.eqb x p); [exact Hl | ].
  cbn [map]. constructor; [ | apply IH; exact Hl].
  intros Hin. apply Hx. apply in_map_iff in Hin. destruct Hin as (q & Hq & Hin).
  rewrite <- Hq. apply in_map. eapply ND_LL_DELETE_In. exact Hin.
Qed.

(** Moving an open object to the free list keeps the lists sound. *)
Lemma registry_ok_unlink (r : registry) (p : nat) (v : nd_iface_t) :
  registry_ok r ->
  In p (ndL_first_iface r) ->
  registry_ok {| heap := heap_store (heap r) p v;
                 ndL_first_iface := ND_LL_DELETE (ndL_first_iface r) p;
                 ndL_first_free_iface := ND_LL_PREPEND (ndL_first_free_iface r) p |}.
Proof.
  intros (Hnd & Hptr & Hidx & Hrc) Hin.
  pose proof (ND_LL_DELETE_NoDup _ p (NoDup_app_remove_r _ _ Hnd)) as [Hnd1 Hgone].
  assert (Hkeep : forall q, In q (ND_LL_DELETE (ndL_first_iface r) p) ->
            deref {| heap := heap_store (heap r) p v;
                     ndL_first_iface := ND_LL_DELETE (ndL_first_iface r) p;
                     ndL_first_free_iface := ND_LL_PREPEND (ndL_first_free_iface r) p |} q
            = deref r q).
  { intros q Hq. unfold deref. cbn [heap]. apply nth_heap_store_other.
    intros ->. contradiction. }
  unfold registry_ok, ND_LL_PREPEND. cbn [heap ndL_first_iface ndL_first_free_iface].
  repeat apply conj.
  - apply NoDup_app; [exact Hnd1 | | ].
    + constructor; [ | exact (NoDup_app_remove_l _ _ Hnd)].
      apply (NoDup_app_disjoint _ _ p Hnd Hin).
    + intros q Hq [<- | Hfree]; [contradiction | ].
      apply (NoDup_app_disjoint _ _ q Hnd); [ | exact Hfree].
      eapply ND_LL_DELETE_In. exact Hq.
  - intros q Hq. rewrite length_heap_store. apply Hptr.
    apply in_app_or in Hq. apply in_or_app.
    destruct Hq as [Hq | [<- | Hq]].
    + left. eapply ND_LL_DELETE_In. exact Hq.
    + left. exact Hin.
    + right. exact Hq.
  - rewrite (map_ext_in _ (fun q => index (deref r q)))
      by (intros q Hq; rewrite Hkeep by exact Hq; reflexivity).
    apply NoDup_map_ND_LL_DELETE. exact Hidx.
  - intros q Hq. rewrite Hkeep by exact Hq. apply Hrc. eapply ND_LL_DELETE_In. exact Hq.
Qed.

(** [nd_iface_close] with the lists, in terms of the object it leaves. *)
Lemma nd_iface_close_linked_cases (no_restore : bool) (p : nat) (r : registry)
    (ks : kernels) :
  exists v' ks',
    index v' = index (deref r p)
    /\ name v' = name (deref r p)
    /\ refcount v' = refcount (deref r p) - 1
    /\ nd_iface_close_linked no_restore p r ks
       = (if refcount (deref r p) - 1 >? 0
          then {| heap := heap_store (heap r) p v';
                  ndL_first_iface := ndL_first_iface r;
                  ndL_first_free_iface := ndL_first_free_iface r |}
          else {| heap := heap_store (heap r) p v';
                  ndL_first_iface := ND_LL_DELETE (ndL_first_iface r) p;
                  ndL_first_free_iface := ND_LL_PREPEND (ndL_first_free_iface r) p |},
          ks').
Proof.
  unfold nd_iface_close_linked.
  destruct (nd_iface_close no_restore (deref r p) (kernel_of (name (deref r p)) ks))
    as [[unlinked v'] k'] eqn:Hclose.
  destruct (nd_iface_close_fields _ _ _ _ _ _ Hclose) as (Hi & Hn & Hr & ->).
  exists v', (kernel_into (name (deref r p)) k' ks).
  repeat apply conj; try assumption.
  destruct (refcount (deref r p) - 1 >? 0); reflexivity.
Qed.

(** X20.  [nd_iface_close] on an open interface keeps the lists sound and
    touches no other object.  It takes one reference away; while references
    remain both lists stay as they are, and when the last one goes the
    object leaves the list of open interfaces and becomes the head of the
    free list, from where the next [nd_iface_open] takes it. *)
Theorem nd_iface_close_linked_ok (no_restore : bool) (p : nat) (r r' : registry)
    (ks ks' : kernels) :
  registry_ok r ->
  In p (ndL_first_iface r) ->
  nd_iface_close_linked no_restore p r ks = (r', ks') ->
  registry_ok r'
  /\ length (heap r') = length (heap r)
  /\ (forall q, q <> p -> deref r' q = deref r q)
  /\ refcount (deref r' p) = refcount (deref r p) - 1
  /\ index (deref r' p) = index (deref r p)
  /\ (1 < refcount (deref r p) ->
      ndL_first_iface r' = ndL_first_iface r
      /\ ndL_first_free_iface r' = ndL_first_free_iface r)
  /\ (refcount (deref r p) = 1 ->
      ~ In p (ndL_first_iface r')
      /\ (forall q, q <> p -> In q (ndL_first_iface r) -> In q (ndL_first_iface r'))
      /\ ndL_first_free_iface r' = p :: ndL_first_free_iface r).
Proof.
  intros Hok Hin Hclose.
  pose proof Hok as (Hnd & Hptr & Hidx & Hrc).
  assert (Hp : (p < length (heap r))%nat)
    by (apply Hptr; apply in_or_app; left; exact Hin).
  specialize (Hrc p Hin).
  destruct (nd_iface_close_linked_cases no_restore p r ks)
    as (v' & ks1 & Hi & Hn & Hr & Heq).
  rewrite Heq in Hclose. clear Heq.
  destruct (Z.gtb_spec (refcount (deref r p) - 1) 0) as [Hmore | Hlast];
    injection Hclose as <- <-; cbn [heap ndL_first_iface ndL_first_free_iface];
    refine (conj _ (conj _ (conj _ (conj _ (conj _ (conj _ _)))))).
  - apply registry_ok_store; [exact Hok | exact Hi | intros _; lia].
  - apply length_heap_store.
  - intros q Hq. unfold deref. cbn [heap]. apply nth_heap_store_other. congruence.
  - rewrite deref_store_same by exact Hp. exact Hr.
  - rewrite deref_store_same by exact Hp. exact Hi.
  - intros _. split; reflexivity.
  - intros Hone. lia.
  - apply registry_ok_unlink; assumption.
  - apply length_heap_store.
  - intros q Hq. unfold deref. cbn [heap]. apply nth_heap_store_other. congruence.
  - rewrite deref_store_same by exact Hp. exact Hr.
  - rewrite deref_store_same by exact Hp. exact Hi.
  - intros Hmany. lia.
  - intros _. refine (conj _ (conj _ _)).
    + apply ND_LL_DELETE_NoDup. exact (NoDup_app_remove_r _ _ Hnd).
    + intros q Hq Hql. apply ND_LL_DELETE_other; assumption.
    + reflexivity.
Qed.

(** The loop of [nd_iface_cleanup] over the open interfaces. *)
Lemma nd_iface_cleanup_loop (no_restore : bool) (l : list nat) :
  forall (r : registry) (ks : kernels) (r' : registry) (ks' : kernels),
    registry_ok r ->
    ndL_first_iface r = l ->
    fold_left
      (fun (s : registry * kernels) iface =>
         let (r, ks) := s in
         let r := {| heap := heap_store (heap r) iface (set_refcount 1 (deref r iface));
                     ndL_first_iface := ndL_first_iface r;
                     ndL_first_free_iface := ndL_first_free_iface r |} in
         nd_iface_close_linked no_restore iface r ks)
      l (r, ks) = (r', ks') ->
    registry_ok r'
    /\ ndL_first_iface r' = []
    /\ ndL_first_free_iface r' = rev l ++ ndL_first_free_iface r
    /\ length (heap r') = length (heap r).
Proof.
  induction l as [| p l IH]; intros r ks r' ks' Hok Hlive Hrun.
  - cbn in Hrun. injection Hrun as <- <-. subst.
    refine (conj Hok (conj Hlive (conj eq_refl eq_refl))).
  - cbn [fold_left] in Hrun.
    pose proof Hok as (Hnd & Hptr & Hidx & Hrc).
    assert (Hin : In p (ndL_first_iface r)) by (rewrite Hlive; left; reflexivity).
    assert (Hp : (p < length (heap r))%nat)
      by (apply Hptr; apply in_or_app; left; exact Hin).
    set (r1 := {| heap := heap_store (heap r) p (set_refcount 1 (deref r p));
                  ndL_first_iface := ndL_first_iface r;
                  ndL_first_free_iface := ndL_first_free_iface r |}) in Hrun.
    assert (Hok1 : registry_ok r1).
    { apply registry_ok_store; [exact Hok | reflexivity | intros _; cbn; lia]. }
    assert (Hone : refcount (deref r1 p) = 1).
    { unfold r1. rewrite deref_store_same by exact Hp. reflexivity. }
    destruct (nd_iface_close_linked_cases no_restore p r1 ks)
      as (v' & ks1 & Hi & Hn & Hr & Heq).
    rewrite Heq, Hone in Hrun. clear Heq.
    change (1 - 1 >? 0) with false in Hrun. cbv iota in Hrun.
    apply IH in Hrun.
    + destruct Hrun as (Hok' & Hlive' & Hfree' & Hlen').
      refine (conj Hok' (conj Hlive' (conj _ _))).
      * rewrite Hfree'. unfold ND_LL_PREPEND. cbn [ndL_first_free_iface rev r1].
        rewrite <- app_assoc. reflexivity.
      * rewrite Hlen'. cbn [heap r1]. rewrite !length_heap_store. reflexivity.
    + apply registry_ok_unlink; assumption.
    + cbn [ndL_first_iface r1]. rewrite Hlive. apply ND_LL_DELETE_head.
Qed.

(** X21.  [nd_iface_cleanup] closes every open interface, however many
    references it had: afterwards no interface is open, the objects are on
    the free list, the last closed first, the lists are sound, and no object
    was allocated or lost. *)
Theorem nd_iface_cleanup_closes_all (no_restore : bool) (r r' : registry)
    (ks ks' : kernels) :
  registry_ok r ->
  nd_iface_cleanup no_restore r ks = (r', ks') ->
  registry_ok r'
  /\ ndL_first_iface r' = []
  /\ ndL_first_free_iface r' = rev (ndL_first_iface r) ++ ndL_first_free_iface r
  /\ length (heap r') = length (heap r).
Proof.
  intros Hok Hrun.
  apply (nd_iface_cleanup_loop no_restore (ndL_first_iface r) r ks r' ks' Hok eq_refl Hrun).
Qed.

(** The sample registries are sound. *)
Lemma registry_ok_empty : registry_ok registry_empty.
Proof.
  unfold registry_ok, registry_empty. cbn.
  repeat apply conj; try constructor; intros p [].
Qed.

Lemma registry_ok_two : registry_ok registry_two.
Proof.
  unfold registry_ok.
  change (ndL_first_iface registry_two) with [1%nat; 0%nat].
  change (ndL_first_free_iface registry_two) with (@nil nat).
  refine (conj _ (conj _ (conj _ _))).
  - repeat constructor; cbn; lia.
  - intros p [<- | [<- | []]]; vm_compute; lia.
  - change (NoDup [3; 2]). repeat constructor; cbn; lia.
  - intros p [<- | [<- | []]]; reflexivity.
Qed.

Lemma nd_iface_open_ok_witness :
  registry_ok registry_empty
  /\ fst (nd_iface_open sample_os (Some "eth0"%string) 0 registry_empty) = Some 0%nat
  /\ registry_ok (snd (nd_iface_open sample_os (Some "eth0"%string) 0 registry_empty)).
Proof.
  split; [exact registry_ok_empty | split; [reflexivity | ]].
  exact (proj1 (nd_iface_open_ok sample_os (Some "eth0"%string) 0 registry_empty
                  _ _ registry_ok_empty eq_refl)).
Defined.

Lemma nd_iface_open_shared_witness :
  registry_ok registry_two
  /\ nd_iface_resolve sample_os (Some "eth0"%string) 2 = Some (2, "eth0"%string)
  /\ In 0%nat (ndL_first_iface registry_two)
  /\ index (deref registry_two 0) = 2
  /\ fst (nd_iface_open sample_os (Some "eth0"%string) 2 registry_two) = Some 0%nat.
Proof.
  assert (Hin : In 0%nat (ndL_first_iface registry_two)) by (right; left; reflexivity).
  split; [exact registry_ok_two | split; [reflexivity | split; [exact Hin | ]]].
  split; [reflexivity | ].
  exact (proj1 (nd_iface_open_shared sample_os (Some "eth0"%string) 2 registry_two
                  2 "eth0"%string 0 registry_ok_two eq_refl Hin eq_refl)).
Defined.

Lemma nd_iface_open_close_witness :
  let opened := nd_iface_open sample_os None 3 registry_two in
  let closed := nd_iface_close_linked false 1 (snd opened) sample_kernels in
  registry_ok registry_two
  /\ opened = (Some 1%nat, snd opened)
  /\ ndL_first_iface (fst closed) = ndL_first_iface registry_two.
Proof.
  intros opened closed.
  split; [exact registry_ok_two | split; [reflexivity | ]].
  exact (proj1 (nd_iface_open_close sample_os None 3 false registry_two (snd opened)
                  (fst closed) 1 sample_kernels (snd closed)
                  registry_ok_two eq_refl eq_refl)).
Defined.

Lemma nd_iface_close_linked_ok_witness :
  let closed := nd_iface_close_linked false 0 registry_two sample_kernels in
  registry_ok registry_two
  /\ In 0%nat (ndL_first_iface registry_two)
  /\ refcount (deref registry_two 0) = 1
  /\ ndL_first_free_iface (fst closed) = [0%nat].
Proof.
  intros closed.
  assert (Hin : In 0%nat (ndL_first_iface registry_two)) by (right; left; reflexivity).
  split; [exact registry_ok_two | split; [exact Hin | split; [reflexivity | ]]].
  destruct (nd_iface_close_linked_ok false 0 registry_two (fst closed) sample_kernels
              (snd closed) registry_ok_two Hin eq_refl)
    as (_ & _ & _ & _ & _ & _ & Hlast).
  exact (proj2 (proj2 (Hlast eq_refl))).
Defined.

Lemma nd_iface_cleanup_closes_all_witness :
  let cleaned := nd_iface_cleanup false registry_two sample_kernels in
  registry_ok registry_two
  /\ ndL_first_iface (fst cleaned) = []
  /\ ndL_first_free_iface (fst cleaned) = [0%nat; 1%nat].
Proof.
  intros cleaned.
  destruct (nd_iface_cleanup_closes_all false registry_two (fst cleaned) sample_kernels
              (snd cleaned) registry_ok_two eq_refl)
    as (_ & Hlive & Hfree & _).
  split; [exact registry_ok_two | split; [exact Hlive | exact Hfree]].
Defined.

(** ** The loop over the Hop-by-Hop headers *)

(** More fuel does not change the outcome. *)
Lemma ndL_skip_hopopts_more_fuel (fuel : nat) (payload : mem) (plen i : Z) (e : hopopts_exit) :
  0 <= i <= plen -> plen < 2 ^ 16 ->
  ndL_skip_hopopts fuel payload plen i = Some e ->
  forall fuel', (fuel <= fuel')%nat -> ndL_skip_hopopts fuel' payload plen i = Some e.
Proof.
  revert i. induction fuel as [| fuel IH]; intros i Hi Hplen Hrun fuel' Hle.
  - discriminate Hrun.
  - destruct fuel' as [| fuel']; [lia | ].
    rewrite ndL_skip_hopopts_step in Hrun |- * by assumption.
    set (hbh := ptr_add payload (Z.to_nat i)) in *.
    set (next := i + 8 + 8 * load8 hbh off_ip6h_len) in *.
    pose proof (load8_range hbh off_ip6h_len) as Hlen.
    destruct ((plen - i <? 8) || (plen <? next)) eqn:Hdrop; [exact Hrun | ].
    apply orb_false_elim in Hdrop. destruct Hdrop as [_ Hnext].
    apply Z.ltb_ge in Hnext.
    destruct (load8 hbh off_ip6h_nxt =? IPPROTO_ICMPV6); [exact Hrun | ].
    destruct (negb (load8 hbh off_ip6h_nxt =? IPPROTO_HOPOPTS)); [exact Hrun | ].
    apply (IH next); [unfold next in *; lia | exact Hplen | exact Hrun | lia].
Qed.

(** The loop moves in steps of eight bytes. *)
Lemma ndL_skip_hopopts_aligned (fuel : nat) (payload : mem) (plen i j : Z) :
  0 <= i <= plen -> plen < 2 ^ 16 ->
  i mod 8 = 0 ->
  ndL_skip_hopopts fuel payload plen i = Some (hbh_break j) ->
  j mod 8 = 0.
Proof.
  revert i. induction fuel as [| fuel IH]; intros i Hi Hplen Hal Hrun.
  - discriminate Hrun.
  - rewrite ndL_skip_hopopts_step in Hrun by assumption.
    set (hbh := ptr_add payload (Z.to_nat i)) in Hrun.
    set (next := i + 8 + 8 * load8 hbh off_ip6h_len) in Hrun.
    pose proof (load8_range hbh off_ip6h_len) as Hlen.
    assert (Hnal : next mod 8 = 0).
    { unfold next.
      replace (i + 8 + 8 * load8 hbh off_ip6h_len)
        with (i + (1 + load8 hbh off_ip6h_len) * 8) by lia.
      rewrite Z.mod_add by lia. exact Hal. }
    destruct ((plen - i <? 8) || (plen <? next)) eqn:Hdrop; [discriminate | ].
    apply orb_false_elim in Hdrop. destruct Hdrop as [_ Hnext].
    apply Z.ltb_ge in Hnext.
    destruct (load8 hbh off_ip6h_nxt =? IPPROTO_ICMPV6).
    + injection Hrun as <-. exact Hnal.
    + destruct (negb (load8 hbh off_ip6h_nxt =? IPPROTO_HOPOPTS)); [discriminate | ].
      apply (IH next); [unfold next in *; lia | exact Hplen | exact Hnal | exact Hrun].
Qed.

(** X22.  No frame keeps [ndL_handle_msg] in its loop over the Hop-by-Hop
    headers: every round moves on by at least eight bytes or ends the loop,
    so the loop has ended, by [return] or by [break], after at most one round
    for every byte of [ip6_plen], and more rounds would change nothing.
    When it ends by [break] the index is a multiple of eight that lies inside
    the payload, and past the first eight bytes. *)
Theorem ndL_skip_hopopts_ends (msg : mem) :
  let plen := load16 (ptr_add msg sizeof_ether_header) off_ip6_plen in
  let payload := ptr_add msg sizeof_ndL_ip6_msg_t in
  (exists e, forall fuel, (Z.to_nat plen < fuel)%nat ->
               ndL_skip_hopopts fuel payload plen 0 = Some e)
  /\ (forall fuel i, ndL_skip_hopopts fuel payload plen 0 = Some (hbh_break i) ->
        8 <= i <= plen /\ i mod 8 = 0).
Proof.
  intros plen payload.
  pose proof (load16_range (ptr_add msg sizeof_ether_header) off_ip6_plen) as Hplen.
  fold plen in Hplen.
  split.
  - destruct (ndL_skip_hopopts (S (Z.to_nat plen)) payload plen 0) as [e | ] eqn:Hrun.
    + exists e. intros fuel Hfuel.
      apply (ndL_skip_hopopts_more_fuel (S (Z.to_nat plen)) payload plen 0 e);
        [lia | lia | exact Hrun | lia].
    + exfalso. revert Hrun. apply ndL_skip_hopopts_fuel; lia.
  - intros fuel i Hrun. split.
    + apply (ndL_skip_hopopts_break fuel payload plen 0 i) in Hrun; lia.
    + apply (ndL_skip_hopopts_aligned fuel payload plen 0 i); [lia | lia | reflexivity | exact Hrun].
Qed.

(** ** The checksum field does not enter the checksum *)

(** X23.  [ndL_calculate_icmp6_checksum] works on a copy of the header whose
    checksum field it has cleared: whatever the field holds in the message,
    the result is the same.  This is why [ndL_send_icmp6] can compute the
    checksum without clearing the field first, and why [ndL_handle_msg] can
    compute it over a frame that carries one. *)
Theorem ndL_calculate_icmp6_checksum_ignores_field (ip6h ih : mem) (size v : Z) :
  (sizeof_icmp6_hdr <= length ih)%nat ->
  ndL_calculate_icmp6_checksum ip6h (store16 ih off_icmp6_cksum v) size
  = ndL_calculate_icmp6_checksum ip6h ih size.
Proof.
  intros Hih. unfold ndL_calculate_icmp6_checksum.
  unfold sizeof_icmp6_hdr in Hih.
  explode ih by Hih 8.
  wire. reflexivity.
Qed.

Lemma ndL_calculate_icmp6_checksum_ignores_field_witness :
  (sizeof_icmp6_hdr <= length (sample_ns 0xb8 0x8d))%nat
  /\ ndL_calculate_icmp6_checksum (ptr_add frame_ns sizeof_ether_header)
       (store16 (sample_ns 0xb8 0x8d) off_icmp6_cksum 0xffff) 32
     = ndL_calculate_icmp6_checksum (ptr_add frame_ns sizeof_ether_header)
         (sample_ns 0xb8 0x8d) 32.
Proof.
  assert (Hlen : (sizeof_icmp6_hdr <= length (sample_ns 0xb8 0x8d))%nat)
    by (unfold sizeof_icmp6_hdr; simpl; lia).
  split; [exact Hlen | ].
  apply (ndL_calculate_icmp6_checksum_ignores_field _ (sample_ns 0xb8 0x8d) 32 0xffff Hlen).
Defined.
